(** * SAP CI reviewer: IFlow extraction and security-compliance analysis

    A shallow embedding of the extraction pipeline of
    [backend/app/services/sap_tools.py] (class [SAPConnection]) and of the
    property-file reader of [backupfiles/simplified_auth_validator.py],
    together with the properties of the design document that they decide.

    Conventions of the embedding.
    - A Python [str] is a [string]; one [ascii] stands for one code point
      below 256, and [lower], [strip] and [splitlines] follow CPython on
      that range.
    - A Python [dict] is an association list in insertion order
      ([dict_set] overwrites in place, as CPython does), because the code
      iterates over [properties.items()].
    - [print] and logger calls have no effect on any value and are left out.
    - Library code ([re], [xml.etree.ElementTree], [zipfile], [os], [shutil])
      is modelled next to the code that calls it; [ET.fromstring] and the
      decoding of ZIP bytes are parameters of the development. *)

From Stdlib Require Import String Ascii List Bool Arith Lia.
Import ListNotations.
Open Scope list_scope.
Open Scope string_scope.

Set Warnings "-register-all".

(** ** Python strings *)

Module Py.

Definition code (c : ascii) : nat := nat_of_ascii c.

(** [str.isspace] on one code point below 256. *)
Definition isspace (c : ascii) : bool :=
  let n := code c in
  (((9 <=? n) && (n <=? 13)) || ((28 <=? n) && (n <=? 32))
   || (n =? 133) || (n =? 160))%nat.

(** Line boundaries of [str.splitlines] below 256 (CR LF is handled by
    [splitlines] itself). *)
Definition islinebreak (c : ascii) : bool :=
  let n := code c in
  (((10 <=? n) && (n <=? 13)) || ((28 <=? n) && (n <=? 30))
   || (n =? 133))%nat.

(** [str.lower] on one code point below 256. *)
Definition lower_char (c : ascii) : ascii :=
  let n := code c in
  if (((65 <=? n) && (n <=? 90))
      || ((192 <=? n) && (n <=? 222) && negb (n =? 215)))%nat
  then ascii_of_nat (n + 32) else c.

Fixpoint lower (s : string) : string :=
  match s with
  | EmptyString => EmptyString
  | String c s' => String (lower_char c) (lower s')
  end.

Definition truthy (s : string) : bool :=
  match s with EmptyString => false | _ => true end.

Definition startswith (s p : string) : bool := String.prefix p s.

Definition endswith (s suf : string) : bool :=
  (String.length suf <=? String.length s)%nat
  && String.eqb (substring (String.length s - String.length suf)
                           (String.length suf) s) suf.

(** [needle in hay]. *)
Fixpoint contains (needle hay : string) : bool :=
  String.prefix needle hay
  || match hay with
     | EmptyString => false
     | String _ hay' => contains needle hay'
     end.

Fixpoint lstrip (s : string) : string :=
  match s with
  | EmptyString => EmptyString
  | String c s' => if isspace c then lstrip s' else s
  end.

Fixpoint rstrip (s : string) : string :=
  match s with
  | EmptyString => EmptyString
  | String c s' =>
      match rstrip s' with
      | EmptyString => if isspace c then EmptyString else String c EmptyString
      | r => String c r
      end
  end.

Definition strip (s : string) : string := rstrip (lstrip s).

(** [s.split(sep, 1)] for a one-character separator. *)
Fixpoint split1 (sep : ascii) (s : string) : list string :=
  match s with
  | EmptyString => [EmptyString]
  | String c s' =>
      if Ascii.eqb c sep then [EmptyString; s']
      else match split1 sep s' with
           | a :: rest => String c a :: rest
           | [] => [String c EmptyString]
           end
  end.

(** [s.split(sep)] for a one-character separator. *)
Fixpoint split (sep : ascii) (s : string) : list string :=
  match s with
  | EmptyString => [EmptyString]
  | String c s' =>
      if Ascii.eqb c sep then EmptyString :: split sep s'
      else match split sep s' with
           | a :: rest => String c a :: rest
           | [] => [String c EmptyString]
           end
  end.

(** [str.splitlines()]: [cur] is the line being read. *)
Fixpoint splitlines_from (cur : string) (s : string) : list string :=
  match s with
  | EmptyString => if truthy cur then [cur] else []
  | String c s' =>
      if Ascii.eqb c "013" then
        match s' with
        | String "010" s'' => cur :: splitlines_from EmptyString s''
        | _ => cur :: splitlines_from EmptyString s'
        end
      else if islinebreak c then cur :: splitlines_from EmptyString s'
      else splitlines_from (cur ++ String c EmptyString) s'
  end.

Definition splitlines (s : string) : list string :=
  splitlines_from EmptyString s.

(** [sep.join(l)]. *)
Fixpoint join (sep : string) (l : list string) : string :=
  match l with
  | [] => EmptyString
  | [x] => x
  | x :: rest => x ++ sep ++ join sep rest
  end.

(** [x in l] for a list of strings. *)
Definition mem (x : string) (l : list string) : bool :=
  existsb (String.eqb x) l.

(** [list(set(l))]: the elements of [l] without repetition.  CPython fixes
    no order for the result; the first occurrences are kept here, and the
    properties below depend on membership only. *)
Fixpoint list_set (l : list string) : list string :=
  match l with
  | [] => []
  | x :: rest => x :: filter (fun y => negb (String.eqb x y)) (list_set rest)
  end.

(** ** Python dictionaries with string keys, in insertion order *)

Definition dict (V : Type) := list (string * V).

Fixpoint dict_get {V} (d : dict V) (k : string) : option V :=
  match d with
  | [] => None
  | (k', v) :: rest => if String.eqb k' k then Some v else dict_get rest k
  end.

(** [d[k] = v] *)
Fixpoint dict_set {V} (d : dict V) (k : string) (v : V) : dict V :=
  match d with
  | [] => [(k, v)]
  | (k', v') :: rest =>
      if String.eqb k' k then (k', v) :: rest
      else (k', v') :: dict_set rest k v
  end.

(** [d.update(other)] *)
Definition dict_update {V} (d other : dict V) : dict V :=
  fold_left (fun acc kv => dict_set acc (fst kv) (snd kv)) other d.

Definition dict_has {V} (d : dict V) (k : string) : bool :=
  match dict_get d k with Some _ => true | None => false end.

End Py.

(** ** The property-file reader (simplified_auth_validator.py) *)

Module AuthValidator.
Import Py.

(** The body of the [for line in properties_content.splitlines()] loop.
    The whole loop sits in one [try]: were the tuple assignment
    [key, value = line.split('=', 1)] to fail, the [except] would leave the
    loop and the dictionary built so far would be returned. *)
Fixpoint extract_loop (lines : list string) (properties : dict string)
  : dict string :=
  match lines with
  | [] => properties
  | line0 :: rest =>
      let line := strip line0 in
      if truthy line && negb (startswith line "#") && contains "=" line then
        match split1 "=" line with
        | [key; value] =>
            extract_loop rest (dict_set properties (strip key) (strip value))
        | _ => properties
        end
      else extract_loop rest properties
  end.

Definition extract_properties (properties_content : string) : dict string :=
  extract_loop (splitlines properties_content) [].

End AuthValidator.

(** ** Regular expressions ([re]) *)

(** The patterns of the source are built from literals, character classes,
    class repetitions, alternation and capturing groups; [m] is the
    backtracking matcher of [re] on that fragment (leftmost alternative
    first, greedy repetition longest first, lazy repetition shortest
    first).  The only [.] of the source occurs under [re.DOTALL], so [Any]
    matches every character.  No pattern of the source matches the empty
    string. *)
Module Re.
Import Py.

Inductive cset :=
| Any
| Space
| OneOf (l : list ascii)
| NoneOf (l : list ascii).

Inductive re :=
| Eps
| Chr (c : cset)
| Seq (a b : re)
| Alt (a b : re)
| Star (c : cset)
| LazyStar (c : cset)
| Group (a : re).

Definition dquote : ascii := "034"%char.

Fixpoint lit (s : string) : re :=
  match s with
  | EmptyString => Eps
  | String c EmptyString => Chr (OneOf [c])
  | String c s' => Seq (Chr (OneOf [c])) (lit s')
  end.

Definition plus (c : cset) : re := Seq (Chr c) (Star c).
Definition opt (a : re) : re := Alt a Eps.
Definition chars (s : string) : list ascii := list_ascii_of_string s.

Fixpoint seq (l : list re) : re :=
  match l with
  | [] => Eps
  | [a] => a
  | a :: rest => Seq a (seq rest)
  end.

Definition result := option (list ascii * list string).

Section Matcher.
Variable ignorecase : bool.

Definition same_char (c x : ascii) : bool :=
  if ignorecase then Ascii.eqb (lower_char c) (lower_char x)
  else Ascii.eqb c x.

Definition cset_mem (cs : cset) (x : ascii) : bool :=
  match cs with
  | Any => true
  | Space => isspace x
  | OneOf l => existsb (fun c => same_char c x) l
  | NoneOf l => negb (existsb (fun c => same_char c x) l)
  end.

Definition K := list ascii -> list string -> result.

Fixpoint star_greedy (cs : cset) (s : list ascii) (g : list string) (k : K)
  : result :=
  match s with
  | x :: s' =>
      if cset_mem cs x then
        match star_greedy cs s' g k with
        | Some r => Some r
        | None => k s g
        end
      else k s g
  | [] => k [] g
  end.

Fixpoint star_lazy (cs : cset) (s : list ascii) (g : list string) (k : K)
  : result :=
  match k s g with
  | Some r => Some r
  | None =>
      match s with
      | x :: s' => if cset_mem cs x then star_lazy cs s' g k else None
      | [] => None
      end
  end.

Fixpoint m (r : re) (s : list ascii) (g : list string) (k : K) : result :=
  match r with
  | Eps => k s g
  | Chr cs =>
      match s with
      | x :: s' => if cset_mem cs x then k s' g else None
      | [] => None
      end
  | Seq a b => m a s g (fun s1 g1 => m b s1 g1 k)
  | Alt a b =>
      match m a s g k with
      | Some r => Some r
      | None => m b s g k
      end
  | Star cs => star_greedy cs s g k
  | LazyStar cs => star_lazy cs s g k
  | Group a =>
      m a s g (fun s1 g1 =>
        k s1 (g1 ++ [string_of_list_ascii
                       (firstn (length s - length s1) s)])%list)
  end.

(** A match starting exactly at the head of [s]: the rest of the input
    and the groups. *)
Definition match_at (r : re) (s : list ascii) : result :=
  m r s [] (fun s' g => Some (s', g)).

Fixpoint search_from (r : re) (s : list ascii) : bool :=
  match match_at r s with
  | Some _ => true
  | None =>
      match s with
      | [] => false
      | _ :: s' => search_from r s'
      end
  end.

(** Scanning for non-overlapping matches; [skip] counts the characters of
    the previous match that are still to be passed. *)
Fixpoint findall_from (r : re) (s : list ascii) (skip : nat)
  : list (list string) :=
  match s with
  | [] =>
      match skip, match_at r [] with
      | O, Some (_, g) => [g]
      | _, _ => []
      end
  | _ :: s' =>
      match skip with
      | S n => findall_from r s' n
      | O =>
          match match_at r s with
          | Some (rest, g) =>
              g :: findall_from r s' (length s - length rest - 1)
          | None => findall_from r s' 0
          end
      end
  end.

End Matcher.

(** [re.search(pattern, content)] as a truth value. *)
Definition search (r : re) (content : string) : bool :=
  search_from false r (chars content).

(** [re.search(pattern, content, re.IGNORECASE)] *)
Definition search_i (r : re) (content : string) : bool :=
  search_from true r (chars content).

(** [re.findall(pattern, content)] for a pattern with one group. *)
Definition findall (r : re) (content : string) : list string :=
  map (fun g => hd EmptyString g) (findall_from false r (chars content) 0).

(** [re.findall(pattern, content)] for a pattern with two groups. *)
Definition findall2 (r : re) (content : string) : list (string * string) :=
  map (fun g => (nth 0 g EmptyString, nth 1 g EmptyString))
      (findall_from false r (chars content) 0).

End Re.

(** ** Element trees ([xml.etree.ElementTree]) *)

Module ET.
Import Py.

(** An element: its tag in Clark notation ([{uri}local] when namespaced),
    its attributes, its text ([None] when absent) and its children. *)
Inductive Element :=
| Elem (tag : string) (attrib : dict string) (text : option string)
       (children : list Element).

Definition tag (e : Element) := let 'Elem t _ _ _ := e in t.
Definition attrib (e : Element) := let 'Elem _ a _ _ := e in a.
Definition text (e : Element) := let 'Elem _ _ t _ := e in t.
Definition children (e : Element) := let 'Elem _ _ _ c := e in c.

(** [e.get(key, default)] *)
Definition get (e : Element) (key default : string) : string :=
  match dict_get (attrib e) key with Some v => v | None => default end.

(** The proper descendants of an element in document order. *)
Fixpoint descendants (e : Element) : list Element :=
  let 'Elem _ _ _ cs := e in
  (fix go (l : list Element) : list Element :=
     match l with
     | [] => []
     | c :: rest => c :: (descendants c ++ go rest)%list
     end) cs.

(** What [ET.fromstring] does with a text. *)
Inductive parse_outcome :=
| Parsed (root : Element)
| ParseError (msg : string)
| OtherError (msg : string).

(** The paths of the source have one of the shapes [tag], [./tag] and
    [.//tag], where [tag] is a name, a prefixed name, or a
    [*[local-name()=...]] test.  ElementPath raises [SyntaxError] for every
    predicate of that last kind and for a prefix that the namespace map
    does not bind; [None] stands for that exception. *)
Inductive axis := Child | Descendant.

Definition path_axis (p : string) : axis * string :=
  if startswith p ".//" then (Descendant, substring 3 (String.length p - 3) p)
  else if startswith p "./" then (Child, substring 2 (String.length p - 2) p)
  else (Child, p).

Definition resolve_tag (name : string) (namespaces : dict string)
  : option string :=
  if contains "[" name then None
  else
    match split1 ":" name with
    | [pfx; local] =>
        match dict_get namespaces pfx with
        | Some uri => Some ("{" ++ uri ++ "}" ++ local)
        | None => None
        end
    | _ => Some name
    end.

Definition findall (e : Element) (p : string) (namespaces : dict string)
  : option (list Element) :=
  let '(ax, name) := path_axis p in
  match resolve_tag name namespaces with
  | None => None
  | Some t =>
      Some (filter (fun c => String.eqb (tag c) t)
                   (match ax with
                    | Child => children e
                    | Descendant => descendants e
                    end))
  end.

(** [e.find(path, namespaces)]: [Some None] when nothing matches. *)
Definition find (e : Element) (p : string) (namespaces : dict string)
  : option (option Element) :=
  match findall e p namespaces with
  | None => None
  | Some l => Some (hd_error l)
  end.

End ET.

(** ** Files and directories ([os], [os.path], [shutil]) *)

(** A POSIX file tree.  Paths are strings without [.] and [..]
    components, and the working directory is the root, so that a relative
    and an absolute spelling of a path name the same node.  Reading a file
    as text with [errors='ignore'] returns its data. *)
Module OS.
Import Py.

Inductive node :=
| File (data : string)
| Dir (entries : dict node).

Definition components (p : string) : list string :=
  filter truthy (split "/" p).

(** [(p[:i], p[i:])] for [i = p.rfind('/') + 1]. *)
Fixpoint split_last (p : string) : string * string :=
  match p with
  | EmptyString => (EmptyString, EmptyString)
  | String c p' =>
      let '(h, t) := split_last p' in
      match h with
      | EmptyString =>
          if Ascii.eqb c "/" then ("/", t) else (EmptyString, String c t)
      | _ => (String c h, t)
      end
  end.

Fixpoint rstrip_slashes (s : string) : string :=
  match s with
  | EmptyString => EmptyString
  | String c s' =>
      match rstrip_slashes s' with
      | EmptyString =>
          if Ascii.eqb c "/" then EmptyString else String c EmptyString
      | r => String c r
      end
  end.

(** [os.path.dirname] *)
Definition dirname (p : string) : string :=
  let head := fst (split_last p) in
  match rstrip_slashes head with
  | EmptyString => head
  | stripped => stripped
  end.

(** [os.path.basename] *)
Definition basename (p : string) : string := snd (split_last p).

(** [os.path.join(a, b)] *)
Definition join (a b : string) : string :=
  if startswith b "/" then b
  else if negb (truthy a) || endswith a "/" then a ++ b
  else a ++ "/" ++ b.

Fixpoint lookup (n : node) (comps : list string) : option node :=
  match comps with
  | [] => Some n
  | c :: rest =>
      match n with
      | File _ => None
      | Dir es =>
          match dict_get es c with
          | Some n' => lookup n' rest
          | None => None
          end
      end
  end.

(** [os.path.exists(p)] *)
Definition exists_ (fs : node) (p : string) : bool :=
  truthy p
  && match lookup fs (components p) with Some _ => true | None => false end.

(** [open(p).read()]: [None] when [open] raises. *)
Definition read (fs : node) (p : string) : option string :=
  match lookup fs (components p) with
  | Some (File data) => Some data
  | _ => None
  end.

Definition child (es : dict node) (c : string) : node :=
  match dict_get es c with
  | Some n => n
  | None => Dir []
  end.

(** Directory creation along [comps]; [None] when a file is in the way. *)
Fixpoint mkdirs (n : node) (comps : list string) : option node :=
  match n with
  | File _ => None
  | Dir es =>
      match comps with
      | [] => Some n
      | c :: rest =>
          match mkdirs (child es c) rest with
          | Some n' => Some (Dir (dict_set es c n'))
          | None => None
          end
      end
  end.

(** [os.makedirs(p, exist_ok=True)]: [None] when it raises. *)
Definition makedirs (fs : node) (p : string) : option node :=
  mkdirs fs (components p).

(** Writing a file at [comps] below [n]; [None] when the target is a
    directory or a file is in the way. *)
Fixpoint write_at (n : node) (comps : list string) (data : string)
  : option node :=
  match n, comps with
  | File _, _ => None
  | Dir _, [] => None
  | Dir es, [c] =>
      match dict_get es c with
      | Some (Dir _) => None
      | _ => Some (Dir (dict_set es c (File data)))
      end
  | Dir es, c :: rest =>
      match write_at (child es c) rest data with
      | Some n' => Some (Dir (dict_set es c n'))
      | None => None
      end
  end.

Definition dict_remove {V} (d : dict V) (k : string) : dict V :=
  filter (fun kv => negb (String.eqb (fst kv) k)) d.

(** Removal of the directory at [comps]; [None] when there is no
    directory there. *)
Fixpoint remove_dir (n : node) (comps : list string) : option node :=
  match n, comps with
  | File _, _ => None
  | Dir _, [] => None
  | Dir es, [c] =>
      match dict_get es c with
      | Some (Dir _) => Some (Dir (dict_remove es c))
      | _ => None
      end
  | Dir es, c :: rest =>
      match dict_get es c with
      | Some n' =>
          match remove_dir n' rest with
          | Some n'' => Some (Dir (dict_set es c n''))
          | None => None
          end
      | None => None
      end
  end.

(** [for root, dirs, files in os.walk(top): for file in files], as the
    list of the pairs [(root, file)] in the order of the walk: the files of
    a directory, then its subdirectories, each in the stored order, which
    stands for the order in which the file system lists the entries. *)
Fixpoint walk_node (top : string) (n : node) : list (string * string) :=
  match n with
  | File _ => []
  | Dir es =>
      ((fix files (l : dict node) : list (string * string) :=
          match l with
          | [] => []
          | (name, File _) :: rest => (top, name) :: files rest
          | (_, Dir _) :: rest => files rest
          end) es
       ++
       (fix dirs (l : dict node) : list (string * string) :=
          match l with
          | [] => []
          | (name, sub) :: rest =>
              match sub with
              | File _ => dirs rest
              | Dir _ => walk_node (join top name) sub ++ dirs rest
              end
          end) es)%list
  end.

Definition walk (fs : node) (top : string) : list (string * string) :=
  match lookup fs (components top) with
  | Some n => walk_node top n
  | None => []
  end.

End OS.

(** ** ZIP archives ([zipfile]) *)

Module Zip.
Import Py.

(** A member of an archive; [readable] is false for a member whose
    [open] raises (an encrypted member, for instance). *)
Record member := {
  filename : string;
  data : string;
  readable : bool
}.

Definition archive := list member.

Definition namelist (a : archive) : list string := map filename a.

(** [getinfo(name)]: the last member of that name. *)
Definition getinfo (a : archive) (name : string) : option member :=
  List.find (fun m => String.eqb (filename m) name) (rev a).

(** [zip_ref.open(name).read()] *)
Definition read (a : archive) (name : string) : option string :=
  match getinfo a name with
  | Some m => if readable m then Some (data m) else None
  | None => None
  end.

(** The components of the target of a member below the extraction
    directory: empty, [.] and [..] parts are dropped. *)
Definition arcname (name : string) : list string :=
  filter (fun x => negb (mem x [EmptyString; "."; ".."])) (split "/" name).

(** [zip_ref.extract(name, path)]: the file tree afterwards and whether
    the call returned ([false]: it raised).  The directories above the
    target are made first; a directory member makes its directory; a file
    member is opened and then written. *)
Definition extract (a : archive) (name : string) (path : string)
    (fs : OS.node) : OS.node * bool :=
  match getinfo a name with
  | None => (fs, false)
  | Some m =>
      let target := (OS.components path ++ arcname name)%list in
      if endswith name "/" then
        match OS.mkdirs fs target with
        | Some fs' => (fs', true)
        | None => (fs, false)
        end
      else
        match OS.mkdirs fs (removelast target) with
        | None => (fs, false)
        | Some fs1 =>
            if readable m then
              match OS.write_at fs1 target (data m) with
              | Some fs2 => (fs2, true)
              | None => (fs1, false)
              end
            else (fs1, false)
        end
  end.

End Zip.

(** ** sap_tools.py: class SAPConnection *)

Module SAPConnection.
Import Py.

(** *** Namespace dictionaries *)

Definition BPMN_MODEL := "http://www.omg.org/spec/BPMN/20100524/MODEL".
Definition IFL_XSD := "http:///com.sap.ifl.model/Ifl.xsd".
Definition BPMN_DI := "http://www.omg.org/spec/BPMN/20100524/DI".

(** [namespace_sets] of [_process_xml_file] and
    [_process_iflow_definition]. *)
Definition namespace_sets : list (dict string) :=
  [ [("bpmn2", BPMN_MODEL); ("ifl", IFL_XSD); ("bpmndi", BPMN_DI)];
    [("bpmn", BPMN_MODEL); ("ifl", IFL_XSD)];
    [] ].

(** [namespace_sets] of [check_security_compliance]. *)
Definition security_namespace_sets : list (dict string) :=
  [ [("bpmn2", BPMN_MODEL); ("ifl", IFL_XSD)];
    [("bpmn", BPMN_MODEL); ("ifl", IFL_XSD)];
    [] ].

(** *** _extract_properties *)

(** The class body defines [_extract_properties] twice with the same
    statements; the later definition is the one bound. *)

Definition property_paths : list string :=
  [".//ifl:property"; "./property"; ".//property";
   ".//*[local-name()=" ++ String Re.dquote "property" ++ String Re.dquote "]"].

Definition key_paths : list string :=
  ["key"; "ifl:key";
   "*[local-name()=" ++ String Re.dquote "key" ++ String Re.dquote "]"].

Definition value_paths : list string :=
  ["value"; "ifl:value";
   "*[local-name()=" ++ String Re.dquote "value" ++ String Re.dquote "]"].

(** [for key_path in key_paths]: the text of the first key element found
    with a non-empty text. *)
Fixpoint find_key_text (prop : ET.Element) (namespaces : dict string)
    (paths : list string) : option string :=
  match paths with
  | [] => None
  | key_path :: rest =>
      match ET.find prop key_path namespaces with
      | Some (Some key_elem) =>
          match ET.text key_elem with
          | Some t => if truthy t then Some t
                      else find_key_text prop namespaces rest
          | None => find_key_text prop namespaces rest
          end
      | _ => find_key_text prop namespaces rest
      end
  end.

(** [for value_path in value_paths]: the text of the first value element
    found, which may be [None]. *)
Fixpoint find_value_text (prop : ET.Element) (namespaces : dict string)
    (paths : list string) : option string :=
  match paths with
  | [] => None
  | value_path :: rest =>
      match ET.find prop value_path namespaces with
      | Some (Some value_elem) => ET.text value_elem
      | _ => find_value_text prop namespaces rest
      end
  end.

Definition property_pair (namespaces : dict string) (prop : ET.Element)
  : list (string * string) :=
  match find_key_text prop namespaces key_paths,
        find_value_text prop namespaces value_paths with
  | Some key_text, Some value_text => [(key_text, value_text)]
  | _, _ => []
  end.

Definition hierarchical_properties (element : ET.Element)
    (namespaces : dict string) : list (string * string) :=
  flat_map
    (fun path =>
       match ET.findall element path namespaces with
       | Some found => flat_map (property_pair namespaces) found
       | None => []
       end)
    property_paths.

Definition attribute_pair (element : ET.Element) (k : string)
  : list (string * string) :=
  match dict_get (ET.attrib element) k,
        dict_get (ET.attrib element) "value" with
  | Some a, Some v => [(a, v)]
  | _, _ => []
  end.

Definition _extract_properties (element : ET.Element)
    (namespaces : dict string) : list (string * string) :=
  match hierarchical_properties element namespaces with
  | [] => (attribute_pair element "key" ++ attribute_pair element "name")%list
  | props => props
  end.

(** *** check_security_compliance *)

Record security_check := {
  detected_methods : list string;
  is_compliant : bool;
  issues : list string;
  details : list string
}.

Definition add_method (r : security_check) (x : string) : security_check :=
  {| detected_methods := (detected_methods r ++ [x])%list;
     is_compliant := is_compliant r;
     issues := issues r;
     details := details r |}.

Definition add_issue (r : security_check) (x : string) : security_check :=
  {| detected_methods := detected_methods r;
     is_compliant := is_compliant r;
     issues := (issues r ++ [x])%list;
     details := details r |}.

Definition add_detail (r : security_check) (x : string) : security_check :=
  {| detected_methods := detected_methods r;
     is_compliant := is_compliant r;
     issues := issues r;
     details := (details r ++ [x])%list |}.

Definition set_noncompliant (r : security_check) : security_check :=
  {| detected_methods := detected_methods r;
     is_compliant := false;
     issues := issues r;
     details := details r |}.

(** [x.lower() in [basic, basic authentication]] *)
Definition is_basic (x : string) : bool :=
  mem (lower x) ["basic"; "basic authentication"].

Definition key_open := Re.lit "<key>".
Definition key_close_value_open :=
  Re.seq [Re.lit "</key>"; Re.Star Re.Space; Re.lit "<value>"].
Definition mM := Re.Chr (Re.OneOf (Re.chars "mM")).
Definition not_lt := Re.NoneOf (Re.chars "<").
Definition not_gt := Re.NoneOf (Re.chars ">").
Definition not_dq := Re.NoneOf [Re.dquote].
Definition not_rbrace := Re.NoneOf (Re.chars "}").
Definition dq := Re.Chr (Re.OneOf [Re.dquote]).

Definition auth_patterns : list Re.re :=
  [ Re.seq [key_open; Re.lit "authenticationMethod"; key_close_value_open;
            Re.Group (Re.plus not_lt); Re.lit "</value>"];
    Re.seq [key_open; Re.lit "authentication"; mM; Re.lit "ethod";
            key_close_value_open;
            Re.Group (Re.plus not_lt); Re.lit "</value>"];
    Re.seq [key_open; Re.lit "auth"; mM; Re.lit "ethod";
            key_close_value_open;
            Re.Group (Re.plus not_lt); Re.lit "</value>"];
    Re.seq [Re.lit "<property"; Re.Star not_gt; Re.lit ">";
            Re.Star Re.Space;
            key_open; Re.lit "authenticationMethod"; key_close_value_open;
            Re.Group (Re.plus not_lt); Re.lit "</value>"];
    Re.seq [Re.lit "authentication"; mM; Re.lit "ethod="; dq;
            Re.Group (Re.plus not_dq); dq];
    Re.seq [Re.lit "auth"; mM; Re.lit "ethod="; dq;
            Re.Group (Re.plus not_dq); dq] ].

Definition param_auth_patterns : list Re.re :=
  [ Re.seq [key_open; Re.lit "authenticationMethod"; key_close_value_open;
            Re.lit "{{"; Re.Group (Re.plus not_rbrace); Re.lit "}}";
            Re.lit "</value>"];
    Re.seq [key_open; Re.lit "authentication"; mM; Re.lit "ethod";
            key_close_value_open;
            Re.lit "{{"; Re.Group (Re.plus not_rbrace); Re.lit "}}";
            Re.lit "</value>"];
    Re.seq [key_open; Re.lit "auth"; mM; Re.lit "ethod";
            key_close_value_open;
            Re.lit "{{"; Re.Group (Re.plus not_rbrace); Re.lit "}}";
            Re.lit "</value>"];
    Re.seq [Re.lit "authentication"; mM; Re.lit "ethod="; dq;
            Re.lit "{{"; Re.Group (Re.plus not_rbrace); Re.lit "}}"; dq];
    Re.seq [Re.lit "auth"; mM; Re.lit "ethod="; dq;
            Re.lit "{{"; Re.Group (Re.plus not_rbrace); Re.lit "}}"; dq] ].

(** One detected direct method (the body of [for method in
    auth_method_matches]). *)
Definition direct_method (r : security_check) (method0 : string)
  : security_check :=
  let method := strip method0 in
  if truthy method then
    let r1 := if mem method (detected_methods r) then r
              else add_method r method in
    if is_basic method then
      add_issue (set_noncompliant r1)
        ("Direct Basic Authentication detected: '" ++ method ++ "'")
    else r1
  else r.

Definition direct_stage (content : string) (r : security_check)
  : security_check :=
  fold_left
    (fun r pattern => fold_left direct_method (Re.findall pattern content) r)
    auth_patterns r.

(** The test of the resolution loop on one property key. *)
Definition key_matches (prop_key param_name : string) : bool :=
  String.eqb prop_key param_name
  || endswith prop_key ("_" ++ param_name)
  || String.eqb (lower prop_key) (lower param_name).

(** [for prop_key, prop_value in properties.items(): if ...: resolved_value
    = prop_value; break]; the loop is written out twice in the source, with
    the same statements. *)
Fixpoint resolve_parameter (properties : dict string) (param_name : string)
  : option string :=
  match properties with
  | [] => None
  | (prop_key, prop_value) :: rest =>
      if key_matches prop_key param_name then Some prop_value
      else resolve_parameter rest param_name
  end.

(** [if resolved_value:] is false for [None] and for the empty string. *)
Definition resolved_truthy (v : option string) : option string :=
  match v with
  | Some x => if truthy x then Some x else None
  | None => None
  end.

Definition param_method (properties : dict string) (r : security_check)
    (param_name0 : string) : security_check :=
  let param_name := strip param_name0 in
  let r0 := add_detail r
              ("Found parameterized authentication: {" ++ param_name ++ "}") in
  match resolved_truthy (resolve_parameter properties param_name) with
  | Some resolved_value =>
      let r1 := if mem resolved_value (detected_methods r0) then r0
                else add_method r0
                       (resolved_value ++ " (from " ++ param_name ++ ")") in
      if is_basic resolved_value then
        add_issue (set_noncompliant r1)
          ("Basic Authentication detected via parameter: '" ++ param_name
           ++ "' = '" ++ resolved_value ++ "'")
      else r1
  | None =>
      add_detail r0 ("Could not resolve parameter: '" ++ param_name ++ "'")
  end.

Definition param_stage (content : string) (properties : dict string)
    (r : security_check) : security_check :=
  fold_left
    (fun r pattern =>
       fold_left (param_method properties) (Re.findall pattern content) r)
    param_auth_patterns r.

Definition message_flow_patterns : list string :=
  [".//bpmn2:messageFlow"; ".//bpmn:messageFlow"; ".//messageFlow";
   ".//*[local-name()=" ++ String Re.dquote "messageFlow"
     ++ String Re.dquote "]"].

(** The body of [for key, value in props] in the message-flow walk. *)
Definition flow_property (properties : dict string) (r : security_check)
    (kv : string * string) : security_check :=
  let '(key, value) := kv in
  if String.eqb key "authenticationMethod" then
    if negb (startswith value "{{" && endswith value "}}") then
      let r1 := if mem value (detected_methods r) then r
                else add_method r value in
      if is_basic value then
        add_issue (set_noncompliant r1)
          ("Direct Basic Authentication detected in message flow: '"
           ++ value ++ "'")
      else r1
    else
      let param_name :=
        strip (substring 2 (String.length value - 4) value) in
      let r0 := add_detail r
                  ("Found parameterized authentication in message flow: "
                   ++ value) in
      match resolved_truthy (resolve_parameter properties param_name) with
      | Some resolved_value =>
          let r1 := if mem resolved_value (detected_methods r0) then r0
                    else add_method r0
                           (resolved_value ++ " (from " ++ param_name ++ ")")
          in
          if is_basic resolved_value then
            add_issue (set_noncompliant r1)
              ("Basic Authentication detected via parameter in message flow: '"
               ++ param_name ++ "' = '" ++ resolved_value ++ "'")
          else r1
      | None =>
          add_detail r0
            ("Could not resolve parameter in message flow: '"
             ++ param_name ++ "'")
      end
  else r.

Definition flow_check (properties namespaces : dict string) (r : security_check)
    (flow : ET.Element) : security_check :=
  fold_left (flow_property properties) (_extract_properties flow namespaces) r.

(** [for pattern in message_flow_patterns] under one namespace
    dictionary: the state and [message_flows_found]. *)
Fixpoint flow_patterns_loop (root : ET.Element)
    (properties namespaces : dict string) (patterns : list string)
    (r : security_check) (found : bool) : security_check * bool :=
  match patterns with
  | [] => (r, found)
  | pattern :: rest =>
      match ET.findall root pattern namespaces with
      | Some (flow :: flows) =>
          flow_patterns_loop root properties namespaces rest
            (fold_left (flow_check properties namespaces) (flow :: flows) r)
            true
      | _ => flow_patterns_loop root properties namespaces rest r found
      end
  end.

(** [for namespaces in namespace_sets: ... if message_flows_found: break] *)
Fixpoint flow_namespaces_loop (root : ET.Element) (properties : dict string)
    (sets : list (dict string)) (r : security_check) : security_check :=
  match sets with
  | [] => r
  | namespaces :: rest =>
      let '(r1, found) :=
        flow_patterns_loop root properties namespaces
          message_flow_patterns r false in
      if found then r1 else flow_namespaces_loop root properties rest r1
  end.

Definition basic_auth_patterns : list Re.re :=
  [ Re.lit "basicAuthentication";
    Re.lit "Basic Authentication";
    Re.lit "BasicAuth";
    Re.lit "basic_auth";
    Re.seq [dq; Re.lit "authentication"; dq; Re.Star Re.Space; Re.lit ":";
            Re.Star Re.Space; dq; Re.lit "basic"; dq];
    Re.seq [dq; Re.lit "auth_type"; dq; Re.Star Re.Space; Re.lit ":";
            Re.Star Re.Space; dq; Re.lit "basic"; dq] ].

Definition oauth_patterns : list Re.re :=
  map Re.lit ["oauth"; "OAuth"; "Authorization Code"; "Client Credentials";
              "Bearer"; "JWT"].

Definition cert_patterns : list Re.re :=
  map Re.lit ["certificate"; "Certificate"; "x509"; "X509"; "client cert";
              "mutual auth"].

(** [for pattern in ...: if re.search(pattern, content, re.IGNORECASE): ...;
    break] *)
Definition any_search_i (patterns : list Re.re) (content : string) : bool :=
  existsb (fun pattern => Re.search_i pattern content) patterns.

Definition fallback_stage (content : string) (r : security_check)
  : security_check :=
  match detected_methods r with
  | [] =>
      let r1 :=
        if any_search_i basic_auth_patterns content then
          add_issue
            (set_noncompliant
               (add_method r "Basic Authentication (pattern match)"))
            "Basic Authentication detected via string pattern"
        else r in
      let r2 :=
        if any_search_i oauth_patterns content
        then add_method r1 "OAuth (pattern match)" else r1 in
      if any_search_i cert_patterns content
      then add_method r2 "Certificate (pattern match)" else r2
  | _ => r
  end.

(** The body of [for key, value in properties.items()] of the property
    cross-reference. *)
Definition property_method (r : security_check) (kv : string * string)
  : security_check :=
  let '(key, value) := kv in
  let r1 :=
    if contains "authenticationMethod" (lower key)
       && contains "certificate" (lower value)
    then add_method r "Certificate (from property)" else r in
  if (contains "authenticationMethod" (lower key)
      || contains "auth_type" (lower key))
     && contains "oauth" (lower value)
  then add_method r1 "OAuth (from property)" else r1.

Definition deduplicate (r : security_check) : security_check :=
  {| detected_methods := list_set (detected_methods r);
     is_compliant := is_compliant r;
     issues := list_set (issues r);
     details := list_set (details r) |}.

(** [(http[s]?://|endpoint|url|uri)] *)
Definition external_call_pattern : Re.re :=
  Re.Group
    (Re.Alt (Re.seq [Re.lit "http"; Re.opt (Re.Chr (Re.OneOf (Re.chars "s")));
                     Re.lit "://"])
       (Re.Alt (Re.lit "endpoint") (Re.Alt (Re.lit "url") (Re.lit "uri")))).

Definition final_policy (content : string) (r : security_check)
  : security_check :=
  match detected_methods r with
  | [] =>
      if Re.search_i external_call_pattern content then
        set_noncompliant
          (add_issue
             (add_detail r
                "External API calls detected but no authentication method identified")
             "Possible missing authentication for external services")
      else r
  | _ => r
  end.

Definition initial_security : security_check :=
  {| detected_methods := []; is_compliant := true;
     issues := []; details := [] |}.

Section WithParser.

(** [ET.fromstring] *)
Variable fromstring : string -> ET.parse_outcome.

(** The stages after the message-flow walk: fallback patterns and the
    property cross-reference. *)
Definition after_walk (content : string) (properties : dict string)
    (r : security_check) : security_check :=
  fold_left property_method properties (fallback_stage content r).

(** The detection stages, from the two regular-expression scans to the
    property cross-reference.  [inl] is an exception on its way to the
    outer [except Exception], with the state reached when it was raised. *)
Definition detection_stages (content : string) (properties : dict string)
  : (security_check * string) + security_check :=
  let r1 := direct_stage content initial_security in
  let r2 := param_stage content properties r1 in
  match fromstring content with
  | ET.Parsed root =>
      inr (after_walk content properties
             (flow_namespaces_loop root properties security_namespace_sets r2))
  | ET.ParseError msg =>
      inr (after_walk content properties
             (add_detail r2
                ("XML parsing error during security check: " ++ msg)))
  | ET.OtherError msg => inl (r2, msg)
  end.

Definition check_security_compliance (content : string)
    (properties : dict string) : security_check :=
  match detection_stages content properties with
  | inr r => final_policy content (deduplicate r)
  | inl (r, msg) =>
      add_detail r ("Error during security compliance check: " ++ msg)
  end.

End WithParser.

(** *** The result dictionary *)

(** An entry of [senders] or [receivers]: [{'name', 'properties'}] from
    the structural extraction, [{'type', 'adapter'}] from the regular
    expressions. *)
Inductive party :=
| Participant (name : string) (properties : list (string * string))
| Connection (type adapter : string).

(** An entry of [error_handling]: [{'subprocess'?, 'details'}]. *)
Record error_entry := {
  entry_subprocess : option string;
  entry_details : string
}.

(** The keys of [result] that the properties below read.  The keys
    [file_path], [iflow_id], [iflow_name], [purpose], [key_steps],
    [adapters_used], [mapping_entities], [parameters],
    [connection_details], [project_files], [folder_structure],
    [meta_info], [manifest] and [project_name] are left out, together with
    the statements that write nothing else: the name taken from the file
    name in [get_iflow_content], the name match of [_extract_with_regex]
    and its adapter and mapping matches, [_extract_key_steps],
    [_extract_adapters], [_extract_mappings], [_extract_parameters],
    [_extract_connection_details], the purpose lookup,
    [_process_project_file], [_process_metainfo_file],
    [_process_manifest_file] and [_display_result_summary].  Each of them
    catches its own exceptions, so none of them changes the control flow
    of its caller. *)
Record Result := {
  workflow : list (string * list string);
  senders : list party;
  receivers : list party;
  error_handling : list error_entry;
  has_proper_error_handling : bool;
  security : list string;
  security_compliant : bool;
  security_issues : list string;
  security_details : list string;
  processing_errors : list string;
  error : option string;
  processing_error : option string
}.

(** [_initialize_result_structure] *)
Definition _initialize_result_structure : Result :=
  {| workflow := []; senders := []; receivers := [];
     error_handling := []; has_proper_error_handling := false;
     security := []; security_compliant := false;
     security_issues := []; security_details := [];
     processing_errors := []; error := None; processing_error := None |}.

Definition set_workflow (r : Result) (x : list (string * list string)) :=
  {| workflow := x; senders := senders r; receivers := receivers r;
     error_handling := error_handling r;
     has_proper_error_handling := has_proper_error_handling r;
     security := security r; security_compliant := security_compliant r;
     security_issues := security_issues r;
     security_details := security_details r;
     processing_errors := processing_errors r; error := error r;
     processing_error := processing_error r |}.

Definition add_sender (r : Result) (x : party) :=
  {| workflow := workflow r; senders := (senders r ++ [x])%list;
     receivers := receivers r;
     error_handling := error_handling r;
     has_proper_error_handling := has_proper_error_handling r;
     security := security r; security_compliant := security_compliant r;
     security_issues := security_issues r;
     security_details := security_details r;
     processing_errors := processing_errors r; error := error r;
     processing_error := processing_error r |}.

Definition add_receiver (r : Result) (x : party) :=
  {| workflow := workflow r; senders := senders r;
     receivers := (receivers r ++ [x])%list;
     error_handling := error_handling r;
     has_proper_error_handling := has_proper_error_handling r;
     security := security r; security_compliant := security_compliant r;
     security_issues := security_issues r;
     security_details := security_details r;
     processing_errors := processing_errors r; error := error r;
     processing_error := processing_error r |}.

Definition add_error_handling (r : Result) (x : error_entry) :=
  {| workflow := workflow r; senders := senders r; receivers := receivers r;
     error_handling := (error_handling r ++ [x])%list;
     has_proper_error_handling := has_proper_error_handling r;
     security := security r; security_compliant := security_compliant r;
     security_issues := security_issues r;
     security_details := security_details r;
     processing_errors := processing_errors r; error := error r;
     processing_error := processing_error r |}.

Definition set_has_proper_error_handling (r : Result) (x : bool) :=
  {| workflow := workflow r; senders := senders r; receivers := receivers r;
     error_handling := error_handling r;
     has_proper_error_handling := x;
     security := security r; security_compliant := security_compliant r;
     security_issues := security_issues r;
     security_details := security_details r;
     processing_errors := processing_errors r; error := error r;
     processing_error := processing_error r |}.

Definition set_security (r : Result) (s : security_check) :=
  {| workflow := workflow r; senders := senders r; receivers := receivers r;
     error_handling := error_handling r;
     has_proper_error_handling := has_proper_error_handling r;
     security := detected_methods s; security_compliant := is_compliant s;
     security_issues := issues s;
     security_details := details s;
     processing_errors := processing_errors r; error := error r;
     processing_error := processing_error r |}.

Definition add_processing_error (r : Result) (x : string) :=
  {| workflow := workflow r; senders := senders r; receivers := receivers r;
     error_handling := error_handling r;
     has_proper_error_handling := has_proper_error_handling r;
     security := security r; security_compliant := security_compliant r;
     security_issues := security_issues r;
     security_details := security_details r;
     processing_errors := (processing_errors r ++ [x])%list;
     error := error r;
     processing_error := processing_error r |}.

Definition set_error (r : Result) (x : string) :=
  {| workflow := workflow r; senders := senders r; receivers := receivers r;
     error_handling := error_handling r;
     has_proper_error_handling := has_proper_error_handling r;
     security := security r; security_compliant := security_compliant r;
     security_issues := security_issues r;
     security_details := security_details r;
     processing_errors := processing_errors r; error := Some x;
     processing_error := processing_error r |}.

Definition set_processing_error (r : Result) (x : string) :=
  {| workflow := workflow r; senders := senders r; receivers := receivers r;
     error_handling := error_handling r;
     has_proper_error_handling := has_proper_error_handling r;
     security := security r; security_compliant := security_compliant r;
     security_issues := security_issues r;
     security_details := security_details r;
     processing_errors := processing_errors r; error := error r;
     processing_error := Some x |}.

(** *** Structural extraction *)

(** [root.findall(path, namespaces)] inside [try: ... except Exception:
    continue]. *)
Definition findall_or_nothing (e : ET.Element) (path : string)
    (namespaces : dict string) : list ET.Element :=
  match ET.findall e path namespaces with
  | Some l => l
  | None => []
  end.

Definition last_of (l : list string) : string := last l EmptyString.

Definition flow_element_patterns : list string :=
  ["bpmn2:startEvent"; "bpmn2:serviceTask"; "bpmn2:callActivity";
   "bpmn2:endEvent"; "bpmn2:subProcess";
   "bpmn:startEvent"; "bpmn:serviceTask"; "bpmn:callActivity";
   "bpmn:endEvent"; "bpmn:subProcess";
   "startEvent"; "serviceTask"; "callActivity"; "endEvent"; "subProcess"].

(** The [steps] of one process. *)
Definition process_steps (process : ET.Element) (namespaces : dict string)
  : list string :=
  flat_map
    (fun tag =>
       map (fun element => ET.get element "name" (last_of (split ":" tag)))
           (findall_or_nothing process (".//" ++ tag) namespaces))
    flow_element_patterns.

(** [for process in processes: ... if steps: append; break] *)
Fixpoint first_process_with_steps (processes : list ET.Element)
    (namespaces : dict string) : option (string * list string) :=
  match processes with
  | [] => None
  | process :: rest =>
      match process_steps process namespaces with
      | [] => first_process_with_steps rest namespaces
      | steps => Some (ET.get process "name" "Unnamed Process", steps)
      end
  end.

Fixpoint workflow_loop (root : ET.Element) (namespaces : dict string)
    (process_tags : list string) (result : Result) : Result :=
  match process_tags with
  | [] => result
  | tag :: rest =>
      match findall_or_nothing root tag namespaces with
      | [] => workflow_loop root namespaces rest result
      | processes =>
          let result1 :=
            match first_process_with_steps processes namespaces with
            | Some entry =>
                set_workflow result (workflow result ++ [entry])%list
            | None => result
            end in
          match workflow result1 with
          | [] => workflow_loop root namespaces rest result1
          | _ => result1
          end
      end
  end.

Definition _extract_workflow (root : ET.Element) (namespaces : dict string)
    (result : Result) : Result :=
  workflow_loop root namespaces ["bpmn2:process"; "bpmn:process"; "process"]
    result.

Definition local_name_path (ax name : string) : string :=
  ax ++ "*[local-name()=" ++ String Re.dquote name ++ String Re.dquote "]".

Definition participant_patterns : list string :=
  [".//bpmn2:participant"; ".//bpmn:participant"; ".//participant";
   local_name_path ".//" "participant"].

(** [for attr in ['ifl:type', 'type']: if attr in participant.attrib] *)
Definition participant_type_attribute (participant : ET.Element)
  : option string :=
  match dict_get (ET.attrib participant) "ifl:type" with
  | Some t => Some t
  | None => dict_get (ET.attrib participant) "type"
  end.

(** [for key, value in props: if key.lower() in keys: ...; break] *)
Fixpoint first_property (keys : list string) (props : list (string * string))
  : option string :=
  match props with
  | [] => None
  | (key, value) :: rest =>
      if mem (lower key) keys then Some value else first_property keys rest
  end.

Definition any_in (needles : list string) (hay : string) : bool :=
  existsb (fun s => contains s hay) needles.

(** The body of [for participant in root.findall(pattern, namespaces)]. *)
Definition classify_participant (namespaces : dict string) (result : Result)
    (participant : ET.Element) : Result :=
  let name := ET.get participant "name" "Unnamed" in
  let props := _extract_properties participant namespaces in
  let participant_type :=
    match participant_type_attribute participant with
    | Some t => Some t
    | None => first_property ["type"; "participanttype"; "role"] props
    end in
  match resolved_truthy participant_type with
  | Some t =>
      if contains "sender" (lower t)
      then add_sender result (Participant name props)
      else if contains "receiver" (lower t) || contains "recevier" (lower t)
      then add_receiver result (Participant name props)
      else result
  | None =>
      if existsb (fun kv => String.eqb (fst kv) "address") props
         || existsb (fun kv => contains "url" (lower (fst kv))) props
      then
        if any_in ["sender"; "source"; "from"] (lower name)
        then add_sender result (Participant name props)
        else if any_in ["receiver"; "target"; "to"; "destination"] (lower name)
        then add_receiver result (Participant name props)
        else result
      else result
  end.

Definition _extract_participants (root : ET.Element)
    (namespaces : dict string) (result : Result) : Result :=
  fold_left
    (fun result pattern =>
       fold_left (classify_participant namespaces)
         (findall_or_nothing root pattern namespaces) result)
    participant_patterns result.

Definition subprocess_patterns : list string :=
  [".//bpmn2:subProcess"; ".//bpmn:subProcess"; ".//subProcess";
   local_name_path ".//" "subProcess"].

Definition error_event_patterns : list string :=
  [".//bpmn2:errorEventDefinition"; ".//bpmn:errorEventDefinition";
   ".//errorEventDefinition";
   local_name_path ".//" "errorEventDefinition"].

Definition error_handler_patterns : list string :=
  [".//errorHandler"; local_name_path ".//" "errorHandler";
   ".//deadLetterQueue"; local_name_path ".//" "deadLetterQueue"].

(** [has_error_event] of one subprocess. *)
Definition has_error_event (subprocess : ET.Element)
    (namespaces : dict string) : bool :=
  existsb
    (fun error_pattern =>
       match ET.find subprocess error_pattern namespaces with
       | Some (Some _) => true
       | _ => false
       end)
    error_event_patterns.

(** [for key, value in props: if key.lower() == 'activitytype' and 'error'
    in value.lower(): ...; break] *)
Fixpoint error_activity_type (props : list (string * string))
  : option string :=
  match props with
  | [] => None
  | (key, value) :: rest =>
      if String.eqb (lower key) "activitytype" && contains "error" (lower value)
      then Some value
      else error_activity_type rest
  end.

(** The body of [for subprocess in root.findall(subprocess_pattern,
    namespaces)]; the state is [result] and the local [has_error_handling]. *)
Definition check_subprocess (namespaces : dict string)
    (st : Result * bool) (subprocess : ET.Element) : Result * bool :=
  let st1 :=
    if has_error_event subprocess namespaces then
      (add_error_handling (fst st)
         {| entry_subprocess := Some (ET.get subprocess "name" "Unnamed Subprocess");
            entry_details := "Handles errors with error start and end events" |},
       true)
    else st in
  match error_activity_type (_extract_properties subprocess namespaces) with
  | Some value =>
      (add_error_handling (fst st1)
         {| entry_subprocess := Some (ET.get subprocess "name" "Unnamed Subprocess");
            entry_details := "Error handling subprocess: " ++ value |},
       true)
  | None => st1
  end.

(** The body of [for handler in root.findall(pattern, namespaces)]. *)
Definition check_handler (pattern : string) (st : Result * bool)
    (handler : ET.Element) : Result * bool :=
  let handler_type := last_of (split "/" (last_of (split ":" pattern))) in
  (add_error_handling (fst st)
     {| entry_subprocess := None; entry_details := handler_type ++ " configured" |},
   true).

Definition error_handling_summary (result : Result)
    (has_error_handling : bool) : Result :=
  let result1 := set_has_proper_error_handling result has_error_handling in
  match error_handling result1 with
  | [] =>
      if has_error_handling then
        add_error_handling result1
          {| entry_subprocess := None;
             entry_details :=
               "Error handling properly configured with error subprocesses" |}
      else
        add_error_handling result1
          {| entry_subprocess := None;
             entry_details := "No error handling detected" |}
  | _ =>
      if has_error_handling then result1
      else
        add_error_handling result1
          {| entry_subprocess := None;
             entry_details :=
               "Basic error handling elements found but no proper error subprocesses" |}
  end.

Definition _extract_error_handling (root : ET.Element)
    (namespaces : dict string) (result : Result) : Result :=
  let st1 :=
    fold_left
      (fun st subprocess_pattern =>
         fold_left (check_subprocess namespaces)
           (findall_or_nothing root subprocess_pattern namespaces) st)
      subprocess_patterns (result, false) in
  let st2 :=
    fold_left
      (fun st pattern =>
         fold_left (check_handler pattern)
           (findall_or_nothing root pattern namespaces) st)
      error_handler_patterns st1 in
  error_handling_summary (fst st2) (snd st2).

(** *** _extract_with_regex *)

(** The pattern of [connection_matches]: a [<], then [sender] or
    [receiver] (group 1), a lazy run of any characters, [type=] and a
    quoted non-empty value (group 2); compiled with [re.DOTALL]. *)
Definition connection_pattern : Re.re :=
  Re.seq [Re.lit "<"; Re.Group (Re.Alt (Re.lit "sender") (Re.lit "receiver"));
          Re.LazyStar Re.Any; Re.lit "type="; dq;
          Re.Group (Re.plus not_dq); dq].

(** [<[^>]*subProcess[^>]*>.*?<[^>]*errorEvent] with [re.DOTALL] *)
Definition error_subprocess_pattern : Re.re :=
  Re.seq [Re.lit "<"; Re.Star not_gt; Re.lit "subProcess"; Re.Star not_gt;
          Re.lit ">"; Re.LazyStar Re.Any; Re.lit "<"; Re.Star not_gt;
          Re.lit "errorEvent"].

Definition add_connection (result : Result) (m : string * string) : Result :=
  let '(conn_type, adapter_type) := m in
  if String.eqb (lower conn_type) "sender"
  then add_sender result (Connection conn_type adapter_type)
  else add_receiver result (Connection conn_type adapter_type).

Definition _extract_with_regex (content : string) (result : Result)
  : Result :=
  let result1 :=
    fold_left add_connection (Re.findall2 connection_pattern content) result in
  let result2 :=
    if contains "<error-handling" content then
      add_error_handling result1
        {| entry_subprocess := None;
           entry_details := "Basic error handling configured" |}
    else result1 in
  let result3 :=
    if contains "<dead-letter-queue" content then
      add_error_handling result2
        {| entry_subprocess := None;
           entry_details := "Dead letter queue configured" |}
    else result2 in
  if Re.search error_subprocess_pattern content then
    set_has_proper_error_handling
      (add_error_handling result3
         {| entry_subprocess := None;
            entry_details := "Error handling subprocess detected" |})
      true
  else result3.

(** *** Attribute lookup on the connection object *)

(** The names that the body of [class SAPConnection] binds, and the
    instance attributes that [__init__] sets. *)
Definition class_attributes : list string :=
  ["__init__"; "ensure_dir"; "get_token"; "set_query";
   "search_integration_packages"; "get_package_details";
   "extract_all_iflows_from_package"; "get_iflow_content";
   "_initialize_result_structure"; "_process_zip_file"; "_process_xml_file";
   "_process_unknown_file"; "_extract_with_regex"; "_process_project_file";
   "_process_metainfo_file"; "_process_manifest_file";
   "_find_iflow_definition_files"; "_process_iflow_definition";
   "_extract_properties"; "_extract_workflow"; "_extract_key_steps";
   "_extract_adapters"; "_extract_participants"; "_extract_mappings";
   "_extract_parameters"; "_extract_error_handling";
   "_extract_connection_details"; "_display_result_summary"; "extract_iflow";
   "check_security_compliance"; "get_iflow_details";
   "integrate_security_check"; "debug_package_id";
   "base_url"; "auth_url"; "client_id"; "client_secret"; "token";
   "default_storage_path"; "local_storage_path"; "current_query";
   "current_package_id"; "current_iflow_id"; "current_iflow_name";
   "current_iflow_path"].

(** The [AttributeError] of [self.<name>] for a name that is not bound. *)
Definition attribute_error (name : string) : option string :=
  if mem name class_attributes then None
  else Some ("'SAPConnection' object has no attribute '" ++ name ++ "'").

(** [self.extract_properties(text)]: the attribute lookup is evaluated
    before the call; [inl] is the exception raised.  The second branch is
    for a bound name and is not taken. *)
Definition self_extract_properties (text : string) : string + dict string :=
  match attribute_error "extract_properties" with
  | Some msg => inl msg
  | None => inr []
  end.

(** *** The pipeline over the file tree *)

(** What a call can observe and change outside its arguments: the file
    tree, the value that [uuid.uuid4()] returns, and whether
    [shutil.rmtree] raises (a permission or sharing violation; the tree is
    then taken to be left as it was). *)
Record World := {
  fs : OS.node;
  unique_id : string;
  rmtree_raises : bool
}.

Definition with_fs (w : World) (t : OS.node) : World :=
  {| fs := t; unique_id := unique_id w; rmtree_raises := rmtree_raises w |}.

(** The text of the exception that [open] raises on a path. *)
Definition open_error (t : OS.node) (p : string) : string :=
  match OS.lookup t (OS.components p) with
  | Some (OS.Dir _) => "[Errno 21] Is a directory: '" ++ p ++ "'"
  | _ => "[Errno 2] No such file or directory: '" ++ p ++ "'"
  end.

Section WithLibraries.

(** [ET.fromstring] *)
Variable fromstring : string -> ET.parse_outcome.

(** The members that [zipfile.ZipFile] finds in the bytes of a file;
    [None] when it raises [BadZipFile]. *)
Variable zip_decode : string -> option Zip.archive.

(** [zipfile.ZipFile(path, 'r')]: [inl] is the exception raised. *)
Definition ZipFile (t : OS.node) (path : string) : string + Zip.archive :=
  match OS.read t path with
  | None => inl (open_error t path)
  | Some bytes =>
      match zip_decode bytes with
      | Some a => inr a
      | None => inl "File is not a zip file"
      end
  end.

(** The body of [for prop_file in property_files] in
    [integrate_security_check]. *)
Definition read_property_file (a : Zip.archive) (properties : dict string)
    (prop_file : string) : dict string :=
  match Zip.read a prop_file with
  | None => properties
  | Some prop_content =>
      match self_extract_properties prop_content with
      | inr file_properties => dict_update properties file_properties
      | inl _ => properties
      end
  end.

(** [properties] after the [if iflow_path.endswith('.zip') and
    os.path.exists(iflow_path)] block. *)
Definition zip_properties (t : OS.node) (iflow_path : string)
  : dict string :=
  if endswith iflow_path ".zip" && OS.exists_ t iflow_path then
    match ZipFile t iflow_path with
    | inl _ => []
    | inr a =>
        fold_left (read_property_file a)
          (filter
             (fun f =>
                endswith f ".prop"
                && (contains "parameter" (lower f)
                    || contains "propert" (lower f)))
             (Zip.namelist a))
          []
    end
  else [].

(** [properties] after the [if not properties] block. *)
Definition directory_properties (t : OS.node) (iflow_path : string)
    (properties : dict string) : dict string :=
  match properties with
  | [] =>
      let params_path := OS.join (OS.dirname iflow_path) "parameters.prop" in
      if OS.exists_ t params_path then
        match OS.read t params_path with
        | None => properties
        | Some param_content =>
            match self_extract_properties param_content with
            | inr param_properties => dict_update properties param_properties
            | inl _ => properties
            end
        end
      else properties
  | _ => properties
  end.

(** The dictionary handed to [check_security_compliance]. *)
Definition collected_properties (t : OS.node) (iflow_path : string)
  : dict string :=
  directory_properties t iflow_path (zip_properties t iflow_path).

Definition integrate_security_check (t : OS.node) (content : string)
    (iflow_path : string) (result : Result) : Result :=
  set_security result
    (check_security_compliance fromstring content
       (collected_properties t iflow_path)).

(** The extraction calls made under one namespace dictionary. *)
Definition extract_structure (root : ET.Element) (namespaces : dict string)
    (result : Result) : Result :=
  _extract_error_handling root namespaces
    (_extract_participants root namespaces
       (_extract_workflow root namespaces result)).

(** The state of [for namespaces in namespace_sets]: the result, the
    dictionaries tried so far, and [success]. *)
Record loop_state := {
  loop_result : Result;
  tried : list (dict string);
  success : bool
}.

(** [for namespaces in namespace_sets: try: root = ET.fromstring(content)
    ... success = True; break; except ET.ParseError: continue; except
    Exception: continue].  The loop is written out twice, in
    [_process_xml_file] and in [_process_iflow_definition]. *)
Fixpoint namespace_loop (t : OS.node) (content path : string)
    (sets : list (dict string)) (st : loop_state) : loop_state :=
  match sets with
  | [] => st
  | namespaces :: rest =>
      match fromstring content with
      | ET.Parsed root =>
          {| loop_result :=
               integrate_security_check t content path
                 (extract_structure root namespaces (loop_result st));
             tried := (tried st ++ [namespaces])%list;
             success := true |}
      | _ =>
          namespace_loop t content path rest
            {| loop_result := loop_result st;
               tried := (tried st ++ [namespaces])%list;
               success := false |}
      end
  end.

(** The statements after reading the file, shared by [_process_xml_file]
    and [_process_iflow_definition], with the dictionaries tried. *)
Definition process_content (t : OS.node) (content path : string)
    (result : Result) : loop_state :=
  let st :=
    namespace_loop t content path namespace_sets
      {| loop_result := result; tried := []; success := false |} in
  if success st then st
  else
    {| loop_result :=
         integrate_security_check t content path
           (_extract_with_regex content (loop_result st));
       tried := tried st;
       success := false |}.

Definition _process_iflow_definition (t : OS.node) (iflow_file : string)
    (unzip_dir : string) (result : Result) : Result :=
  match OS.read t iflow_file with
  | Some content => loop_result (process_content t content iflow_file result)
  | None =>
      add_processing_error result
        ("Error processing file " ++ iflow_file ++ ": "
         ++ open_error t iflow_file)
  end.

Definition _process_xml_file (t : OS.node) (file_path : string)
    (result : Result) : Result :=
  match OS.read t file_path with
  | Some content => loop_result (process_content t content file_path result)
  | None =>
      add_processing_error result
        ("Error processing XML file " ++ file_path ++ ": "
         ++ open_error t file_path)
  end.

(** [f.read(n)] on a freshly opened file.  The data of a file stands for
    its bytes and for its decoded text alike, so that a file opened in
    binary mode is sampled by characters; the two differ for a file that
    is not plain ASCII. *)
Definition sample (t : OS.node) (p : string) (n : nat) : option string :=
  option_map (substring 0 n) (OS.read t p).

Definition max_files_to_scan : nat := 50.

(** One pass of [_find_iflow_definition_files] over the walk: [select]
    says whether a file is counted and whether it is appended.  Once
    [files_scanned] reaches the budget, both loops are left. *)
Fixpoint scan (select : string -> string -> bool * bool)
    (files : list (string * string)) (files_scanned : nat)
  : list string :=
  match files with
  | [] => []
  | (root, file) :: rest =>
      if (max_files_to_scan <=? files_scanned)%nat then []
      else
        let '(counted, taken) := select root file in
        let tail :=
          scan select rest (if counted then S files_scanned else files_scanned)
        in
        if taken then OS.join root file :: tail else tail
  end.

Definition first_pass (t : OS.node) (root file : string) : bool * bool :=
  if endswith file ".iflw" then (true, true)
  else if endswith file ".xml" then
    match sample t (OS.join root file) 1000 with
    | Some s =>
        (true,
         contains "<IntegrationFlow" s || contains "<ifl:" s
         || contains "<bpmn2:" s || contains "<bpmn:" s)
    | None => (true, false)
    end
  else (false, false).

Definition second_pass (root file : string) : bool * bool :=
  if endswith file ".xml" then (true, true) else (false, false).

Definition third_pass (t : OS.node) (root file : string) : bool * bool :=
  if negb (endswith file ".class") && negb (endswith file ".jar") then
    match sample t (OS.join root file) 100 with
    | Some s =>
        if contains "<" s && contains ">" s then (true, true)
        else (false, false)
    | None => (false, false)
    end
  else (false, false).

Definition _find_iflow_definition_files (t : OS.node) (unzip_dir : string)
  : list string :=
  let files := OS.walk t unzip_dir in
  match scan (first_pass t) files 0 with
  | [] =>
      match scan second_pass files 0 with
      | [] => scan (third_pass t) files 0
      | iflow_files => iflow_files
      end
  | iflow_files => iflow_files
  end.

Definition known_patterns : list string :=
  [".xml"; ".iflw"; ".project"; "metainfo.prop"; "MANIFEST.MF"; ".prop";
   "parameters.prop"; "IntegrationFlow"; "META-INF"].

(** The body of [for file in files_to_extract]. *)
Definition extract_file (a : Zip.archive) (unzip_dir : string)
    (st : OS.node * Result) (file : string) : OS.node * Result :=
  let '(t, result) := st in
  match Zip.extract a file unzip_dir t with
  | (t', true) => (t', result)
  | (t', false) =>
      (t', add_processing_error result
             ("Error extracting " ++ file ++ ": member cannot be extracted"))
  end.

(** The [try] block of [_process_zip_file]: [inl] is an exception on its
    way to [except Exception as extract_error].  The calls of
    [_process_project_file], [_process_metainfo_file] and
    [_process_manifest_file] between the extraction and the search are
    left out: they read the extracted files, write keys that the result
    below does not carry, and append to [processing_errors] only when one
    of the three names cannot be opened. *)
Definition unzip_and_process (t : OS.node) (file_path unzip_dir : string)
    (result : Result) : OS.node * (string + Result) :=
  match OS.makedirs t unzip_dir with
  | None => (t, inl ("[Errno 17] File exists: '" ++ unzip_dir ++ "'"))
  | Some t1 =>
      match ZipFile t1 file_path with
      | inl msg => (t1, inl msg)
      | inr a =>
          let files_to_extract :=
            filter (fun file => any_in known_patterns file)
                   (Zip.namelist a) in
          let '(t2, result1) :=
            fold_left (extract_file a unzip_dir) files_to_extract
                      (t1, result) in
          (t2,
           inr (fold_left
                  (fun result iflow_file =>
                     _process_iflow_definition t2 iflow_file unzip_dir result)
                  (_find_iflow_definition_files t2 unzip_dir) result1))
      end
  end.

(** [shutil.rmtree(path)]: [None] when it raises. *)
Definition rmtree (w : World) (path : string) : option OS.node :=
  if rmtree_raises w then None
  else OS.remove_dir (fs w) (OS.components path).

(** The [finally] block of [_process_zip_file]. *)
Definition cleanup (w : World) (unzip_dir : string) : World :=
  if OS.exists_ (fs w) unzip_dir then
    match rmtree w unzip_dir with
    | Some t => with_fs w t
    | None => w
    end
  else w.

(** The extraction directory of a call. *)
Definition scratch_directory (w : World) (file_path : string) : string :=
  OS.join (OS.dirname file_path) ("extracted_" ++ unique_id w).

Definition _process_zip_file (w : World) (file_path : string)
    (result : Result) : World * Result :=
  let unzip_dir := scratch_directory w file_path in
  let '(t, outcome) := unzip_and_process (fs w) file_path unzip_dir result in
  let result1 :=
    match outcome with
    | inr r => r
    | inl msg => set_error result ("Extraction error: " ++ msg)
    end in
  (cleanup (with_fs w t) unzip_dir, result1).

Definition _process_unknown_file (w : World) (file_path : string)
    (result : Result) : World * Result :=
  match sample (fs w) file_path 1000 with
  | None =>
      (w, add_processing_error result
            ("Error processing unknown file " ++ file_path ++ ": "
             ++ open_error (fs w) file_path))
  | Some header =>
      if startswith header "PK" then _process_zip_file w file_path result
      else if contains "<?xml" header || contains "<bpmn" header
              || contains "<ifl:" header
      then (w, _process_xml_file (fs w) file_path result)
      else
        match OS.read (fs w) file_path with
        | None =>
            (w, add_processing_error result
                  ("Could not process unknown file: "
                   ++ open_error (fs w) file_path))
        | Some content =>
            if startswith (strip content) "<"
               && (contains "<?xml" content || contains "<bpmn" content)
            then (w, _process_xml_file (fs w) file_path result)
            else (w, _extract_with_regex content result)
        end
  end.

(** What [get_iflow_content] returns, before [json.dumps]: a dictionary
    with the key [error] (and [file_path] in the handlers), or the result
    dictionary. *)
Inductive output :=
| ErrorReport (error : string) (file_path : option string)
| Report (result : Result).

(** The value under the top-level key [error], if the key is there. *)
Definition top_level_error (o : output) : option string :=
  match o with
  | ErrorReport e _ => Some e
  | Report r => error r
  end.

(** [get_iflow_content(iflow_path)] on a connection whose
    [current_iflow_path] is [current_iflow_path].  The three processing
    methods catch every exception themselves, so the handlers around the
    dispatch are not entered. *)
Definition get_iflow_content (current_iflow_path : option string)
    (w : World) (iflow_path : option string) : World * output :=
  let file_path :=
    match resolved_truthy iflow_path with
    | Some p => Some p
    | None => resolved_truthy current_iflow_path
    end in
  match file_path with
  | None =>
      (w, ErrorReport "No IFlow path available. Run extract_iflow first." None)
  | Some file_path =>
      if negb (OS.exists_ (fs w) file_path) then
        (w, ErrorReport ("File does not exist: " ++ file_path) None)
      else
        let result := _initialize_result_structure in
        let '(w1, result1) :=
          if endswith file_path ".zip"
          then _process_zip_file w file_path result
          else if endswith file_path ".xml" || endswith file_path ".iflw"
          then (w, _process_xml_file (fs w) file_path result)
          else _process_unknown_file w file_path result in
        (w1, Report result1)
  end.

End WithLibraries.

End SAPConnection.

(** * Vocabulary of the properties *)

Module Spec.
Import Py AuthValidator OS SAPConnection.

(** ** Property files *)

(** A line declares [key = value]: stripped, it is not a comment and
    reads [a=b] with no [=] in [a]; the key and the value are [a] and [b]
    stripped. *)
Definition declares (line key value : string) : Prop :=
  exists a b,
    strip line = a ++ "=" ++ b /\ contains "=" a = false
    /\ startswith (strip line) "#" = false
    /\ key = strip a /\ value = strip b.

(** The entry that one line contributes. *)
Definition line_entry (line0 : string) : option (string * string) :=
  let line := strip line0 in
  if truthy line && negb (startswith line "#") && contains "=" line then
    match split1 "=" line with
    | [key; value] => Some (strip key, strip value)
    | _ => None
    end
  else None.

(** *** Lines and trimming, character by character *)

(** The code points below 256 that count as white space, and those at
    which a text is cut into lines. *)
Definition whitespace (c : ascii) : Prop :=
  In (nat_of_ascii c) [9; 10; 11; 12; 13; 28; 29; 30; 31; 32; 133; 160]%nat.

Definition line_boundary (c : ascii) : Prop :=
  In (nat_of_ascii c) [10; 11; 12; 13; 28; 29; 30; 133]%nat.

Definition all_chars (P : ascii -> Prop) (s : string) : Prop :=
  forall c, In c (list_ascii_of_string s) -> P c.

(** [t] is [s] without its leading and trailing white space. *)
Definition trimmed (s t : string) : Prop :=
  exists l r,
    s = l ++ t ++ r
    /\ all_chars whitespace l /\ all_chars whitespace r
    /\ (forall c t', t = String c t' -> ~ whitespace c)
    /\ (forall t' c, t = t' ++ String c EmptyString -> ~ whitespace c).

Definition CR : ascii := "013"%char.
Definition LF : ascii := "010"%char.

(** [sep] ends a line that is followed by [rest]: a carriage return with
    its line feed, or one boundary character (a carriage return only
    when no line feed follows it). *)
Definition terminator (sep rest : string) : Prop :=
  sep = String CR (String LF EmptyString)
  \/ exists c, sep = String c EmptyString /\ line_boundary c
               /\ (c = CR -> forall rest', rest <> String LF rest').

(** [lines] are the lines of [text]: each line is free of boundary
    characters and is followed by a terminator, except that the last
    line, when it is not empty, may end the text. *)
Inductive lines_of : string -> list string -> Prop :=
| lines_none : lines_of EmptyString []
| lines_last (l : string) :
    l <> EmptyString -> all_chars (fun c => ~ line_boundary c) l ->
    lines_of l [l]
| lines_more (l sep rest : string) (ls : list string) :
    all_chars (fun c => ~ line_boundary c) l ->
    terminator sep rest -> lines_of rest ls ->
    lines_of (l ++ sep ++ rest) (l :: ls).

(** A line declares [key = value]: trimmed, it is not empty, does not
    start with [#] and reads [a=b] with no [=] in [a]; the key and the
    value are [a] and [b] trimmed. *)
Definition declares_plainly (line key value : string) : Prop :=
  exists core a b,
    trimmed line core
    /\ core <> EmptyString
    /\ (forall rest, core <> String "#" rest)
    /\ core = a ++ "=" ++ b
    /\ ~ In "="%char (list_ascii_of_string a)
    /\ trimmed a key /\ trimmed b value.


(** ** Security analysis *)

(** The verdict is negative and carries the issue [i]. *)
Definition flagged (i : string) (r : security_check) : Prop :=
  is_compliant r = false /\ In i (issues r).


(** The value of the first property whose key passes [test]. *)
Definition first_value (test : string -> bool) (properties : dict string)
  : option string :=
  option_map snd (List.find (fun kv => test (fst kv)) properties).

(** Resolution with the precedence of the design document: an exact key
    first, then a key with the suffix [_X], then a key equal up to case. *)
Definition resolve_by_precedence (properties : dict string)
    (param_name : string) : option string :=
  match first_value (fun k => String.eqb k param_name) properties with
  | Some v => Some v
  | None =>
      match first_value (fun k => endswith k ("_" ++ param_name))
                        properties with
      | Some v => Some v
      | None =>
          first_value
            (fun k => String.eqb (lower k) (lower param_name)) properties
      end
  end.


(** A property that declares Basic authentication directly, a text that
    only names an endpoint, and a parser that rejects every text. *)
Definition direct_basic_content : string :=
  "<property><key>authenticationMethod</key><value>Basic</value></property>".

Definition endpoint_only_content : string :=
  "POST the order to the partner endpoint".

Definition rejecting_fromstring (text : string) : ET.parse_outcome :=
  ET.ParseError "syntax error: line 1, column 0".

(** ** Structural extraction *)

(** [e] is among the elements that one of the paths finds below [root]. *)
Definition found (root : ET.Element) (namespaces : dict string)
    (patterns : list string) (e : ET.Element) : Prop :=
  exists pattern,
    In pattern patterns /\ In e (findall_or_nothing root pattern namespaces).


(** What makes one subprocess count. *)
Definition subprocess_counts (namespaces : dict string) (s : ET.Element)
  : bool :=
  has_error_event s namespaces
  || match error_activity_type (_extract_properties s namespaces) with
     | Some _ => true
     | None => false
     end.


(** A document whose subProcess has an error activity type and no error
    event. *)
Definition error_activity_only : ET.Element :=
  ET.Elem "definitions" [] None
    [ET.Elem "subProcess" [("name", "Exception Subprocess")] None
       [ET.Elem "property" [] None
          [ET.Elem "key" [] (Some "activityType") [];
           ET.Elem "value" [] (Some "ErrorEventSubProcessTemplate") []]]].

(** The condition of the design document: a subProcess with an
    error-event definition was found. *)
Definition error_event_subprocess_found (root : ET.Element)
    (namespaces : dict string) : Prop :=
  exists s, found root namespaces subprocess_patterns s
            /\ has_error_event s namespaces = true.


(** A participant or a process was found. *)
Definition structural_signal (r : Result) : Prop :=
  workflow r <> [] \/ senders r <> [] \/ receivers r <> [].


(** ** File trees *)

(** [q] names a directory of [t]; [c] is an initial part of [q]. *)
Definition is_dir (t : node) (q : list string) : Prop :=
  exists es, lookup t q = Some (Dir es).

Definition is_prefix (c q : list string) : Prop :=
  exists r, q = (c ++ r)%list.

(** The files of [t0] that are not below [c] are files of [t] with the
    same data. *)
Definition keeps_files_outside (c : list string) (t0 t : node) : Prop :=
  forall q d, ~ is_prefix c q ->
    lookup t0 q = Some (File d) -> lookup t q = Some (File d).


(** ** A sample archive *)

(** An integration flow whose message flow declares
    [authenticationMethod = {{AUTH_METHOD}}], the tree that
    [ET.fromstring] builds for it, and an archive that holds it as
    [test.iflw] next to [parameters.prop] with [AUTH_METHOD=Basic]. *)
Definition sample_iflw : string :=
  "<bpmn2:definitions xmlns:bpmn2='http://www.omg.org/spec/BPMN/20100524/MODEL' xmlns:ifl='http:///com.sap.ifl.model/Ifl.xsd'><bpmn2:collaboration><bpmn2:messageFlow name='flow'><bpmn2:extensionElements><ifl:property><key>authenticationMethod</key><value>{{AUTH_METHOD}}</value></ifl:property></bpmn2:extensionElements></bpmn2:messageFlow></bpmn2:collaboration></bpmn2:definitions>".

Definition bpmn2 (local : string) : string := "{" ++ BPMN_MODEL ++ "}" ++ local.
Definition ifl (local : string) : string := "{" ++ IFL_XSD ++ "}" ++ local.

Definition sample_tree : ET.Element :=
  ET.Elem (bpmn2 "definitions") [] None
    [ET.Elem (bpmn2 "collaboration") [] None
       [ET.Elem (bpmn2 "messageFlow") [("name", "flow")] None
          [ET.Elem (bpmn2 "extensionElements") [] None
             [ET.Elem (ifl "property") [] None
                [ET.Elem "key" [] (Some "authenticationMethod") [];
                 ET.Elem "value" [] (Some "{{AUTH_METHOD}}") []]]]]].

Definition sample_fromstring (text : string) : ET.parse_outcome :=
  if String.eqb text sample_iflw then ET.Parsed sample_tree
  else ET.ParseError "syntax error: line 1, column 0".

Definition sample_archive : Zip.archive :=
  [ {| Zip.filename := "test.iflw"; Zip.data := sample_iflw;
       Zip.readable := true |};
    {| Zip.filename := "parameters.prop"; Zip.data := "AUTH_METHOD=Basic";
       Zip.readable := true |} ].

Definition sample_zip_decode (bytes : string) : option Zip.archive :=
  if String.eqb bytes "PK:sample" then Some sample_archive else None.

Definition sample_world (rmtree_raises : bool) : World :=
  {| fs := Dir [("downloads",
                 Dir [("flow.zip", File "PK:sample");
                      ("truncated.zip", File "PK")])];
     unique_id := "0b0e4c0a-5f0e-4e65-9e0f-3a1d6f2c7b11";
     rmtree_raises := rmtree_raises |}.


End Spec.

(** * Further extractors *)

(** The extractors of [_process_iflow_definition] that write keys of the
    result other than those above; each is given over the key it writes. *)
Module Extractors.
Import Py SAPConnection.

(** An entry of [result['key_steps']]. *)
Record key_step := {
  step_name : string;
  step_type : string;
  step_properties : list (string * string)
}.

Definition task_patterns : list (list string) :=
  [[".//bpmn2:serviceTask"; ".//bpmn2:callActivity"];
   [".//bpmn:serviceTask"; ".//bpmn:callActivity"];
   [".//serviceTask"; ".//callActivity"];
   [local_name_path ".//" "serviceTask"; local_name_path ".//" "callActivity"]].

(** The body of [for task in root.findall(pattern, namespaces)] up to the
    [append]. *)
Definition key_step_of (namespaces : dict string) (pattern : string)
    (task : ET.Element) : key_step :=
  let task_name := ET.get task "name" "Unnamed Task" in
  let props := _extract_properties task namespaces in
  let activity_type :=
    match first_property ["activitytype"; "activity_type"; "type"] props with
    | Some value => value
    | None => "Unknown"
    end in
  let activity_type :=
    if String.eqb activity_type "Unknown"
    then last_of (split "/" (last_of (split ":" pattern)))
    else activity_type in
  {| step_name := task_name; step_type := activity_type;
     step_properties := props |}.

(** [for pattern in pattern_set: try: for task in ...: ...; tasks_found =
    True; except Exception: continue]; the state is [result['key_steps']]
    and [tasks_found]. *)
Definition pattern_tasks (root : ET.Element) (namespaces : dict string)
    (st : list key_step * bool) (pattern : string) : list key_step * bool :=
  match ET.findall root pattern namespaces with
  | Some tasks =>
      fold_left
        (fun st task =>
           ((fst st ++ [key_step_of namespaces pattern task])%list, true))
        tasks st
  | None => st
  end.

(** [for pattern_set in task_patterns: ...; if tasks_found: break] *)
Fixpoint key_steps_loop (root : ET.Element) (namespaces : dict string)
    (pattern_sets : list (list string)) (key_steps : list key_step)
  : list key_step :=
  match pattern_sets with
  | [] => key_steps
  | pattern_set :: rest =>
      let '(key_steps1, tasks_found) :=
        fold_left (pattern_tasks root namespaces) pattern_set
                  (key_steps, false) in
      if tasks_found then key_steps1
      else key_steps_loop root namespaces rest key_steps1
  end.

Definition _extract_key_steps (root : ET.Element) (namespaces : dict string)
    (key_steps : list key_step) : list key_step :=
  key_steps_loop root namespaces task_patterns key_steps.

(** [for key, value in props: if key in [...]: component_type = value;
    break] *)
Fixpoint component_type_property (props : list (string * string))
  : option string :=
  match props with
  | [] => None
  | (key, value) :: rest =>
      if mem key ["ComponentType"; "adapterType"; "adapter"; "type"]
      then Some value
      else component_type_property rest
  end.

(** The body of [for message_flow in root.findall(pattern, namespaces)]
    in [_extract_adapters]; the state is [result['adapters_used']]. *)
Definition add_adapter (namespaces : dict string)
    (adapters_used : list string) (message_flow : ET.Element)
  : list string :=
  let props := _extract_properties message_flow namespaces in
  let component_type :=
    match component_type_property props with
    | Some value => Some value
    | None => dict_get (ET.attrib message_flow) "type"
    end in
  match component_type with
  | Some c =>
      if truthy c && negb (mem c adapters_used)
      then (adapters_used ++ [c])%list
      else adapters_used
  | None => adapters_used
  end.

Definition _extract_adapters (root : ET.Element) (namespaces : dict string)
    (adapters_used : list string) : list string :=
  fold_left
    (fun adapters_used pattern =>
       fold_left (add_adapter namespaces)
         (findall_or_nothing root pattern namespaces) adapters_used)
    message_flow_patterns adapters_used.

(** The steps that one pattern set contributes. *)
Definition steps_of_set (root : ET.Element) (namespaces : dict string)
    (pattern_set : list string) : list key_step :=
  flat_map
    (fun pattern =>
       map (key_step_of namespaces pattern)
           (findall_or_nothing root pattern namespaces))
    pattern_set.

(** The patterns of the extractors that test [local-name()]. *)
Definition local_name_patterns : list string :=
  filter (contains "local-name()")
    (property_paths ++ key_paths ++ value_paths ++ participant_patterns
     ++ subprocess_patterns ++ error_event_patterns ++ error_handler_patterns
     ++ message_flow_patterns ++ concat task_patterns)%list.

(** A message flow with two plain [property] children, and a process with
    a service task whose activity type reads [Unknown]. *)
Definition plain_property (k v : string) : ET.Element :=
  ET.Elem "property" [] None
    [ET.Elem "key" [] (Some k) []; ET.Elem "value" [] (Some v) []].

Definition plain_flow : ET.Element :=
  ET.Elem "messageFlow" [("name", "flow")] None
    [plain_property "ComponentType" "HTTP"; plain_property "address" "/orders"].

Definition plain_document : ET.Element :=
  ET.Elem "definitions" [] None
    [ET.Elem "collaboration" [] None
       [plain_flow;
        ET.Elem "messageFlow" [("name", "again"); ("type", "HTTP")] None []];
     ET.Elem "process" [] None
       [ET.Elem "serviceTask" [("name", "call")] None
          [plain_property "activityType" "Unknown"];
        ET.Elem "callActivity" [("name", "map")] None []]].

(** A process whose service task declares its activity type. *)
Definition typed_document : ET.Element :=
  ET.Elem "definitions" [] None
    [ET.Elem "process" [] None
       [ET.Elem "serviceTask" [("name", "call")] None
          [plain_property "activityType" "ExternalCall"]]].

(** A document whose participant lives in a namespace that none of the
    dictionaries binds. *)
Definition foreign_document : ET.Element :=
  ET.Elem "{urn:example:flow}definitions" [] None
    [ET.Elem "{urn:example:flow}participant"
       [("name", "Orders"); ("type", "sender")] None []].

(** The tags under which the participant patterns find an element. *)
Definition participant_tags : list string :=
  ["{" ++ BPMN_MODEL ++ "}participant"; "participant"].

End Extractors.

(** * The stand-alone validator *)

(** [check_single_file] of [simplified_auth_validator.py]: the checks of
    one file content against the dictionary [results], which the caller
    shares between the files of an archive. *)
Module Validator.
Import Py.

Record results := {
  is_compliant : bool;
  auth_methods : list string;
  issues : list string;
  details : list string
}.

(** The dictionary that [check_authentication_security] starts from. *)
Definition initial_results : results :=
  {| is_compliant := true; auth_methods := []; issues := []; details := [] |}.

Definition add_method (r : results) (x : string) : results :=
  {| is_compliant := is_compliant r;
     auth_methods := (auth_methods r ++ [x])%list;
     issues := issues r; details := details r |}.

Definition add_issue (r : results) (x : string) : results :=
  {| is_compliant := is_compliant r; auth_methods := auth_methods r;
     issues := (issues r ++ [x])%list; details := details r |}.

Definition add_detail (r : results) (x : string) : results :=
  {| is_compliant := is_compliant r; auth_methods := auth_methods r;
     issues := issues r; details := (details r ++ [x])%list |}.

Definition set_noncompliant (r : results) : results :=
  {| is_compliant := false; auth_methods := auth_methods r;
     issues := issues r; details := details r |}.

(** [x.lower() == basic or x.lower() == basic authentication] *)
Definition is_basic (x : string) : bool :=
  String.eqb (lower x) "basic" || String.eqb (lower x) "basic authentication".

Definition direct_auth_pattern : Re.re :=
  Re.seq [Re.lit "<key>authenticationMethod</key>"; Re.Star Re.Space;
          Re.lit "<value>"; Re.Group (Re.plus (Re.NoneOf (Re.chars "<{")));
          Re.lit "</value>"].

Definition param_auth_pattern : Re.re :=
  Re.seq [Re.lit "<key>authenticationMethod</key>"; Re.Star Re.Space;
          Re.lit "<value>{{"; Re.Group (Re.plus (Re.NoneOf (Re.chars "}")));
          Re.lit "}}</value>"].

(** [<value>\s*basic\s*</value>] *)
Definition basic_value_pattern : Re.re :=
  Re.seq [Re.lit "<value>"; Re.Star Re.Space; Re.lit "basic";
          Re.Star Re.Space; Re.lit "</value>"].

(** The body of [for match in direct_matches]. *)
Definition direct_match (r : results) (match0 : string) : results :=
  let auth_method := strip match0 in
  if truthy auth_method && negb (mem auth_method (auth_methods r)) then
    let r1 := add_method r auth_method in
    if is_basic auth_method then
      add_issue (set_noncompliant r1)
        ("Direct Basic Authentication detected: '" ++ auth_method ++ "'")
    else r1
  else r.

(** [for prop_key, prop_value in properties.items(): if prop_key ==
    param_name or prop_key.endswith(f'_{param_name}'): ...; break] *)
Fixpoint resolve (properties : dict string) (param_name : string)
  : option string :=
  match properties with
  | [] => None
  | (prop_key, prop_value) :: rest =>
      if String.eqb prop_key param_name
         || endswith prop_key ("_" ++ param_name)
      then Some prop_value
      else resolve rest param_name
  end.

(** [if value:] on a value that may be [None]. *)
Definition if_truthy (v : option string) : option string :=
  match v with
  | Some x => if truthy x then Some x else None
  | None => None
  end.

(** The body of [for match in param_matches]. *)
Definition param_match (properties : dict string) (r : results)
    (match0 : string) : results :=
  let param_name := strip match0 in
  let r0 := add_detail r
              ("Found parameterized authentication: {" ++ param_name ++ "}") in
  match if_truthy (resolve properties param_name) with
  | Some resolved_value =>
      let auth_method := resolved_value ++ " (from " ++ param_name ++ ")" in
      let r1 := if mem auth_method (auth_methods r0) then r0
                else add_method r0 auth_method in
      if is_basic resolved_value then
        add_issue (set_noncompliant r1)
          ("Basic Authentication detected via parameter: '" ++ param_name
           ++ "' = '" ++ resolved_value ++ "'")
      else r1
  | None =>
      add_detail r0 ("Could not resolve parameter: '" ++ param_name ++ "'")
  end.

Definition namespaces : dict string :=
  [("bpmn2", SAPConnection.BPMN_MODEL); ("ifl", SAPConnection.IFL_XSD)].

(** [for prop in props: key = prop.find(./key); value = prop.find(./value);
    if key is not None and key.text == authenticationMethod and value is not
    None: auth_value = value.text; break], inside a [try]: [Some t] when
    the loop assigns [t], [None] when it ends without an assignment or
    raises. *)
Fixpoint authentication_value (ns : dict string) (props : list ET.Element)
  : option (option string) :=
  match props with
  | [] => None
  | prop :: rest =>
      match ET.find prop "./key" ns with
      | None => None
      | Some key =>
          match ET.find prop "./value" ns with
          | None => None
          | Some value =>
              match key, value with
              | Some key_elem, Some value_elem =>
                  match ET.text key_elem with
                  | Some t =>
                      if String.eqb t "authenticationMethod"
                      then Some (ET.text value_elem)
                      else authentication_value ns rest
                  | None => authentication_value ns rest
                  end
              | _, _ => authentication_value ns rest
              end
          end
      end
  end.

(** [auth_value] of one message flow after the two searches. *)
Definition flow_auth_value (flow : ET.Element) : option string :=
  let auth_value :=
    match ET.findall flow ".//ifl:property" namespaces with
    | Some props =>
        match authentication_value namespaces props with
        | Some t => t
        | None => None
        end
    | None => None
    end in
  match if_truthy auth_value with
  | Some v => Some v
  | None =>
      match ET.findall flow ".//property" [] with
      | Some props =>
          match authentication_value [] props with
          | Some t => t
          | None => auth_value
          end
      | None => auth_value
      end
  end.

(** The body of [for flow in message_flows]. *)
Definition check_flow (properties : dict string) (r : results)
    (flow : ET.Element) : results :=
  match if_truthy (flow_auth_value flow) with
  | None => r
  | Some auth_value =>
      if startswith auth_value "{{" && endswith auth_value "}}" then
        let param_name :=
          strip (substring 2 (String.length auth_value - 4) auth_value) in
        match if_truthy (resolve properties param_name) with
        | Some resolved_value =>
            let auth_method :=
              resolved_value ++ " (from " ++ param_name
              ++ " in message flow)" in
            let r1 := if mem auth_method (auth_methods r) then r
                      else add_method r auth_method in
            if is_basic resolved_value then
              add_issue (set_noncompliant r1)
                ("Basic Authentication detected in message flow via parameter: '"
                 ++ param_name ++ "' = '" ++ resolved_value ++ "'")
            else r1
        | None =>
            add_detail r
              ("Could not resolve parameter in message flow: '"
               ++ param_name ++ "'")
        end
      else
        let r1 := if mem auth_value (auth_methods r) then r
                  else add_method r auth_value in
        if is_basic auth_value then
          add_issue (set_noncompliant r1)
            ("Direct Basic Authentication found in message flow: '"
             ++ auth_value ++ "'")
        else r1
  end.

(** [message_flows]: the namespaced search, and the plain one when it
    finds nothing. *)
Definition message_flows (root : ET.Element) : list ET.Element :=
  match ET.findall root ".//bpmn2:messageFlow" namespaces with
  | Some [] =>
      match ET.findall root ".//messageFlow" [] with
      | Some l => l
      | None => []
      end
  | Some l => l
  | None => []
  end.

(** The final safety check. *)
Definition safety_check (content : string) (r : results) : results :=
  if negb (existsb (fun method => startswith (lower method) "basic")
                   (auth_methods r))
     && contains "basic authentication" (lower content)
  then
    let r1 := add_detail r
                "Found references to Basic Authentication in content" in
    if negb (is_compliant r1) || Re.search basic_value_pattern (lower content)
    then
      add_issue (set_noncompliant r1)
        "Basic Authentication detected via pattern match"
    else r1
  else r.

Section WithParser.
Variable fromstring : string -> ET.parse_outcome.

Definition check_single_file (content : string) (properties : dict string)
    (r : results) : results :=
  let r1 := fold_left direct_match (Re.findall direct_auth_pattern content) r in
  let r2 :=
    fold_left (param_match properties)
              (Re.findall param_auth_pattern content) r1 in
  let r3 :=
    match fromstring content with
    | ET.Parsed root => fold_left (check_flow properties) (message_flows root) r2
    | _ => r2
    end in
  safety_check content r3.

End WithParser.

(** [r'] carries everything that [r] carries: a negative verdict stays,
    and the three lists are extended at their ends. *)
Definition extends (r r' : results) : Prop :=
  (is_compliant r = false -> is_compliant r' = false)
  /\ (exists l, auth_methods r' = (auth_methods r ++ l)%list)
  /\ (exists l, issues r' = (issues r ++ l)%list)
  /\ (exists l, details r' = (details r ++ l)%list).

(** The verdict is positive exactly when no issue is recorded. *)
Definition verdict_tracks_issues (r : results) : Prop :=
  is_compliant r = true <-> issues r = [].

(** The issue that a direct method [a] raises, and the state in which
    every Basic method among the recorded ones has raised it. *)
Definition direct_issue (a : string) : string :=
  "Direct Basic Authentication detected: '" ++ a ++ "'".

Definition basic_methods_flagged (r : results) : Prop :=
  forall a, In a (auth_methods r) -> is_basic a = true ->
            is_compliant r = false /\ In (direct_issue a) (issues r).

(** A file with a direct Basic method, a file without any method, and a
    parser that rejects both. *)
Definition basic_file : string :=
  "<key>authenticationMethod</key><value>Basic</value>".

Definition quiet_file : string := "<definitions/>".

Definition no_parser (text : string) : ET.parse_outcome :=
  ET.ParseError "syntax error: line 1, column 0".

End Validator.

(** * Further vocabulary and samples *)

Module Vocabulary.
Import Py OS SAPConnection Spec Extractors.

(** ** Security analysis *)

(** The verdict is positive exactly when there is no issue. *)
Definition verdict_matches_issues (r : security_check) : Prop :=
  is_compliant r = true <-> issues r = [].

(** [x] is among the detected methods, and [d] among the details. *)
Definition detected (x : string) (r : security_check) : Prop :=
  In x (detected_methods r).

Definition detailed (d : string) (r : security_check) : Prop :=
  In d (details r).

(** Issues come with a detected method; the detail of the final policy is
    recorded by the final policy only. *)
Definition issues_have_methods (r : security_check) : Prop :=
  detected_methods r = [] -> issues r = [].

Definition external_detail : string :=
  "External API calls detected but no authentication method identified".

Definition no_external_detail (r : security_check) : Prop :=
  ~ In external_detail (details r).

(** ** Structural extraction *)

(** The first two namespace dictionaries. *)
Definition first_profile : dict string :=
  [("bpmn2", BPMN_MODEL); ("ifl", IFL_XSD); ("bpmndi", BPMN_DI)].

Definition second_profile : dict string :=
  [("bpmn", BPMN_MODEL); ("ifl", IFL_XSD)].

(** ** Pipeline *)

(** The security keys of two results are the same. *)
Definition same_security (r : Result) (c : security_check) : Prop :=
  security r = detected_methods c
  /\ security_compliant r = is_compliant c
  /\ security_issues r = issues c
  /\ security_details r = details c.

(** An archive none of whose members is selected for extraction, and a
    tree that holds it. *)
Definition plain_archive : Zip.archive :=
  [ {| Zip.filename := "README.txt"; Zip.data := "nothing to see";
       Zip.readable := true |};
    {| Zip.filename := "lib/helper.jar"; Zip.data := "PK";
       Zip.readable := true |} ].

Definition plain_zip_decode (bytes : string) : option Zip.archive :=
  if String.eqb bytes "PK:plain" then Some plain_archive else None.

Definition plain_world : World :=
  {| fs := Dir [("downloads", Dir [("plain.zip", File "PK:plain")])];
     unique_id := "7c1f0a52-3d4e-4b6f-8a90-5e2d1c3b4a69";
     rmtree_raises := false |}.

(** The sample tree after the extraction of the sample archive. *)
Definition extracted_sample : node :=
  Dir [("scratch",
        Dir [("first.iflw", File direct_basic_content);
             ("second.iflw", File sample_iflw)])].

(** The path that [get_iflow_content] processes: [iflow_path] when it is
    given and not empty, [current_iflow_path] otherwise. *)
Definition processed_path (iflow_path current_iflow_path : option string)
  : option string :=
  match resolved_truthy iflow_path with
  | Some p => Some p
  | None => resolved_truthy current_iflow_path
  end.

(** [key] is one of the keys that name the type of a step. *)
Definition type_key (key : string) : Prop :=
  In (lower key) ["activitytype"; "activity_type"; "type"].

(** [t] is the type that the properties [props] give a step found under
    the tag [tag]: the value of the first property with a type key, and
    the tag when there is no such property or its value reads
    [Unknown]. *)
Definition typed_by (props : list (string * string)) (tag t : string)
  : Prop :=
  (exists before key value after,
      props = (before ++ (key, value) :: after)%list
      /\ type_key key
      /\ (forall kv, In kv before -> ~ type_key (fst kv))
      /\ ((value <> "Unknown" /\ t = value)
          \/ (value = "Unknown" /\ t = tag)))
  \/ ((forall kv, In kv props -> ~ type_key (fst kv)) /\ t = tag).

(** The report on the truncated archive of the sample tree. *)
Definition truncated_report : Result :=
  set_error _initialize_result_structure
    "Extraction error: File is not a zip file".

End Vocabulary.

(** * Properties *)

(** ** The library models on small inputs *)

Module ModelExamples.
Import Py SAPConnection.

Example splitlines_boundaries :
  splitlines ("a=1" ++ String "013" (String "010" "b=2")
              ++ String "010" (String "010" "c"))
  = ["a=1"; "b=2"; ""; "c"].
Proof. reflexivity. Qed.

Example strip_both_ends : strip (String "009" " key  ") = "key".
Proof. reflexivity. Qed.

Example split1_first_separator : split1 "=" "a=b=c" = ["a"; "b=c"].
Proof. reflexivity. Qed.

Example findall_direct_value :
  Re.findall (nth 0 auth_patterns Re.Eps)
    "<key>authenticationMethod</key>  <value> OAuth2 </value>"
  = [" OAuth2 "].
Proof. vm_compute. reflexivity. Qed.

Example findall_direct_pattern_takes_placeholder :
  Re.findall (nth 0 auth_patterns Re.Eps)
    "<key>authenticationMethod</key><value>{{AUTH_METHOD}}</value>"
  = ["{{AUTH_METHOD}}"].
Proof. vm_compute. reflexivity. Qed.

Example findall_parameter_name :
  Re.findall (nth 0 param_auth_patterns Re.Eps)
    "<key>authenticationMethod</key><value>{{AUTH_METHOD}}</value>"
  = ["AUTH_METHOD"].
Proof. vm_compute. reflexivity. Qed.

Example search_ignores_case :
  Re.search_i external_call_pattern "see HTTPS://host/path" = true
  /\ Re.search_i external_call_pattern "nothing to call" = false.
Proof. split; vm_compute; reflexivity. Qed.

Example findall_unbound_prefix :
  ET.findall (ET.Elem "definitions" [] None []) ".//bpmn:messageFlow"
    (nth 0 namespace_sets []) = None.
Proof. reflexivity. Qed.

Example findall_local_name_predicate :
  ET.findall (ET.Elem "definitions" [] None []) (nth 3 message_flow_patterns "")
    (nth 0 namespace_sets []) = None.
Proof. reflexivity. Qed.

Example findall_descendants_in_document_order :
  map (fun e => ET.get e "id" "")
    (findall_or_nothing
       (ET.Elem "a" [] None
          [ET.Elem "b" [("id", "1")] None [ET.Elem "b" [("id", "2")] None []];
           ET.Elem "b" [("id", "3")] None []])
       ".//b" [])
  = ["1"; "2"; "3"].
Proof. reflexivity. Qed.

Example dirname_and_join :
  OS.dirname "downloads/flow.zip" = "downloads"
  /\ OS.dirname "flow.zip" = ""
  /\ OS.join "downloads" "extracted_1" = "downloads/extracted_1"
  /\ OS.join "" "extracted_1" = "extracted_1".
Proof. repeat split. Qed.

Example extract_drops_parent_references :
  Zip.arcname "../../etc/config.xml" = ["etc"; "config.xml"].
Proof. reflexivity. Qed.

End ModelExamples.

(** ** Strings and dictionaries *)

Module PyFacts.
Import Py.

Lemma dict_get_set {V} (d : dict V) (k k' : string) (v : V) :
  dict_get (dict_set d k v) k' =
  if String.eqb k k' then Some v else dict_get d k'.
Proof.
  induction d as [|[k0 v0] d IH]; simpl.
  - reflexivity.
  - destruct (String.eqb k0 k) eqn:E0; simpl.
    + apply String.eqb_eq in E0; subst k0.
      destruct (String.eqb k k'); reflexivity.
    + destruct (String.eqb k0 k') eqn:E1.
      * apply String.eqb_eq in E1; subst k0. rewrite String.eqb_sym, E0.
        reflexivity.
      * exact IH.
Qed.

Lemma contains_char_cons (c x : ascii) (s : string) :
  contains (String c EmptyString) (String x s) =
  Ascii.eqb c x || contains (String c EmptyString) s.
Proof.
  simpl.
  destruct (ascii_dec c x) as [->|N].
  - rewrite Ascii.eqb_refl. destruct s; reflexivity.
  - apply Ascii.eqb_neq in N. rewrite N. reflexivity.
Qed.

Lemma contains_char_nil (c : ascii) :
  contains (String c EmptyString) EmptyString = false.
Proof. reflexivity. Qed.

(** [split1] cuts at the first separator. *)
Lemma split1_found (c : ascii) (s : string) :
  contains (String c EmptyString) s = true ->
  exists a b, split1 c s = [a; b] /\ s = a ++ String c b
              /\ contains (String c EmptyString) a = false.
Proof.
  induction s as [|x s IH]; intro H.
  - discriminate.
  - rewrite contains_char_cons in H. cbn [split1].
    destruct (Ascii.eqb x c) eqn:E.
    + apply Ascii.eqb_eq in E; subst x.
      exists EmptyString, s. repeat split.
    + rewrite Ascii.eqb_sym, E in H. simpl in H.
      destruct (IH H) as (a & b & Hs & Hab & Ha).
      rewrite Hs. exists (String x a), b. repeat split.
      * simpl. now rewrite Hab.
      * rewrite contains_char_cons, Ha, Ascii.eqb_sym, E. reflexivity.
Qed.

Lemma split1_unique (c : ascii) (a b : string) :
  contains (String c EmptyString) a = false ->
  split1 c (a ++ String c b) = [a; b].
Proof.
  induction a as [|x a IH]; intro H; simpl.
  - now rewrite Ascii.eqb_refl.
  - rewrite contains_char_cons in H. apply orb_false_iff in H as [H1 H2].
    rewrite Ascii.eqb_sym, H1, (IH H2). reflexivity.
Qed.

Lemma contains_char_app (c : ascii) (a b : string) :
  contains (String c EmptyString) (a ++ String c b) = true.
Proof.
  induction a as [|x a IH]; simpl append.
  - rewrite contains_char_cons, Ascii.eqb_refl. reflexivity.
  - rewrite contains_char_cons, IH. apply orb_true_r.
Qed.

End PyFacts.

(** ** Lines and trimming *)

Module LinesFacts.
Import Py AuthValidator Spec PyFacts.

Lemma isspace_whitespace (c : ascii) : isspace c = true <-> whitespace c.
Proof.
  unfold isspace, whitespace, code. cbn [In].
  rewrite !orb_true_iff, !andb_true_iff, !Nat.leb_le, !Nat.eqb_eq. lia.
Qed.

Lemma islinebreak_boundary (c : ascii) :
  islinebreak c = true <-> line_boundary c.
Proof.
  unfold islinebreak, line_boundary, code. cbn [In].
  rewrite !orb_true_iff, !andb_true_iff, !Nat.leb_le, !Nat.eqb_eq. lia.
Qed.

Lemma not_whitespace (c : ascii) : isspace c = false <-> ~ whitespace c.
Proof.
  rewrite <- isspace_whitespace. destruct (isspace c); split; congruence.
Qed.

Lemma all_chars_nil (P : ascii -> Prop) : all_chars P EmptyString.
Proof. intros c []. Qed.

Lemma all_chars_cons (P : ascii -> Prop) (c : ascii) (s : string) :
  all_chars P (String c s) <-> P c /\ all_chars P s.
Proof.
  unfold all_chars. cbn [list_ascii_of_string In]. split.
  - intro H. split; [apply H; now left|intros x Hx; apply H; now right].
  - intros [Hc Hs] x [<-|Hx]; auto.
Qed.

Lemma append_nil_r (s : string) : s ++ EmptyString = s.
Proof. induction s as [|c s IH]; cbn; [reflexivity|now rewrite IH]. Qed.

Lemma append_assoc (a b c : string) : (a ++ b) ++ c = a ++ (b ++ c).
Proof. induction a as [|x a IH]; cbn; [reflexivity|now rewrite IH]. Qed.

Lemma snoc_cases (s : string) :
  s = EmptyString \/ exists t c, s = t ++ String c EmptyString.
Proof.
  induction s as [|x s IH]; [now left|]. right.
  destruct IH as [->|(t & c & ->)].
  - now exists EmptyString, x.
  - now exists (String x t), c.
Qed.

(** *** [strip] *)

Lemma lstrip_split (s : string) :
  exists l, s = l ++ lstrip s /\ all_chars whitespace l.
Proof.
  induction s as [|c s (l & Hl & Hw)]; cbn [lstrip].
  - exists EmptyString. split; [reflexivity|apply all_chars_nil].
  - destruct (isspace c) eqn:E.
    + exists (String c l). split; [cbn; now rewrite <- Hl|].
      apply all_chars_cons. split; [now apply isspace_whitespace|exact Hw].
    + exists EmptyString. split; [reflexivity|apply all_chars_nil].
Qed.

Lemma lstrip_head (s : string) (c : ascii) (t : string) :
  lstrip s = String c t -> ~ whitespace c.
Proof.
  induction s as [|x s IH]; cbn [lstrip]; [discriminate|].
  destruct (isspace x) eqn:E; [exact IH|].
  intro H. inversion H; subst. now apply not_whitespace.
Qed.

Lemma rstrip_split (x : string) :
  exists r, x = rstrip x ++ r /\ all_chars whitespace r.
Proof.
  induction x as [|c x (r & Hr & Hw)]; cbn [rstrip].
  - exists EmptyString. split; [reflexivity|apply all_chars_nil].
  - destruct (rstrip x) as [|d y] eqn:E.
    + cbn in Hr. subst x. destruct (isspace c) eqn:Ec.
      * exists (String c r). split; [reflexivity|].
        apply all_chars_cons. split; [now apply isspace_whitespace|exact Hw].
      * exists r. split; [reflexivity|exact Hw].
    + exists r. split; [|exact Hw].
      cbn [append] in Hr |- *. now f_equal.
Qed.

Lemma rstrip_last (x : string) :
  forall t c, rstrip x = t ++ String c EmptyString -> ~ whitespace c.
Proof.
  induction x as [|d x IH]; intros t c; cbn [rstrip].
  - destruct t; discriminate.
  - destruct (rstrip x) as [|e y] eqn:E.
    + destruct (isspace d) eqn:Ed.
      * destruct t; discriminate.
      * destruct t as [|t0 t]; cbn; intro H; inversion H; subst.
        -- now apply not_whitespace.
        -- destruct t; discriminate.
    + destruct t as [|t0 t]; cbn; intro H; inversion H; subst.
      now apply (IH t c).
Qed.

Lemma rstrip_prefix_head (x : string) (c : ascii) (t : string) :
  rstrip x = String c t -> exists t', x = String c t'.
Proof.
  destruct x as [|d x]; cbn [rstrip]; [discriminate|].
  destruct (rstrip x); [destruct (isspace d)|];
    intro H; inversion H; subst; now eexists.
Qed.

Lemma strip_trimmed (s : string) : trimmed s (strip s).
Proof.
  unfold strip, trimmed.
  destruct (lstrip_split s) as (l & Hl & Hwl).
  destruct (rstrip_split (lstrip s)) as (r & Hr & Hwr).
  exists l, r. split; [now rewrite <- Hr|].
  split; [exact Hwl|]. split; [exact Hwr|]. split.
  - intros c t' H. destruct (rstrip_prefix_head _ _ _ H) as [t'' Ht].
    now apply (lstrip_head _ _ _ Ht).
  - intros t' c. apply rstrip_last.
Qed.

Lemma lstrip_whitespace (l x : string) :
  all_chars whitespace l -> lstrip (l ++ x) = lstrip x.
Proof.
  induction l as [|c l IH]; intro H; [reflexivity|].
  apply all_chars_cons in H as [Hc Hl]. cbn [append lstrip].
  apply isspace_whitespace in Hc. rewrite Hc. now apply IH.
Qed.

Lemma lstrip_all (r : string) :
  all_chars whitespace r -> lstrip r = EmptyString.
Proof.
  intro H. rewrite <- (append_nil_r r). now rewrite lstrip_whitespace.
Qed.

Lemma rstrip_all (r : string) :
  all_chars whitespace r -> rstrip r = EmptyString.
Proof.
  induction r as [|c r IH]; intro H; [reflexivity|].
  apply all_chars_cons in H as [Hc Hr]. cbn [rstrip]. rewrite (IH Hr).
  apply isspace_whitespace in Hc. now rewrite Hc.
Qed.

Lemma rstrip_whitespace (t r : string) :
  all_chars whitespace r -> rstrip (t ++ r) = rstrip t.
Proof.
  intro H. induction t as [|c t IH]; cbn [append rstrip].
  - now apply rstrip_all.
  - now rewrite IH.
Qed.

Lemma rstrip_kept (t : string) (c : ascii) :
  ~ whitespace c -> rstrip (t ++ String c EmptyString) = t ++ String c EmptyString.
Proof.
  intro H. apply not_whitespace in H.
  induction t as [|d t IH]; cbn [append rstrip].
  - now rewrite H.
  - rewrite IH. destruct t; reflexivity.
Qed.

Lemma trimmed_strip (s t : string) : trimmed s t -> t = strip s.
Proof.
  intros (l & r & -> & Hl & Hr & Hhead & Hlast). unfold strip.
  rewrite (lstrip_whitespace _ _ Hl).
  destruct t as [|c t].
  - cbn [append]. now rewrite (lstrip_all _ Hr).
  - assert (Hc : isspace c = false).
    { apply not_whitespace. now apply (Hhead c t). }
    cbn [append lstrip]. rewrite Hc.
    change (String c (t ++ r)) with (String c t ++ r).
    rewrite (rstrip_whitespace _ _ Hr).
    destruct (snoc_cases (String c t)) as [E|(t' & d & E)]; [discriminate|].
    rewrite E. symmetry. apply rstrip_kept. now apply (Hlast t' d).
Qed.

(** *** [splitlines] *)

Lemma not_boundary (c : ascii) : islinebreak c = false <-> ~ line_boundary c.
Proof.
  rewrite <- islinebreak_boundary. destruct (islinebreak c); split; congruence.
Qed.

Lemma boundary_CR : line_boundary CR.
Proof. unfold line_boundary, CR. cbn. tauto. Qed.

Lemma not_boundary_not_CR (c : ascii) :
  ~ line_boundary c -> Ascii.eqb c "013" = false.
Proof.
  intro H. apply Ascii.eqb_neq. intros ->. apply H, boundary_CR.
Qed.

Lemma all_chars_app (P : ascii -> Prop) (a b : string) :
  all_chars P a -> all_chars P b -> all_chars P (a ++ b).
Proof.
  intros Ha Hb. induction a as [|c a IH]; [exact Hb|].
  apply all_chars_cons in Ha as [Hc Ha]. cbn [append].
  apply all_chars_cons. split; [exact Hc|now apply IH].
Qed.

Lemma splitlines_from_line (l : string) :
  all_chars (fun c => ~ line_boundary c) l ->
  forall cur s, splitlines_from cur (l ++ s) = splitlines_from (cur ++ l) s.
Proof.
  induction l as [|c l IH]; intros H cur s.
  - now rewrite append_nil_r.
  - apply all_chars_cons in H as [Hc Hl]. cbn [append splitlines_from].
    rewrite (not_boundary_not_CR _ Hc).
    apply not_boundary in Hc. rewrite Hc, (IH Hl).
    now rewrite append_assoc.
Qed.

Lemma splitlines_from_terminator (cur sep rest : string) :
  terminator sep rest ->
  splitlines_from cur (sep ++ rest) = cur :: splitlines_from EmptyString rest.
Proof.
  intros [->|(c & -> & Hb & Hcr)]; [reflexivity|].
  cbn [append splitlines_from].
  destruct (Ascii.eqb c "013") eqn:E.
  - apply Ascii.eqb_eq in E. specialize (Hcr E).
    destruct rest as [|x rest]; [reflexivity|].
    destruct (ascii_dec x LF) as [->|N]; [now elim (Hcr rest)|].
    destruct x as [[] [] [] [] [] [] [] []]; try reflexivity. now elim N.
  - apply islinebreak_boundary in Hb. now rewrite Hb.
Qed.

Lemma lines_of_unique (text : string) (lines : list string) :
  lines_of text lines -> lines = splitlines text.
Proof.
  unfold splitlines. induction 1 as [|l Hne Hl|l sep rest ls Hl Hsep _ IH].
  - reflexivity.
  - rewrite <- (append_nil_r l) at 2.
    rewrite (splitlines_from_line l Hl). cbn [append splitlines_from].
    destruct l; [now elim Hne|reflexivity].
  - rewrite (splitlines_from_line l Hl). cbn [append].
    rewrite (splitlines_from_terminator _ _ _ Hsep). now rewrite IH.
Qed.

Lemma splitlines_from_lines (n : nat) :
  forall s cur, String.length s <= n ->
    all_chars (fun c => ~ line_boundary c) cur ->
    lines_of (cur ++ s) (splitlines_from cur s).
Proof.
  induction n as [|n IH]; intros s cur Hn Hcur.
  - destruct s; [|cbn in Hn; lia]. rewrite append_nil_r. cbn.
    destruct cur; [constructor|]. now constructor.
  - destruct s as [|c s].
    { rewrite append_nil_r. cbn.
      destruct cur; [constructor|]. now constructor. }
    cbn in Hn. cbn [splitlines_from].
    destruct (Ascii.eqb c "013") eqn:E.
    + apply Ascii.eqb_eq in E. subst c.
      destruct s as [|x s].
      * apply (lines_more cur (String CR EmptyString) EmptyString []);
          [exact Hcur| |constructor].
        right. exists CR. split; [reflexivity|]. split; [apply boundary_CR|].
        intros _ rest'. discriminate.
      * destruct (ascii_dec x LF) as [->|N].
        -- change (String "013" (String LF s))
             with (String CR (String LF EmptyString) ++ s).
           apply lines_more; [exact Hcur|now left|].
           apply (IH s EmptyString); [cbn in Hn; lia|apply all_chars_nil].
        -- assert (R : match String x s with
                        | String "010" s'' =>
                            cur :: splitlines_from EmptyString s''
                        | _ => cur :: splitlines_from EmptyString (String x s)
                        end = cur :: splitlines_from EmptyString (String x s)).
           { destruct x as [[] [] [] [] [] [] [] []]; try reflexivity.
             now elim N. }
           rewrite R.
           change (String "013" (String x s))
             with (String CR EmptyString ++ String x s).
           apply lines_more; [exact Hcur| |].
           ++ right. exists CR. split; [reflexivity|].
              split; [apply boundary_CR|].
              intros _ rest' H. inversion H. now elim N.
           ++ apply (IH (String x s) EmptyString); [lia|apply all_chars_nil].
    + destruct (islinebreak c) eqn:Eb.
      * change (String c s) with (String c EmptyString ++ s).
        apply lines_more; [exact Hcur| |].
        -- right. exists c. split; [reflexivity|].
           split; [now apply islinebreak_boundary|].
           intros ->. discriminate.
        -- apply (IH s EmptyString); [lia|apply all_chars_nil].
      * change (cur ++ String c s) with (cur ++ (String c EmptyString ++ s)).
        rewrite <- append_assoc.
        apply IH; [lia|].
        apply all_chars_app; [exact Hcur|].
        apply all_chars_cons. split; [now apply not_boundary|apply all_chars_nil].
Qed.

Lemma splitlines_lines (text : string) : lines_of text (splitlines text).
Proof.
  apply (splitlines_from_lines (String.length text) text EmptyString);
    [lia|apply all_chars_nil].
Qed.

(** *** Declarations *)

Lemma contains_char_In (c : ascii) (s : string) :
  contains (String c EmptyString) s = false
  <-> ~ In c (list_ascii_of_string s).
Proof.
  induction s as [|x s IH].
  - cbn. tauto.
  - rewrite contains_char_cons, orb_false_iff, IH.
    cbn [list_ascii_of_string In]. rewrite Ascii.eqb_neq. split.
    + intros [N H] [E|E]; [now elim N|now elim H].
    + intro H. split; [intro E; apply H; now left|intro E; apply H; now right].
Qed.

Lemma declares_plainly_declares (line k v : string) :
  declares_plainly line k v <-> declares line k v.
Proof.
  unfold declares_plainly, declares. split.
  - intros (core & a & b & Hc & _ & Hhash & Hab & Ha & Hk & Hv).
    apply trimmed_strip in Hc, Hk, Hv. subst core k v.
    exists a, b. split; [exact Hab|]. split; [now apply contains_char_In|].
    split; [|now split].
    destruct (strip line) as [|x s]; [reflexivity|].
    destruct (ascii_dec x "#") as [->|N]; [now elim (Hhash s)|].
    unfold startswith. cbn [String.prefix].
    destruct (ascii_dec "#" x) as [E|_]; [now elim N|reflexivity].
  - intros (a & b & Hab & Ha & Hhash & -> & ->).
    exists (strip line), a, b.
    split; [apply strip_trimmed|].
    split; [rewrite Hab; destruct a; discriminate|].
    split; [|split; [exact Hab|]].
    + intros rest E. rewrite E in Hhash. unfold startswith in Hhash.
      cbn [String.prefix] in Hhash.
      destruct (ascii_dec "#" "#") as [_|N]; [|now elim N].
      destruct rest; discriminate.
    + split; [now apply contains_char_In|].
      split; apply strip_trimmed.
Qed.

End LinesFacts.

(** ** The property-file reader *)

Module AuthValidatorFacts.
Import Py AuthValidator Spec PyFacts LinesFacts.

Lemma declares_line_entry (line k v : string) :
  declares line k v <-> line_entry line = Some (k, v).
Proof.
  unfold declares, line_entry. split.
  - intros (a & b & Hs & Ha & Hc & -> & ->).
    rewrite Hs in *. simpl append in *.
    rewrite (split1_unique _ _ b Ha), Hc, contains_char_app.
    destruct a; reflexivity.
  - destruct (truthy (strip line) && negb (startswith (strip line) "#")
              && contains "=" (strip line)) eqn:E; [|discriminate].
    apply andb_true_iff in E as [E Hc]. apply andb_true_iff in E as [_ Hn].
    apply negb_true_iff in Hn.
    destruct (split1_found _ _ Hc) as (a & b & Hs & Hab & Ha).
    rewrite Hs. intro H; inversion H; subst.
    exists a, b. repeat split; assumption.
Qed.

Lemma extract_loop_step (line : string) (rest : list string)
    (properties : dict string) :
  extract_loop (line :: rest) properties =
  extract_loop rest
    match line_entry line with
    | Some (k, v) => dict_set properties k v
    | None => properties
    end.
Proof.
  unfold line_entry. cbn [extract_loop].
  destruct (truthy (strip line) && negb (startswith (strip line) "#")
            && contains "=" (strip line)) eqn:E; [|reflexivity].
  apply andb_true_iff in E as [_ Hc].
  destruct (split1_found _ _ Hc) as (a & b & Hs & _ & _).
  rewrite Hs. reflexivity.
Qed.

(** The last declaration of a key wins; without one the key keeps the
    value it had. *)
Lemma extract_loop_get (lines : list string) :
  forall (properties : dict string) (k v : string),
    dict_get (extract_loop lines properties) k = Some v <->
    (exists before line after,
        lines = (before ++ line :: after)%list /\ declares line k v
        /\ forall l' v', In l' after -> ~ declares l' k v')
    \/ ((forall l' v', In l' lines -> ~ declares l' k v')
        /\ dict_get properties k = Some v).
Proof.
  induction lines as [|line rest IH]; intros properties k v.
  - simpl. split.
    + intro H. right. split; [intros ? ? []|exact H].
    + intros [(before & l & after & H & _)|[_ H]]; [|exact H].
      destruct before; discriminate.
  - rewrite extract_loop_step, IH. split.
    + intros [(before & l & after & -> & Hd & Hlast)|[Hnone Hget]].
      * left. exists (line :: before), l, after. repeat split; assumption.
      * destruct (line_entry line) as [[k0 v0]|] eqn:E.
        -- rewrite dict_get_set in Hget.
           destruct (String.eqb k0 k) eqn:Ek.
           ++ apply String.eqb_eq in Ek; subst k0. inversion Hget; subst v0.
              left. exists [], line, rest. repeat split.
              ** now apply declares_line_entry.
              ** exact Hnone.
           ++ right. split; [|exact Hget].
              intros l' v' [<-|Hin]; [|now apply Hnone].
              intro Hd. apply declares_line_entry in Hd.
              rewrite E in Hd. inversion Hd; subst.
              now rewrite String.eqb_refl in Ek.
        -- right. split; [|exact Hget].
           intros l' v' [<-|Hin]; [|now apply Hnone].
           intro Hd. apply declares_line_entry in Hd. congruence.
    + intros [(before & l & after & Heq & Hd & Hlast)|[Hnone Hget]].
      * destruct before as [|l0 before]; simpl in Heq; inversion Heq; subst.
        -- right. split; [exact Hlast|].
           apply declares_line_entry in Hd. rewrite Hd, dict_get_set.
           now rewrite String.eqb_refl.
        -- left. exists before, l, after. repeat split; assumption.
      * right. split.
        -- intros l' v' Hin. apply Hnone. now right.
        -- destruct (line_entry line) as [[k0 v0]|] eqn:E; [|exact Hget].
           rewrite dict_get_set. destruct (String.eqb k0 k) eqn:Ek; [|exact Hget].
           apply String.eqb_eq in Ek; subst k0.
           exfalso. apply (Hnone line v0); [now left|].
           now apply declares_line_entry.
Qed.

Lemma chars_app (a b : string) :
  list_ascii_of_string (a ++ b)
  = (list_ascii_of_string a ++ list_ascii_of_string b)%list.
Proof. induction a as [|c a IH]; cbn; [reflexivity|now rewrite IH]. Qed.

Lemma declares_plainly_separator (line k v : string) :
  declares_plainly line k v -> In "="%char (list_ascii_of_string line).
Proof.
  intros (core & a & b & (l & r & -> & _) & _ & _ & -> & _).
  rewrite !chars_app. apply in_or_app. right. apply in_or_app. left.
  apply in_or_app. right. now left.
Qed.

Lemma last_declaration (lines : list string) (properties : dict string)
    (k v : string) :
  dict_get (extract_loop lines properties) k = Some v <->
  (exists before line after,
      lines = (before ++ line :: after)%list /\ declares_plainly line k v
      /\ forall l' v', In l' after -> ~ declares_plainly l' k v')
  \/ ((forall l' v', In l' lines -> ~ declares_plainly l' k v')
      /\ dict_get properties k = Some v).
Proof.
  rewrite extract_loop_get. split.
  - intros [(b & l & a & E & Hd & Hn)|[Hn Hg]].
    + left. exists b, l, a. split; [exact E|].
      split; [now apply declares_plainly_declares|].
      intros l' v' Hin Hd'. apply (Hn l' v' Hin).
      now apply declares_plainly_declares.
    + right. split; [|exact Hg].
      intros l' v' Hin Hd'. apply (Hn l' v' Hin).
      now apply declares_plainly_declares.
  - intros [(b & l & a & E & Hd & Hn)|[Hn Hg]].
    + left. exists b, l, a. split; [exact E|].
      split; [now apply declares_plainly_declares|].
      intros l' v' Hin Hd'. apply (Hn l' v' Hin).
      now apply declares_plainly_declares.
    + right. split; [|exact Hg].
      intros l' v' Hin Hd'. apply (Hn l' v' Hin).
      now apply declares_plainly_declares.
Qed.

Lemma option_ext {A} (a b : option A) :
  (forall v, a = Some v <-> b = Some v) -> a = b.
Proof.
  intro H. destruct a as [x|].
  - symmetry. now apply (proj1 (H x)).
  - destruct b as [y|]; [|reflexivity]. now apply (proj2 (H y)).
Qed.

(** C8: for every property-file text, cut into its lines at the line
    boundaries, a key is bound to a value in the extracted mapping exactly
    when some line declares it (trimmed of white space, not empty, not
    starting with [#], cut at its first [=], key and value trimmed) and no
    later line declares the same key; every key comes from a line that
    contains [=] and declares it; and parsing the text once more, even
    into the mapping of the first parse, binds every key as before.  Lines
    and trimming are stated character by character. *)
Theorem extract_properties_declared (text : string) :
  exists lines,
    lines_of text lines
    /\ (forall lines', lines_of text lines' -> lines' = lines)
    /\ (forall k v,
          dict_get (extract_properties text) k = Some v <->
          exists before line after,
            lines = (before ++ line :: after)%list
            /\ declares_plainly line k v
            /\ forall l' v', In l' after -> ~ declares_plainly l' k v')
    /\ (forall k v,
          dict_get (extract_properties text) k = Some v ->
          exists line,
            In line lines /\ In "="%char (list_ascii_of_string line)
            /\ declares_plainly line k v)
    /\ (forall k,
          dict_get (extract_loop lines (extract_properties text)) k
          = dict_get (extract_properties text) k).
Proof.
  exists (splitlines text).
  assert (H : forall k v,
      dict_get (extract_properties text) k = Some v <->
      exists before line after,
        splitlines text = (before ++ line :: after)%list
        /\ declares_plainly line k v
        /\ forall l' v', In l' after -> ~ declares_plainly l' k v').
  { intros k v. unfold extract_properties. rewrite last_declaration.
    split; [|intro; now left].
    intros [Hl|[_ Hn]]; [exact Hl|discriminate]. }
  split; [apply splitlines_lines|].
  split; [intros lines' Hl; now apply lines_of_unique|].
  split; [exact H|]. split.
  - intros k v Hget.
    destruct (proj1 (H k v) Hget) as (before & line & after & Hs & Hd & _).
    exists line. split; [rewrite Hs; apply in_or_app; right; now left|].
    split; [now apply (declares_plainly_separator line k v)|exact Hd].
  - intro k.
    assert (E : forall v,
               dict_get (extract_loop (splitlines text)
                           (extract_properties text)) k = Some v
               <-> dict_get (extract_properties text) k = Some v).
    { intro v. rewrite last_declaration, H. split.
      - intros [Hl|[Hn Hg]]; [exact Hl|].
        destruct Hg as (b & l & a & Hs & Hd & _).
        elim (Hn l v); [|exact Hd]. rewrite Hs. apply in_or_app. right. now left.
      - intro Hl. now left. }
    now apply option_ext.
Qed.

End AuthValidatorFacts.

(** ** The security-compliance analysis *)

Module SecurityFacts.
Import Py SAPConnection Spec.

Lemma In_list_set (x : string) (l : list string) :
  In x (list_set l) <-> In x l.
Proof.
  induction l as [|y l IH]; simpl; [tauto|].
  rewrite filter_In, IH. split.
  - intros [H|[H _]]; auto.
  - intros [H|H]; [now left|].
    destruct (String.eqb y x) eqn:E.
    + left. now apply String.eqb_eq.
    + right. split; [exact H|]. simpl. rewrite ?E. reflexivity.
Qed.

Lemma fold_left_preserves {A B} (P : A -> Prop) (f : A -> B -> A)
    (l : list B) :
  (forall a b, P a -> P (f a b)) -> forall a, P a -> P (fold_left f l a).
Proof.
  intros Hf. induction l as [|b l IH]; simpl; auto.
Qed.

Lemma fold_left_establishes {A B} (P : A -> Prop) (f : A -> B -> A)
    (l : list B) (b0 : B) :
  (forall a b, P a -> P (f a b)) -> (forall a, P (f a b0)) -> In b0 l ->
  forall a, P (fold_left f l a).
Proof.
  intros Hf H0. induction l as [|b l IH]; simpl; [tauto|].
  intros [->|Hin] a.
  - apply fold_left_preserves; auto.
  - now apply IH.
Qed.

Ltac flag :=
  unfold flagged in *; simpl in *;
  repeat match goal with
         | H : _ /\ _ |- _ => destruct H
         | |- context [if ?b then _ else _] => destruct b; simpl
         | |- context [match ?x with _ => _ end] => destruct x; simpl
         end;
  try (split; [assumption || reflexivity | ]);
  rewrite ?in_app_iff; simpl; auto.

Lemma flagged_direct_method i r x :
  flagged i r -> flagged i (direct_method r x).
Proof. intro H. unfold direct_method. flag. Qed.

Lemma flagged_param_method i ps r x :
  flagged i r -> flagged i (param_method ps r x).
Proof. intro H. unfold param_method. flag. Qed.

Lemma flagged_flow_property i ps r kv :
  flagged i r -> flagged i (flow_property ps r kv).
Proof. intro H. unfold flow_property. destruct kv. flag. Qed.

Lemma flagged_property_method i r kv :
  flagged i r -> flagged i (property_method r kv).
Proof. intro H. unfold property_method. destruct kv. flag. Qed.

Lemma flagged_flow_check i ps ns r flow :
  flagged i r -> flagged i (flow_check ps ns r flow).
Proof.
  intro H. unfold flow_check. apply fold_left_preserves; [|exact H].
  intros; now apply flagged_flow_property.
Qed.

Lemma flagged_flow_patterns_loop i root ps ns patterns :
  forall r found, flagged i r ->
    flagged i (fst (flow_patterns_loop root ps ns patterns r found)).
Proof.
  induction patterns as [|p patterns IH]; intros r found H; simpl; [exact H|].
  destruct (ET.findall root p ns) as [[|flow flows]|]; try now apply IH.
  apply IH. apply fold_left_preserves.
  - intros; now apply flagged_flow_check.
  - now apply flagged_flow_check.
Qed.

Lemma flagged_flow_namespaces_loop i root ps sets :
  forall r, flagged i r -> flagged i (flow_namespaces_loop root ps sets r).
Proof.
  induction sets as [|ns sets IH]; intros r H; [exact H|].
  cbn [flow_namespaces_loop].
  pose proof (flagged_flow_patterns_loop i root ps ns message_flow_patterns
                r false H) as H1.
  destruct (flow_patterns_loop root ps ns message_flow_patterns r false)
    as [r1 found]; simpl in H1.
  destruct found; [exact H1|now apply IH].
Qed.

Lemma flagged_fallback_stage i content r :
  flagged i r -> flagged i (fallback_stage content r).
Proof. intro H. unfold fallback_stage. flag. Qed.

Lemma flagged_after_walk i content ps r :
  flagged i r -> flagged i (after_walk content ps r).
Proof.
  intro H. unfold after_walk. apply fold_left_preserves.
  - intros; now apply flagged_property_method.
  - now apply flagged_fallback_stage.
Qed.

Lemma flagged_deduplicate i r :
  flagged i r -> flagged i (deduplicate r).
Proof.
  intros [H1 H2]. split; [exact H1|]. simpl. now apply In_list_set.
Qed.

Lemma flagged_final_policy i content r :
  flagged i r -> flagged i (final_policy content r).
Proof. intro H. unfold final_policy. flag. Qed.

Lemma flagged_add_detail i r x : flagged i r -> flagged i (add_detail r x).
Proof. intro H. flag. Qed.

Lemma is_basic_truthy x : is_basic x = true -> truthy x = true.
Proof. destruct x; [discriminate|reflexivity]. Qed.

Lemma direct_method_flags r method :
  is_basic (strip method) = true ->
  flagged ("Direct Basic Authentication detected: '" ++ strip method ++ "'")
          (direct_method r method).
Proof.
  intro H. unfold direct_method. rewrite (is_basic_truthy _ H), H.
  split; [reflexivity|]. simpl. apply in_or_app. right. now left.
Qed.

Lemma direct_stage_flags content r pattern method :
  In pattern auth_patterns -> In method (Re.findall pattern content) ->
  is_basic (strip method) = true ->
  flagged ("Direct Basic Authentication detected: '" ++ strip method ++ "'")
          (direct_stage content r).
Proof.
  intros Hp Hm Hb. unfold direct_stage.
  apply fold_left_establishes with (b0 := pattern); [| |exact Hp].
  - intros a b Ha. apply fold_left_preserves; [|exact Ha].
    intros; now apply flagged_direct_method.
  - intro a. apply fold_left_establishes with (b0 := method); [| |exact Hm].
    + intros; now apply flagged_direct_method.
    + intro; now apply direct_method_flags.
Qed.

(** A flag raised by the first stages is still there in the value that
    [check_security_compliance] returns, whichever way it returns. *)
Lemma flagged_check fromstring content ps i :
  flagged i (param_stage content ps (direct_stage content initial_security)) ->
  flagged i (check_security_compliance fromstring content ps).
Proof.
  intro H. unfold check_security_compliance, detection_stages.
  destruct (fromstring content) as [root|msg|msg].
  - apply flagged_final_policy, flagged_deduplicate, flagged_after_walk.
    now apply flagged_flow_namespaces_loop.
  - apply flagged_final_policy, flagged_deduplicate, flagged_after_walk.
    now apply flagged_add_detail.
  - now apply flagged_add_detail.
Qed.

(** C3: whenever one of the direct patterns finds in the content a value
    that is, stripped and lower-cased, [basic] or [basic authentication],
    the value returned has [is_compliant = false] and its issues contain
    the direct-Basic issue that quotes the detected value. *)
Theorem direct_basic_is_flagged
    (fromstring : string -> ET.parse_outcome)
    (content : string) (properties : dict string)
    (pattern : Re.re) (method : string) :
  In pattern auth_patterns ->
  In method (Re.findall pattern content) ->
  is_basic (strip method) = true ->
  let r := check_security_compliance fromstring content properties in
  is_compliant r = false
  /\ issues r <> []
  /\ In ("Direct Basic Authentication detected: '" ++ strip method ++ "'")
        (issues r).
Proof.
  intros Hp Hm Hb r.
  assert (H : flagged
            ("Direct Basic Authentication detected: '" ++ strip method ++ "'")
            r).
  { apply flagged_check. unfold param_stage.
    apply fold_left_preserves.
    - intros a b Ha. apply fold_left_preserves; [|exact Ha].
      intros; now apply flagged_param_method.
    - now apply direct_stage_flags with (pattern := pattern) (method := method). }
  destruct H as [H1 H2]. repeat split; try assumption.
  intro E. rewrite E in H2. destruct H2.
Qed.

(** C4: when the detection stages run to their end with no detected
    method and the content matches the external-call pattern, the value
    returned has [is_compliant = false] and its issues contain the
    possible-missing-authentication finding. *)
Theorem missing_authentication_is_flagged
    (fromstring : string -> ET.parse_outcome)
    (content : string) (properties : dict string) (st : security_check) :
  detection_stages fromstring content properties = inr st ->
  detected_methods st = [] ->
  Re.search_i external_call_pattern content = true ->
  let r := check_security_compliance fromstring content properties in
  is_compliant r = false
  /\ In "Possible missing authentication for external services" (issues r).
Proof.
  intros Hst Hnone Hext r. subst r.
  unfold check_security_compliance. rewrite Hst.
  unfold final_policy. simpl. rewrite Hnone. simpl. rewrite Hext. simpl.
  split; [reflexivity|]. apply in_or_app. right. now left.
Qed.

(** A witness for C3: the value [Basic] under the first direct pattern. *)
Lemma direct_basic_is_flagged_witness :
  In (nth 0 auth_patterns Re.Eps) auth_patterns
  /\ In "Basic" (Re.findall (nth 0 auth_patterns Re.Eps) direct_basic_content)
  /\ is_basic (strip "Basic") = true
  /\ (let r := check_security_compliance rejecting_fromstring
                 direct_basic_content [] in
      is_compliant r = false
      /\ issues r <> []
      /\ In ("Direct Basic Authentication detected: '" ++ strip "Basic" ++ "'")
            (issues r)).
Proof.
  assert (H1 : In (nth 0 auth_patterns Re.Eps) auth_patterns)
    by (left; reflexivity).
  assert (H2 : In "Basic" (Re.findall (nth 0 auth_patterns Re.Eps)
                             direct_basic_content))
    by (vm_compute; left; reflexivity).
  assert (H3 : is_basic (strip "Basic") = true) by reflexivity.
  split; [exact H1|]. split; [exact H2|]. split; [exact H3|].
  exact (direct_basic_is_flagged rejecting_fromstring direct_basic_content []
           (nth 0 auth_patterns Re.Eps) "Basic" H1 H2 H3).
Defined.

(** A witness for C4: a text that names an endpoint and no method. *)
Lemma missing_authentication_is_flagged_witness :
  detection_stages rejecting_fromstring endpoint_only_content []
  = inr {| detected_methods := []; is_compliant := true; issues := [];
           details := ["XML parsing error during security check: syntax error: line 1, column 0"] |}
  /\ Re.search_i external_call_pattern endpoint_only_content = true
  /\ (let r := check_security_compliance rejecting_fromstring
                 endpoint_only_content [] in
      is_compliant r = false
      /\ In "Possible missing authentication for external services"
            (issues r)).
Proof.
  assert (H1 : detection_stages rejecting_fromstring endpoint_only_content []
               = inr {| detected_methods := []; is_compliant := true;
                        issues := [];
                        details := ["XML parsing error during security check: syntax error: line 1, column 0"] |})
    by (vm_compute; reflexivity).
  assert (H2 : Re.search_i external_call_pattern endpoint_only_content = true)
    by (vm_compute; reflexivity).
  split; [exact H1|]. split; [exact H2|].
  exact (missing_authentication_is_flagged rejecting_fromstring
           endpoint_only_content [] _ H1 eq_refl H2).
Defined.

(** C7: the resolution of [{{X}}] is the value of the first property, in
    the order of the mapping, whose key is [X], ends with [_X], or equals
    [X] up to case; the three tests are alternatives of one test and none
    has precedence. *)
Theorem resolution_takes_first_match
    (properties : dict string) (param_name v : string) :
  resolve_parameter properties param_name = Some v <->
  exists before k after,
    properties = (before ++ (k, v) :: after)%list
    /\ (k = param_name
        \/ endswith k ("_" ++ param_name) = true
        \/ lower k = lower param_name)
    /\ forall k' v', In (k', v') before ->
         k' <> param_name
         /\ endswith k' ("_" ++ param_name) = false
         /\ lower k' <> lower param_name.
Proof.
  assert (Hm : forall k, key_matches k param_name = true <->
                 (k = param_name \/ endswith k ("_" ++ param_name) = true
                  \/ lower k = lower param_name)).
  { intro k. unfold key_matches.
    rewrite !orb_true_iff, !String.eqb_eq. tauto. }
  assert (Hn : forall k, key_matches k param_name = false <->
                 (k <> param_name /\ endswith k ("_" ++ param_name) = false
                  /\ lower k <> lower param_name)).
  { intro k. unfold key_matches.
    rewrite !orb_false_iff, !String.eqb_neq. tauto. }
  induction properties as [|[k0 v0] rest IH]; simpl.
  - split; [discriminate|].
    intros (before & k & after & H & _). destruct before; discriminate.
  - destruct (key_matches k0 param_name) eqn:E.
    + split.
      * intro H; inversion H; subst.
        exists [], k0, rest.
        split; [reflexivity|]. split; [now apply Hm|]. intros ? ? [].
      * intros (before & k & after & H & Hk & Hb).
        destruct before as [|[k1 v1] before]; simpl in H; inversion H; subst.
        -- reflexivity.
        -- exfalso.
           match type of E with
           | key_matches ?x _ = true =>
               assert (key_matches x param_name = false) as C
           end.
           { apply Hn. eapply Hb. now left. }
           congruence.
    + rewrite IH. split.
      * intros (before & k & after & -> & Hk & Hb).
        exists ((k0, v0) :: before), k, after.
        split; [reflexivity|]. split; [exact Hk|].
        intros k' v' [H|H]; [inversion H; subst; now apply Hn|].
        now apply (Hb k' v').
      * intros (before & k & after & H & Hk & Hb).
        destruct before as [|[k1 v1] before]; simpl in H; inversion H; subst.
        -- apply Hm in Hk. congruence.
        -- exists before, k, after.
           split; [reflexivity|]. split; [exact Hk|].
           intros k' v' Hin. apply (Hb k' v'). now right.
Qed.

(** The claim C7 as worded fails on the code: with the
    properties [db_AUTH = OAuth] and [AUTH = Basic], in that order, [{{AUTH}}]
    resolves to [OAuth], although the key [AUTH] is there. *)
Lemma resolution_ignores_precedence :
  resolve_parameter [("db_AUTH", "OAuth"); ("AUTH", "Basic")] "AUTH"
    = Some "OAuth"
  /\ resolve_by_precedence [("db_AUTH", "OAuth"); ("AUTH", "Basic")] "AUTH"
    = Some "Basic"
  /\ ~ (forall properties param_name,
          resolve_parameter properties param_name
          = resolve_by_precedence properties param_name).
Proof.
  split; [reflexivity|]. split; [reflexivity|].
  intro H.
  specialize (H [("db_AUTH", "OAuth"); ("AUTH", "Basic")] "AUTH").
  vm_compute in H. discriminate.
Qed.

End SecurityFacts.

(** ** Structural extraction *)

Module StructureFacts.
Import Py SAPConnection Spec.

Lemma flag_fold {X} (f : Result * bool -> X -> Result * bool)
    (g : X -> bool) (l : list X) :
  (forall st x, snd (f st x) = snd st || g x) ->
  forall st, snd (fold_left f l st) = snd st || existsb g l.
Proof.
  intro Hf. induction l as [|x l IH]; intro st; simpl.
  - now rewrite orb_false_r.
  - now rewrite IH, Hf, orb_assoc.
Qed.

Lemma flag_fold_patterns {X} (f : string -> Result * bool -> X -> Result * bool)
    (g : X -> bool) (sel : string -> list X) (patterns : list string) :
  (forall p st x, snd (f p st x) = snd st || g x) ->
  forall st,
    snd (fold_left (fun st p => fold_left (f p) (sel p) st) patterns st)
    = snd st || existsb (fun p => existsb g (sel p)) patterns.
Proof.
  intro Hf. induction patterns as [|p patterns IH]; intro st; simpl.
  - now rewrite orb_false_r.
  - rewrite IH, (flag_fold (f p) g (sel p) (Hf p)), orb_assoc. reflexivity.
Qed.

Lemma check_subprocess_flag namespaces st s :
  snd (check_subprocess namespaces st s)
  = snd st || subprocess_counts namespaces s.
Proof.
  unfold check_subprocess, subprocess_counts.
  destruct (has_error_event s namespaces);
    destruct (error_activity_type (_extract_properties s namespaces));
    simpl; rewrite ?orb_true_r, ?orb_false_r; reflexivity.
Qed.

Lemma check_handler_flag pattern st h :
  snd (check_handler pattern st h) = snd st || true.
Proof. now rewrite orb_true_r. Qed.

Lemma summary_flag result b :
  has_proper_error_handling (error_handling_summary result b) = b.
Proof.
  unfold error_handling_summary.
  destruct (error_handling (set_has_proper_error_handling result b));
    destruct b; reflexivity.
Qed.

(** The flag after the structural extraction: some subprocess found
    counts, or some element is found by the error-handler paths. *)
Lemma extract_error_handling_flag root namespaces result :
  has_proper_error_handling (_extract_error_handling root namespaces result)
  = existsb (fun p => existsb (subprocess_counts namespaces)
                        (findall_or_nothing root p namespaces))
      subprocess_patterns
    || existsb (fun p => existsb (fun _ => true)
                           (findall_or_nothing root p namespaces))
         error_handler_patterns.
Proof.
  unfold _extract_error_handling. rewrite summary_flag.
  rewrite (flag_fold_patterns check_handler (fun _ => true)
             (fun p => findall_or_nothing root p namespaces)
             error_handler_patterns check_handler_flag).
  rewrite (flag_fold_patterns (fun _ => check_subprocess namespaces)
             (subprocess_counts namespaces)
             (fun p => findall_or_nothing root p namespaces)
             subprocess_patterns
             (fun _ => check_subprocess_flag namespaces)).
  reflexivity.
Qed.

Lemma existsb_found root namespaces patterns (g : ET.Element -> bool) :
  existsb (fun p => existsb g (findall_or_nothing root p namespaces)) patterns
  = true
  <-> exists e, found root namespaces patterns e /\ g e = true.
Proof.
  rewrite existsb_exists. split.
  - intros (p & Hp & H). apply existsb_exists in H as (e & He & Hg).
    exists e. split; [exists p; now split|exact Hg].
  - intros (e & (p & Hp & He) & Hg). exists p. split; [exact Hp|].
    apply existsb_exists. now exists e.
Qed.

(** C5: after [_extract_error_handling], [has_proper_error_handling] is
    true whenever the extraction found a subProcess that contains an
    error-event definition, or a subProcess with an [activityType]
    property whose value contains [error]; in a document where no
    errorHandler and no deadLetterQueue element is found it is true only
    then.  After [_extract_with_regex] it is true exactly when it was true
    before or the text matches the pattern of a subProcess followed by an
    errorEvent. *)
Theorem proper_error_handling_sources
    (root : ET.Element) (namespaces : dict string) (result : Result) :
  ((exists s, found root namespaces subprocess_patterns s
              /\ has_error_event s namespaces = true)
   \/ (exists s v, found root namespaces subprocess_patterns s
                   /\ error_activity_type
                        (_extract_properties s namespaces) = Some v)
   -> has_proper_error_handling
        (_extract_error_handling root namespaces result) = true)
  /\ ((forall h, ~ found root namespaces error_handler_patterns h) ->
      has_proper_error_handling
        (_extract_error_handling root namespaces result) = true ->
      (exists s, found root namespaces subprocess_patterns s
                 /\ has_error_event s namespaces = true)
      \/ (exists s v, found root namespaces subprocess_patterns s
                      /\ error_activity_type
                           (_extract_properties s namespaces) = Some v))
  /\ forall content,
       has_proper_error_handling (_extract_with_regex content result)
       = has_proper_error_handling result
         || Re.search error_subprocess_pattern content.
Proof.
  rewrite extract_error_handling_flag, orb_true_iff, !existsb_found.
  split; [|split].
  - intros [(s & Hs & Hc)|(s & v & Hs & Hc)]; left; exists s;
      (split; [exact Hs|]); unfold subprocess_counts; rewrite Hc;
      [reflexivity|apply orb_true_r].
  - intros Hnone [(s & Hs & Hc)|(h & Hh & _)].
    + unfold subprocess_counts in Hc. apply orb_true_iff in Hc as [Hc|Hc].
      * left. now exists s.
      * right.
        destruct (error_activity_type (_extract_properties s namespaces))
          as [v|] eqn:E; [|discriminate].
        now exists s, v.
    + now elim (Hnone h).
  - intro content. unfold _extract_with_regex.
    destruct (Re.search error_subprocess_pattern content);
      destruct (contains "<error-handling" content);
      destruct (contains "<dead-letter-queue" content);
      simpl; rewrite ?orb_true_r, ?orb_false_r; try reflexivity.
    all: generalize (Re.findall2 connection_pattern content); intro l;
      revert result; induction l as [|[a b] l IH]; intro result; simpl;
      [reflexivity|]; rewrite IH; unfold add_connection;
      destruct (String.eqb (lower a) "sender"); reflexivity.
Qed.

Lemma no_error_event_subprocess (root : ET.Element) :
  existsb (fun p => existsb (fun s => has_error_event s [])
                      (findall_or_nothing root p []))
    subprocess_patterns = false ->
  ~ error_event_subprocess_found root [].
Proof.
  intros H (s & Hs & He).
  assert (C : existsb (fun p => existsb (fun s => has_error_event s [])
                                  (findall_or_nothing root p []))
                subprocess_patterns = true).
  { apply existsb_found. now exists s. }
  congruence.
Qed.

(** The claim C5 as worded fails: the flag is set for a subProcess that
    is marked by its activity type and holds no error-event definition. *)
Lemma proper_error_handling_without_error_event :
  has_proper_error_handling
    (_extract_error_handling error_activity_only []
       _initialize_result_structure)
  = true
  /\ ~ error_event_subprocess_found error_activity_only [].
Proof.
  split; [vm_compute; reflexivity|].
  apply no_error_event_subprocess; vm_compute; reflexivity.
Qed.

End StructureFacts.

(** ** The namespace loop and the property files *)

Module PipelineFacts.
Import Py SAPConnection Spec.

Section Pipeline.
Variable fromstring : string -> ET.parse_outcome.
Variable zip_decode : string -> option Zip.archive.

(** C6: the namespace loop stops at the first dictionary under which the
    text parses, whether or not a participant or a process is found: when
    [ET.fromstring] returns a tree, only the first dictionary is tried and
    its extraction is kept; when it raises, all three are tried and the
    regular-expression extraction follows. *)
Theorem namespace_loop_stops_at_first_parse
    (t : OS.node) (content path : string) (result : Result) :
  process_content fromstring zip_decode t content path result =
  match fromstring content with
  | ET.Parsed root =>
      {| loop_result :=
           integrate_security_check fromstring zip_decode t content path
             (extract_structure root
                [("bpmn2", BPMN_MODEL); ("ifl", IFL_XSD); ("bpmndi", BPMN_DI)]
                result);
         tried :=
           [[("bpmn2", BPMN_MODEL); ("ifl", IFL_XSD); ("bpmndi", BPMN_DI)]];
         success := true |}
  | _ =>
      {| loop_result :=
           integrate_security_check fromstring zip_decode t content path
             (_extract_with_regex content result);
         tried := namespace_sets;
         success := false |}
  end.
Proof.
  unfold process_content, namespace_sets. cbn [namespace_loop].
  destruct (fromstring content); reflexivity.
Qed.

Lemma read_property_files_nothing (a : Zip.archive) (files : list string) :
  forall properties,
    fold_left (read_property_file a) files properties = properties.
Proof.
  induction files as [|f files IH]; intro properties; simpl; [reflexivity|].
  rewrite IH. unfold read_property_file.
  destruct (Zip.read a f); reflexivity.
Qed.

(** C2: [extract_properties] is not an attribute of the connection
    object, and the dictionary that [integrate_security_check] hands to
    [check_security_compliance] is empty, whatever the file tree and the
    archive hold. *)
Theorem no_properties_reach_the_check
    (t : OS.node) (content iflow_path : string) (result : Result) :
  mem "extract_properties" class_attributes = false
  /\ collected_properties zip_decode t iflow_path = []
  /\ integrate_security_check fromstring zip_decode t content iflow_path result
     = set_security result (check_security_compliance fromstring content []).
Proof.
  assert (H : collected_properties zip_decode t iflow_path = []).
  { unfold collected_properties.
    assert (Hz : zip_properties zip_decode t iflow_path = []).
    { unfold zip_properties.
      destruct (endswith iflow_path ".zip" && OS.exists_ t iflow_path);
        [|reflexivity].
      destruct (ZipFile zip_decode t iflow_path); [reflexivity|].
      apply read_property_files_nothing. }
    rewrite Hz. unfold directory_properties.
    destruct (OS.exists_ t (OS.join (OS.dirname iflow_path) "parameters.prop"));
      [|reflexivity].
    destruct (OS.read t (OS.join (OS.dirname iflow_path) "parameters.prop"));
      reflexivity. }
  split; [reflexivity|]. split; [exact H|].
  unfold integrate_security_check. now rewrite H.
Qed.

End Pipeline.

(** The claim C6 as worded fails: the loop stops under the first
    dictionary for a document in which no participant and no process is
    found. *)
Lemma namespace_loop_stops_without_signal :
  ~ (forall fromstring zip_decode t content path,
        let st :=
          process_content fromstring zip_decode t content path
            _initialize_result_structure in
        success st = true -> structural_signal (loop_result st)).
Proof.
  intro H.
  specialize (H (fun _ => ET.Parsed (ET.Elem "definitions" [] None []))
                (fun _ => None) (OS.Dir []) "<definitions/>" "flow.iflw").
  vm_compute in H.
  destruct (H eq_refl) as [C|[C|C]]; now apply C.
Qed.

End PipelineFacts.

(** ** The file tree *)

Module OSFacts.
Import Py OS Spec PyFacts.

Lemma keeps_refl c t : keeps_files_outside c t t.
Proof. intros q d _ H. exact H. Qed.

Lemma keeps_trans c t0 t1 t2 :
  keeps_files_outside c t0 t1 -> keeps_files_outside c t1 t2 ->
  keeps_files_outside c t0 t2.
Proof. intros H1 H2 q d Hq H. apply H2, H1; assumption. Qed.

Lemma dict_get_remove {V} (d : dict V) (k k' : string) :
  dict_get (dict_remove d k) k' =
  if String.eqb k k' then None else dict_get d k'.
Proof.
  induction d as [|[k0 v0] d IH]; simpl.
  - now destruct (String.eqb k k').
  - destruct (String.eqb k0 k) eqn:E0; simpl.
    + apply String.eqb_eq in E0; subst k0. rewrite IH.
      destruct (String.eqb k k'); reflexivity.
    + rewrite IH. destruct (String.eqb k0 k') eqn:E1; [|reflexivity].
      apply String.eqb_eq in E1; subst k0.
      now rewrite String.eqb_sym, E0.
Qed.

Lemma lookup_cons es c q :
  lookup (Dir es) (c :: q) =
  match dict_get es c with Some n => lookup n q | None => None end.
Proof. reflexivity. Qed.

Lemma lookup_prefix t c r n :
  lookup t (c ++ r)%list = Some n -> exists m, lookup t c = Some m.
Proof.
  revert t. induction c as [|x c IH]; intros t H.
  - now exists t.
  - destruct t as [d|es]; [discriminate|]. simpl in *.
    destruct (dict_get es x); [now apply IH|discriminate].
Qed.

Lemma mkdirs_dir t c t' : mkdirs t c = Some t' -> exists es, t' = Dir es.
Proof.
  destruct t as [d|es]; [destruct c; discriminate|].
  destruct c as [|x c]; simpl.
  - intro H; inversion H; now exists es.
  - destruct (mkdirs (child es x) c); [|discriminate].
    intro H; inversion H. now eexists.
Qed.

Lemma child_of_get es x n : dict_get es x = Some n -> child es x = n.
Proof. unfold child. now intros ->. Qed.

Lemma mkdirs_keeps_file c :
  forall t t' q d,
    mkdirs t c = Some t' ->
    lookup t q = Some (File d) -> lookup t' q = Some (File d).
Proof.
  induction c as [|x c IH]; intros t t' q d Hm Hl.
  - destruct t; simpl in Hm; [discriminate|]. now inversion Hm; subst.
  - destruct t as [d0|es]; [discriminate|]. simpl in Hm.
    destruct (mkdirs (child es x) c) as [n'|] eqn:E; [|discriminate].
    inversion Hm; subst t'; clear Hm.
    destruct q as [|y q]; [discriminate|].
    rewrite lookup_cons in *. rewrite dict_get_set.
    destruct (String.eqb x y) eqn:Exy; [|exact Hl].
    apply String.eqb_eq in Exy; subst y.
    destruct (dict_get es x) as [n|] eqn:G; [|discriminate].
    rewrite (child_of_get _ _ _ G) in E. now apply (IH n).
Qed.

Lemma mkdirs_keeps_dir c :
  forall t t' q, mkdirs t c = Some t' -> is_dir t q -> is_dir t' q.
Proof.
  induction c as [|x c IH]; intros t t' q Hm Hl.
  - destruct t; simpl in Hm; [discriminate|]. now inversion Hm; subst.
  - destruct t as [d0|es]; [discriminate|]. simpl in Hm.
    destruct (mkdirs (child es x) c) as [n'|] eqn:E; [|discriminate].
    inversion Hm; subst t'; clear Hm.
    destruct q as [|y q]; [now eexists|].
    unfold is_dir in *. rewrite lookup_cons in *. rewrite dict_get_set.
    destruct (String.eqb x y) eqn:Exy; [|exact Hl].
    apply String.eqb_eq in Exy; subst y.
    destruct (dict_get es x) as [n|] eqn:G; [|destruct Hl; discriminate].
    rewrite (child_of_get _ _ _ G) in E. now apply (IH n).
Qed.

Lemma mkdirs_makes_dir c :
  forall t t', mkdirs t c = Some t' -> is_dir t' c.
Proof.
  induction c as [|x c IH]; intros t t' Hm.
  - destruct (mkdirs_dir _ _ _ Hm) as [es ->]. now exists es.
  - destruct t as [d0|es]; [discriminate|]. simpl in Hm.
    destruct (mkdirs (child es x) c) as [n'|] eqn:E; [|discriminate].
    inversion Hm; subst t'; clear Hm.
    unfold is_dir. rewrite lookup_cons, dict_get_set, String.eqb_refl.
    now apply (IH (child es x)).
Qed.

Lemma write_at_keeps_file c :
  forall t t' data q d,
    write_at t c data = Some t' -> q <> c ->
    lookup t q = Some (File d) -> lookup t' q = Some (File d).
Proof.
  induction c as [|x c IH]; intros t t' data q d Hw Hq Hl.
  - destruct t; discriminate.
  - destruct t as [d0|es]; [discriminate|].
    destruct q as [|y q]; [discriminate|].
    rewrite lookup_cons in Hl.
    destruct c as [|x2 c].
    + simpl in Hw.
      assert (Ht : t' = Dir (dict_set es x (File data))).
      { destruct (dict_get es x) as [[?|?]|]; now inversion Hw. }
      subst t'. rewrite lookup_cons, dict_get_set.
      destruct (String.eqb x y) eqn:Exy; [|exact Hl].
      apply String.eqb_eq in Exy; subst y.
      destruct q as [|z q]; [now elim Hq|].
      destruct (dict_get es x) as [[?|?]|]; discriminate.
    + change (write_at (Dir es) (x :: x2 :: c) data)
        with (match write_at (child es x) (x2 :: c) data with
              | Some n' => Some (Dir (dict_set es x n'))
              | None => None
              end) in Hw.
      destruct (write_at (child es x) (x2 :: c) data) as [n'|] eqn:E;
        [|discriminate].
      inversion Hw; subst t'; clear Hw.
      rewrite lookup_cons, dict_get_set.
      destruct (String.eqb x y) eqn:Exy; [|exact Hl].
      apply String.eqb_eq in Exy; subst y.
      destruct (dict_get es x) as [n|] eqn:G; [|discriminate].
      rewrite (child_of_get _ _ _ G) in E.
      apply (IH n n' data q d E); [|exact Hl].
      intro C. apply Hq. now rewrite C.
Qed.

Lemma write_at_keeps_dir c :
  forall t t' data q,
    write_at t c data = Some t' -> is_dir t q -> is_dir t' q.
Proof.
  induction c as [|x c IH]; intros t t' data q Hw Hl.
  - destruct t; discriminate.
  - destruct t as [d0|es]; [discriminate|].
    destruct q as [|y q].
    { destruct c as [|x2 c].
      - simpl in Hw. destruct (dict_get es x) as [[?|?]|];
          inversion Hw; now eexists.
      - change (write_at (Dir es) (x :: x2 :: c) data)
          with (match write_at (child es x) (x2 :: c) data with
                | Some n' => Some (Dir (dict_set es x n'))
                | None => None
                end) in Hw.
        destruct (write_at (child es x) (x2 :: c) data);
          inversion Hw; now eexists. }
    unfold is_dir in *. rewrite lookup_cons in Hl.
    destruct c as [|x2 c].
    + simpl in Hw.
      destruct (String.eqb x y) eqn:Exy.
      * apply String.eqb_eq in Exy; subst y.
        destruct (dict_get es x) as [[d1|es1]|] eqn:G.
        -- destruct q; destruct Hl; discriminate.
        -- discriminate.
        -- destruct Hl; discriminate.
      * assert (Ht : t' = Dir (dict_set es x (File data))).
        { destruct (dict_get es x) as [[?|?]|]; now inversion Hw. }
        subst t'. now rewrite lookup_cons, dict_get_set, Exy.
    + change (write_at (Dir es) (x :: x2 :: c) data)
        with (match write_at (child es x) (x2 :: c) data with
              | Some n' => Some (Dir (dict_set es x n'))
              | None => None
              end) in Hw.
      destruct (write_at (child es x) (x2 :: c) data) as [n'|] eqn:E;
        [|discriminate].
      inversion Hw; subst t'; clear Hw.
      rewrite lookup_cons, dict_get_set.
      destruct (String.eqb x y) eqn:Exy; [|exact Hl].
      apply String.eqb_eq in Exy; subst y.
      destruct (dict_get es x) as [n|] eqn:G; [|destruct Hl; discriminate].
      rewrite (child_of_get _ _ _ G) in E.
      now apply (IH n n' data q E).
Qed.

Lemma remove_dir_keeps_file c :
  forall t t' q d,
    remove_dir t c = Some t' -> ~ is_prefix c q ->
    lookup t q = Some (File d) -> lookup t' q = Some (File d).
Proof.
  induction c as [|x c IH]; intros t t' q d Hr Hq Hl.
  - destruct t; discriminate.
  - destruct t as [d0|es]; [discriminate|].
    destruct q as [|y q]; [discriminate|].
    rewrite lookup_cons in Hl.
    destruct c as [|x2 c].
    + simpl in Hr.
      destruct (dict_get es x) as [[?|es1]|]; try discriminate.
      inversion Hr; subst t'; clear Hr.
      rewrite lookup_cons, dict_get_remove.
      destruct (String.eqb x y) eqn:Exy; [|exact Hl].
      apply String.eqb_eq in Exy; subst y.
      exfalso. apply Hq. now exists q.
    + change (remove_dir (Dir es) (x :: x2 :: c))
        with (match dict_get es x with
              | Some n' =>
                  match remove_dir n' (x2 :: c) with
                  | Some n'' => Some (Dir (dict_set es x n''))
                  | None => None
                  end
              | None => None
              end) in Hr.
      destruct (dict_get es x) as [n|] eqn:G; [|discriminate].
      destruct (remove_dir n (x2 :: c)) as [n''|] eqn:E; [|discriminate].
      inversion Hr; subst t'; clear Hr.
      rewrite lookup_cons, dict_get_set.
      destruct (String.eqb x y) eqn:Exy; [|exact Hl].
      apply String.eqb_eq in Exy; subst y. rewrite G in Hl.
      apply (IH n n'' q d E); [|exact Hl].
      intros [r Hr]. apply Hq. exists r. simpl. now rewrite Hr.
Qed.

Lemma remove_dir_removes c :
  forall t t', remove_dir t c = Some t' -> lookup t' c = None.
Proof.
  induction c as [|x c IH]; intros t t' Hr.
  - destruct t; discriminate.
  - destruct t as [d0|es]; [discriminate|].
    destruct c as [|x2 c].
    + simpl in Hr.
      destruct (dict_get es x) as [[?|es1]|]; try discriminate.
      inversion Hr; subst t'.
      now rewrite lookup_cons, dict_get_remove, String.eqb_refl.
    + change (remove_dir (Dir es) (x :: x2 :: c))
        with (match dict_get es x with
              | Some n' =>
                  match remove_dir n' (x2 :: c) with
                  | Some n'' => Some (Dir (dict_set es x n''))
                  | None => None
                  end
              | None => None
              end) in Hr.
      destruct (dict_get es x) as [n|] eqn:G; [|discriminate].
      destruct (remove_dir n (x2 :: c)) as [n''|] eqn:E; [|discriminate].
      inversion Hr; subst t'.
      rewrite lookup_cons, dict_get_set, String.eqb_refl.
      now apply (IH n).
Qed.

Lemma remove_dir_succeeds c :
  forall t, c <> [] -> is_dir t c -> exists t', remove_dir t c = Some t'.
Proof.
  induction c as [|x c IH]; intros t Hc [es0 Hl]; [now elim Hc|].
  destruct t as [d0|es]; [discriminate|].
  rewrite lookup_cons in Hl.
  destruct (dict_get es x) as [n|] eqn:G; [|discriminate].
  destruct c as [|x2 c].
  - simpl in *. rewrite G. inversion Hl; subst. now eexists.
  - change (remove_dir (Dir es) (x :: x2 :: c))
      with (match dict_get es x with
            | Some n' =>
                match remove_dir n' (x2 :: c) with
                | Some n'' => Some (Dir (dict_set es x n''))
                | None => None
                end
            | None => None
            end).
    rewrite G.
    destruct (IH n) as [n'' ->]; [discriminate|now exists es0|].
    now eexists.
Qed.

(** A path that holds a character other than the separator has a
    component. *)
Lemma components_nonempty (x y : string) (c : ascii) :
  Ascii.eqb c "/" = false -> components (x ++ String c y) <> [].
Proof.
  intro Hc. unfold components.
  induction x as [|a x IH]; simpl.
  - rewrite Hc. destruct (split "/" y); simpl; discriminate.
  - destruct (Ascii.eqb a "/"); simpl; [exact IH|].
    destruct (split "/" (x ++ String c y)); simpl; discriminate.
Qed.

End OSFacts.

(** ** The ZIP-processing path *)

Module ZipFacts.
Import Py OS SAPConnection Spec PyFacts OSFacts.

Lemma components_app (a b : string) :
  components b <> [] -> components (a ++ b) <> [].
Proof.
  intro Hb. unfold components in *.
  induction a as [|c a IH]; simpl; [exact Hb|].
  destruct (Ascii.eqb c "/"); simpl; [exact IH|].
  destruct (split "/" (a ++ b)); simpl; discriminate.
Qed.

Lemma truthy_app (a b : string) : truthy b = true -> truthy (a ++ b) = true.
Proof. destruct a; [auto|reflexivity]. Qed.

Lemma scratch_directory_named (w : World) (file_path : string) :
  truthy (scratch_directory w file_path) = true
  /\ components (scratch_directory w file_path) <> [].
Proof.
  unfold scratch_directory, join.
  assert (Hc : components ("extracted_" ++ unique_id w) <> []).
  { apply (components_nonempty "" ("xtracted_" ++ unique_id w) "e").
    reflexivity. }
  change (startswith ("extracted_" ++ unique_id w) "/") with false.
  cbv iota.
  destruct (negb (truthy (dirname file_path))
            || endswith (dirname file_path) "/").
  - split; [now apply truthy_app|now apply components_app].
  - split; [now apply truthy_app|].
    apply components_app. now apply (components_app "/").
Qed.

Lemma extract_keeps (a : Zip.archive) (name path : string) (t : node) :
  keeps_files_outside (components path) t (fst (Zip.extract a name path t))
  /\ forall q, is_dir t q -> is_dir (fst (Zip.extract a name path t)) q.
Proof.
  unfold Zip.extract.
  destruct (Zip.getinfo a name) as [m|]; [|split; [apply keeps_refl|auto]].
  destruct (endswith name "/").
  - destruct (mkdirs t (components path ++ Zip.arcname name)) as [t1|] eqn:E;
      simpl; [|split; [apply keeps_refl|auto]].
    split.
    + intros q d _ H. now apply (mkdirs_keeps_file _ _ _ _ _ E).
    + intros q H. now apply (mkdirs_keeps_dir _ _ _ _ E).
  - destruct (mkdirs t (removelast (components path ++ Zip.arcname name)))
      as [t1|] eqn:E; simpl; [|split; [apply keeps_refl|auto]].
    assert (H1 : keeps_files_outside (components path) t t1
                 /\ forall q, is_dir t q -> is_dir t1 q).
    { split.
      - intros q d _ H. now apply (mkdirs_keeps_file _ _ _ _ _ E).
      - intros q H. now apply (mkdirs_keeps_dir _ _ _ _ E). }
    destruct (Zip.readable m); [|exact H1].
    destruct (write_at t1 (components path ++ Zip.arcname name) (Zip.data m))
      as [t2|] eqn:W; simpl; [|exact H1].
    destruct H1 as [K D]. split.
    + intros q d Hq H.
      apply (write_at_keeps_file _ _ _ _ _ _ W).
      * intro C. apply Hq. subst q. now eexists.
      * now apply K.
    + intros q H. apply (write_at_keeps_dir _ _ _ _ _ W). now apply D.
Qed.

Lemma extract_file_keeps (a : Zip.archive) (unzip_dir : string)
    (t : node) (result : Result) (file : string) :
  keeps_files_outside (components unzip_dir) t
    (fst (extract_file a unzip_dir (t, result) file))
  /\ forall q, is_dir t q ->
       is_dir (fst (extract_file a unzip_dir (t, result) file)) q.
Proof.
  destruct (extract_keeps a file unzip_dir t) as [K D].
  unfold extract_file.
  destruct (Zip.extract a file unzip_dir t) as [t1 [|]]; now split.
Qed.

Lemma extract_files_keep (a : Zip.archive) (unzip_dir : string)
    (files : list string) :
  forall t result,
    keeps_files_outside (components unzip_dir) t
      (fst (fold_left (extract_file a unzip_dir) files (t, result)))
    /\ forall q, is_dir t q ->
         is_dir (fst (fold_left (extract_file a unzip_dir) files (t, result)))
                q.
Proof.
  induction files as [|f files IH]; intros t result; cbn [fold_left].
  - split; [apply keeps_refl|auto].
  - destruct (extract_file_keeps a unzip_dir t result f) as [K D].
    destruct (extract_file a unzip_dir (t, result) f) as [t1 result1].
    simpl in K, D. destruct (IH t1 result1) as [K1 D1]. split.
    + now apply keeps_trans with t1.
    + intros q H. now apply D1, D.
Qed.

Section Processing.
Variable fromstring : string -> ET.parse_outcome.
Variable zip_decode : string -> option Zip.archive.

(** After the [try] block the files outside the extraction directory are
    as before; either nothing was created, or the extraction directory is
    a directory. *)
Lemma unzip_and_process_keeps (t : node) (file_path unzip_dir : string)
    (result : Result) :
  let t2 := fst (unzip_and_process fromstring zip_decode t file_path
                   unzip_dir result) in
  keeps_files_outside (components unzip_dir) t t2
  /\ (t2 = t \/ is_dir t2 (components unzip_dir)).
Proof.
  unfold unzip_and_process, makedirs.
  destruct (mkdirs t (components unzip_dir)) as [t1|] eqn:E; cbn [fst].
  2: { split; [apply keeps_refl|now left]. }
  assert (K1 : keeps_files_outside (components unzip_dir) t t1).
  { intros q d _ H. now apply (mkdirs_keeps_file _ _ _ _ _ E). }
  pose proof (mkdirs_makes_dir _ _ _ E) as D1.
  destruct (ZipFile zip_decode t1 file_path) as [msg|a]; cbn [fst].
  { split; [exact K1|now right]. }
  destruct (extract_files_keep a unzip_dir
              (filter (fun file => any_in known_patterns file)
                      (Zip.namelist a)) t1 result) as [K2 D2].
  destruct (fold_left (extract_file a unzip_dir)
              (filter (fun file => any_in known_patterns file)
                      (Zip.namelist a)) (t1, result)) as [t2 result1].
  cbn [fst] in *. split.
  - now apply keeps_trans with t1.
  - right. now apply D2.
Qed.

(** The [try] block leaves the tree as it was when the extraction
    directory cannot be created, and leaves a directory under its name
    when it can. *)
Lemma unzip_and_process_creates (t : node) (file_path unzip_dir : string)
    (result : Result) :
  let t2 := fst (unzip_and_process fromstring zip_decode t file_path
                   unzip_dir result) in
  match OS.makedirs t unzip_dir with
  | None => t2 = t
  | Some _ => is_dir t2 (components unzip_dir)
  end.
Proof.
  unfold unzip_and_process, makedirs.
  destruct (mkdirs t (components unzip_dir)) as [t1|] eqn:E; cbn [fst];
    [|reflexivity].
  pose proof (mkdirs_makes_dir _ _ _ E) as D1.
  destruct (ZipFile zip_decode t1 file_path) as [msg|a]; cbn [fst];
    [exact D1|].
  destruct (extract_files_keep a unzip_dir
              (filter (fun file => any_in known_patterns file)
                      (Zip.namelist a)) t1 result) as [_ D2].
  destruct (fold_left (extract_file a unzip_dir)
              (filter (fun file => any_in known_patterns file)
                      (Zip.namelist a)) (t1, result)) as [t2 result1].
  cbn [fst] in *. now apply D2.
Qed.

(** C9: when the name of the extraction directory is not taken,
    [_process_zip_file] returns on every path of its [try] block (archive
    processed, archive unreadable, directory not creatable) and, if
    [shutil.rmtree] does not raise, leaves no extraction directory behind;
    if [shutil.rmtree] raises, the exception is caught and the directory
    remains exactly when it had been created; in both cases every file
    that existed, the archive among them, still holds the same data. *)
Theorem scratch_directory_is_removed
    (w : World) (file_path : string) (result : Result) :
  OS.exists_ (fs w) (scratch_directory w file_path) = false ->
  let w' := fst (_process_zip_file fromstring zip_decode w file_path result) in
  (rmtree_raises w = false ->
   OS.exists_ (fs w') (scratch_directory w file_path) = false)
  /\ (rmtree_raises w = true ->
      (OS.exists_ (fs w') (scratch_directory w file_path) = true
       <-> OS.makedirs (fs w) (scratch_directory w file_path) <> None))
  /\ (forall q bytes,
        OS.read (fs w) q = Some bytes -> OS.read (fs w') q = Some bytes).
Proof.
  intros Hfresh.
  destruct (scratch_directory_named w file_path) as [Htruthy Hne].
  assert (Hnone : lookup (fs w) (components (scratch_directory w file_path))
                  = None).
  { unfold exists_ in Hfresh. rewrite Htruthy in Hfresh. simpl in Hfresh.
    destruct (lookup (fs w) (components (scratch_directory w file_path)));
      [discriminate|reflexivity]. }
  unfold _process_zip_file.
  pose proof (unzip_and_process_keeps (fs w) file_path
                (scratch_directory w file_path) result) as [K D].
  pose proof (unzip_and_process_creates (fs w) file_path
                (scratch_directory w file_path) result) as C.
  destruct (unzip_and_process fromstring zip_decode (fs w) file_path
              (scratch_directory w file_path) result) as [t2 outcome].
  simpl in K, D, C. cbv zeta. simpl fst.
  assert (Hfiles : forall t', keeps_files_outside
                     (components (scratch_directory w file_path)) t2 t' ->
            forall q bytes, OS.read (fs w) q = Some bytes ->
                            OS.read t' q = Some bytes).
  { intros t' K' q bytes. unfold OS.read. intro H.
    destruct (lookup (fs w) (components q)) as [[d|es]|] eqn:L;
      try discriminate.
    inversion H; subst d.
    rewrite (K' _ bytes); [reflexivity| |].
    - intros [r Hr]. rewrite Hr in L.
      destruct (lookup_prefix _ _ _ _ L) as [m Hm]. congruence.
    - apply K; [|exact L].
      intros [r Hr]. rewrite Hr in L.
      destruct (lookup_prefix _ _ _ _ L) as [m Hm]. congruence. }
  unfold cleanup. simpl fs.
  destruct (exists_ t2 (scratch_directory w file_path)) eqn:Ex.
  - destruct D as [->|D].
    { unfold exists_ in Ex. rewrite Htruthy, Hnone in Ex. discriminate. }
    assert (Hmk : OS.makedirs (fs w) (scratch_directory w file_path) <> None).
    { destruct (OS.makedirs (fs w) (scratch_directory w file_path));
        [discriminate|].
      subst t2. unfold exists_ in Ex. rewrite Htruthy, Hnone in Ex.
      discriminate. }
    unfold rmtree. simpl.
    destruct (rmtree_raises w) eqn:Hrm.
    + simpl. split; [discriminate|]. split.
      * intros _. split; [intros _; exact Hmk|intros _; exact Ex].
      * apply Hfiles, keeps_refl.
    + destruct (remove_dir_succeeds _ t2 Hne D) as [t' Hr].
      rewrite Hr. simpl. split; [|split; [discriminate|]].
      * intros _. unfold exists_.
        now rewrite (remove_dir_removes _ _ _ Hr), andb_false_r.
      * apply Hfiles. intros q d Hq H.
        now apply (remove_dir_keeps_file _ _ _ _ _ Hr).
  - simpl. split; [intros _; exact Ex|]. split.
    + intros _. rewrite Ex. split; [discriminate|].
      intro Hmk. exfalso.
      destruct (OS.makedirs (fs w) (scratch_directory w file_path));
        [|now elim Hmk].
      destruct C as [es Hes]. unfold exists_ in Ex.
      rewrite Htruthy, Hes in Ex. discriminate.
    + apply Hfiles, keeps_refl.
Qed.

Lemma endswith_truthy (s suf : string) :
  truthy suf = true -> endswith s suf = true -> truthy s = true.
Proof.
  destruct s; [|reflexivity]. destruct suf; [discriminate|].
  intros _ H. discriminate.
Qed.

(** C10: for an existing file whose name ends in [.zip] and whose bytes
    [zipfile.ZipFile] rejects, [get_iflow_content] returns the result
    dictionary with its [error] key set; the function returns a value on
    every input, since each exception of the processing is caught inside
    it. *)
Theorem corrupt_archive_sets_error
    (current_iflow_path : option string) (w : World)
    (file_path bytes : string) :
  endswith file_path ".zip" = true ->
  OS.read (fs w) file_path = Some bytes ->
  zip_decode bytes = None ->
  exists r msg,
    snd (get_iflow_content fromstring zip_decode current_iflow_path w
           (Some file_path)) = Report r
    /\ error r = Some ("Extraction error: " ++ msg)
    /\ top_level_error (Report r) <> None.
Proof.
  intros Hzip Hread Hbad.
  pose proof (endswith_truthy file_path ".zip" eq_refl Hzip) as Htruthy.
  unfold get_iflow_content. simpl resolved_truthy. rewrite Htruthy.
  assert (Hex : OS.exists_ (fs w) file_path = true).
  { unfold OS.exists_, OS.read in *. rewrite Htruthy.
    destruct (lookup (fs w) (components file_path)); [reflexivity|discriminate]. }
  rewrite Hex, Hzip. simpl negb. cbv iota.
  unfold _process_zip_file, unzip_and_process, makedirs.
  destruct (mkdirs (fs w) (components (scratch_directory w file_path)))
    as [t1|] eqn:E.
  - assert (Hr1 : OS.read t1 file_path = Some bytes).
    { unfold OS.read in *.
      destruct (lookup (fs w) (components file_path)) as [[d|es]|] eqn:L;
        try discriminate.
      now rewrite (mkdirs_keeps_file _ _ _ _ _ E L). }
    unfold ZipFile. rewrite Hr1, Hbad. simpl.
    eexists _, _. split; [reflexivity|]. split; [reflexivity|discriminate].
  - simpl. eexists _, _. split; [reflexivity|].
    split; [reflexivity|discriminate].
Qed.

End Processing.

(** C1: on the archive of the scenario the pipeline reports
    [security_compliant = true] and no issue: the properties of
    [parameters.prop] never reach the analysis, which sees an unresolved
    parameter.  Handed the property, the same analysis gives the verdict
    that the scenario expects. *)
Theorem basic_parameter_scenario_passes_unnoticed :
  (exists r,
      snd (get_iflow_content sample_fromstring sample_zip_decode None
             (sample_world false) (Some "downloads/flow.zip")) = Report r
      /\ security_compliant r = true
      /\ security_issues r = []
      /\ In "Could not resolve parameter: 'AUTH_METHOD'" (security_details r))
  /\ (let s := check_security_compliance sample_fromstring sample_iflw
                 (AuthValidator.extract_properties "AUTH_METHOD=Basic") in
      is_compliant s = false
      /\ In "Basic Authentication detected via parameter: 'AUTH_METHOD' = 'Basic'"
            (issues s)).
Proof.
  split.
  - eexists. split; [vm_compute; reflexivity|].
    split; [reflexivity|]. split; [reflexivity|]. simpl. tauto.
  - vm_compute. split; [reflexivity|]. tauto.
Qed.

(** The claim C9 as worded fails: when [shutil.rmtree] raises, the
    extraction directory is still there after the call. *)
Lemma scratch_directory_persists_when_rmtree_raises :
  ~ (forall fromstring zip_decode w file_path result,
        OS.exists_ (fs w) (scratch_directory w file_path) = false ->
        OS.exists_
          (fs (fst (_process_zip_file fromstring zip_decode w file_path
                      result)))
          (scratch_directory w file_path) = false).
Proof.
  intro H.
  specialize (H sample_fromstring sample_zip_decode (sample_world true)
                "downloads/flow.zip" _initialize_result_structure eq_refl).
  vm_compute in H. discriminate.
Qed.

(** A witness for C9: the sample archive, with [shutil.rmtree] working. *)
Lemma scratch_directory_is_removed_witness :
  OS.exists_ (fs (sample_world false))
    (scratch_directory (sample_world false) "downloads/flow.zip") = false
  /\ (let w' := fst (_process_zip_file sample_fromstring sample_zip_decode
                       (sample_world false) "downloads/flow.zip"
                       _initialize_result_structure) in
      (rmtree_raises (sample_world false) = false ->
       OS.exists_ (fs w')
         (scratch_directory (sample_world false) "downloads/flow.zip") = false)
      /\ (rmtree_raises (sample_world false) = true ->
          (OS.exists_ (fs w')
             (scratch_directory (sample_world false) "downloads/flow.zip")
           = true
           <-> OS.makedirs (fs (sample_world false))
                 (scratch_directory (sample_world false) "downloads/flow.zip")
               <> None))
      /\ (forall q bytes,
            OS.read (fs (sample_world false)) q = Some bytes ->
            OS.read (fs w') q = Some bytes)).
Proof.
  split; [reflexivity|].
  apply (scratch_directory_is_removed sample_fromstring sample_zip_decode
           (sample_world false) "downloads/flow.zip"
           _initialize_result_structure).
  reflexivity.
Defined.

Lemma corrupt_archive_sets_error_witness :
  endswith "downloads/truncated.zip" ".zip" = true
  /\ OS.read (fs (sample_world false)) "downloads/truncated.zip" = Some "PK"
  /\ sample_zip_decode "PK" = None
  /\ exists r msg,
       snd (get_iflow_content sample_fromstring sample_zip_decode None
              (sample_world false) (Some "downloads/truncated.zip")) = Report r
       /\ error r = Some ("Extraction error: " ++ msg)
       /\ top_level_error (Report r) <> None.
Proof.
  split; [reflexivity|]. split; [reflexivity|]. split; [reflexivity|].
  apply (corrupt_archive_sets_error sample_fromstring sample_zip_decode None
           (sample_world false) "downloads/truncated.zip" "PK");
    reflexivity.
Defined.

End ZipFacts.

(** ** More on the security-compliance analysis *)

Module SecurityMore.
Import Py SAPConnection Spec Vocabulary SecurityFacts.

(** *** The verdict and the issues *)

Lemma app_one_not_nil {A} (l : list A) (x : A) : (l ++ [x])%list <> [].
Proof. destruct l; discriminate. Qed.

Lemma verdict_issue r x :
  verdict_matches_issues (add_issue (set_noncompliant r) x).
Proof.
  split; simpl; [discriminate|]. intro H. now apply app_one_not_nil in H.
Qed.

Lemma verdict_method r x :
  verdict_matches_issues r -> verdict_matches_issues (add_method r x).
Proof. exact (fun H => H). Qed.

Lemma verdict_detail r x :
  verdict_matches_issues r -> verdict_matches_issues (add_detail r x).
Proof. exact (fun H => H). Qed.

Ltac verdict :=
  repeat match goal with
         | |- verdict_matches_issues (add_issue (set_noncompliant _) _) =>
             apply verdict_issue
         | |- verdict_matches_issues (add_method _ _) => apply verdict_method
         | |- verdict_matches_issues (add_detail _ _) => apply verdict_detail
         | |- verdict_matches_issues (if ?b then _ else _) => destruct b
         | |- verdict_matches_issues (match ?x with _ => _ end) => destruct x
         end; try assumption.

Lemma verdict_direct_method r x :
  verdict_matches_issues r -> verdict_matches_issues (direct_method r x).
Proof. intro H. unfold direct_method. cbv zeta. verdict. Qed.

Lemma verdict_param_method ps r x :
  verdict_matches_issues r -> verdict_matches_issues (param_method ps r x).
Proof. intro H. unfold param_method. cbv zeta. verdict. Qed.

Lemma verdict_flow_property ps r kv :
  verdict_matches_issues r -> verdict_matches_issues (flow_property ps r kv).
Proof. intro H. unfold flow_property. destruct kv. cbv zeta. verdict. Qed.

Lemma verdict_property_method r kv :
  verdict_matches_issues r -> verdict_matches_issues (property_method r kv).
Proof. intro H. unfold property_method. destruct kv. cbv zeta. verdict. Qed.

Lemma verdict_fallback_stage content r :
  verdict_matches_issues r -> verdict_matches_issues (fallback_stage content r).
Proof. intro H. unfold fallback_stage. cbv zeta. verdict. Qed.

Lemma list_set_nil (l : list string) : list_set l = [] <-> l = [].
Proof. destruct l; simpl; split; intro H; try discriminate; reflexivity. Qed.

Lemma verdict_deduplicate r :
  verdict_matches_issues r -> verdict_matches_issues (deduplicate r).
Proof.
  unfold verdict_matches_issues. simpl. now rewrite list_set_nil.
Qed.

Lemma verdict_final_policy content r :
  verdict_matches_issues r -> verdict_matches_issues (final_policy content r).
Proof.
  intro H. unfold final_policy.
  destruct (detected_methods r); [|exact H].
  destruct (Re.search_i external_call_pattern content); [|exact H].
  split; simpl; [discriminate|]. intro E. now apply app_one_not_nil in E.
Qed.

(** Every stage of the analysis keeps a property that each of its steps
    keeps. *)
Section Stages.
Variable P : security_check -> Prop.
Hypothesis P_direct : forall r x, P r -> P (direct_method r x).
Hypothesis P_param : forall ps r x, P r -> P (param_method ps r x).
Hypothesis P_flow : forall ps r kv, P r -> P (flow_property ps r kv).
Hypothesis P_fallback : forall content r, P r -> P (fallback_stage content r).
Hypothesis P_property : forall r kv, P r -> P (property_method r kv).
Hypothesis P_detail : forall r x, P r -> P (add_detail r x).

Lemma stage_direct content r : P r -> P (direct_stage content r).
Proof.
  intro H. unfold direct_stage. apply fold_left_preserves; [|exact H].
  intros a b Ha. apply fold_left_preserves; auto.
Qed.

Lemma stage_param content ps r : P r -> P (param_stage content ps r).
Proof.
  intro H. unfold param_stage. apply fold_left_preserves; [|exact H].
  intros a b Ha. apply fold_left_preserves; auto.
Qed.

Lemma stage_flow_check ps ns r flow : P r -> P (flow_check ps ns r flow).
Proof. intro H. unfold flow_check. apply fold_left_preserves; auto. Qed.

Lemma stage_flow_patterns root ps ns patterns :
  forall r found, P r ->
    P (fst (flow_patterns_loop root ps ns patterns r found)).
Proof.
  induction patterns as [|p patterns IH]; intros r found H; simpl; [exact H|].
  destruct (ET.findall root p ns) as [[|flow flows]|]; try now apply IH.
  apply IH. apply fold_left_preserves.
  - intros; now apply stage_flow_check.
  - now apply stage_flow_check.
Qed.

Lemma stage_flow_namespaces root ps sets :
  forall r, P r -> P (flow_namespaces_loop root ps sets r).
Proof.
  induction sets as [|ns sets IH]; intros r H; [exact H|].
  cbn [flow_namespaces_loop].
  pose proof (stage_flow_patterns root ps ns message_flow_patterns r false H)
    as H1.
  destruct (flow_patterns_loop root ps ns message_flow_patterns r false)
    as [r1 found]; simpl in H1.
  destruct found; [exact H1|now apply IH].
Qed.

Lemma stage_after_walk content ps r : P r -> P (after_walk content ps r).
Proof.
  intro H. unfold after_walk. apply fold_left_preserves; auto.
Qed.

(** What the detection stages reach from a state with the property, on
    both ways out. *)
Lemma stages_from fromstring content ps :
  P (param_stage content ps (direct_stage content initial_security)) ->
  match detection_stages fromstring content ps with
  | inr r => P r
  | inl (r, _) => P r
  end.
Proof.
  intro H. unfold detection_stages.
  destruct (fromstring content) as [root|msg|msg].
  - now apply stage_after_walk, stage_flow_namespaces.
  - now apply stage_after_walk, P_detail.
  - exact H.
Qed.

Lemma stages_keep fromstring content ps :
  P initial_security ->
  match detection_stages fromstring content ps with
  | inr r => P r
  | inl (r, _) => P r
  end.
Proof.
  intro H. apply stages_from. now apply stage_param, stage_direct.
Qed.

End Stages.

(** X1: whatever the content, the properties and the parser do, the value
    returned by [check_security_compliance] has [is_compliant = true]
    exactly when its list of issues is empty. *)
Theorem verdict_is_positive_iff_no_issue
    (fromstring : string -> ET.parse_outcome)
    (content : string) (properties : dict string) :
  let r := check_security_compliance fromstring content properties in
  is_compliant r = true <-> issues r = [].
Proof.
  cbv zeta. fold (verdict_matches_issues
                    (check_security_compliance fromstring content properties)).
  unfold check_security_compliance.
  pose proof (stages_keep verdict_matches_issues
                verdict_direct_method verdict_param_method
                verdict_flow_property verdict_fallback_stage
                verdict_property_method verdict_detail
                fromstring content properties) as H.
  destruct (detection_stages fromstring content properties) as [[r msg]|r].
  - apply verdict_detail, H. split; reflexivity.
  - apply verdict_final_policy, verdict_deduplicate, H. split; reflexivity.
Qed.


(** *** Parameters *)

Lemma flagged_stages fromstring content ps i :
  flagged i (param_stage content ps (direct_stage content initial_security)) ->
  flagged i (check_security_compliance fromstring content ps).
Proof. apply flagged_check. Qed.

Lemma param_method_flags ps r name v :
  resolve_parameter ps (strip name) = Some v ->
  is_basic v = true ->
  flagged ("Basic Authentication detected via parameter: '" ++ strip name
           ++ "' = '" ++ v ++ "'")
          (param_method ps r name).
Proof.
  intros Hr Hb. unfold param_method. rewrite Hr. simpl resolved_truthy.
  rewrite (is_basic_truthy _ Hb), Hb. cbv zeta.
  split; [reflexivity|]. simpl. apply in_or_app. right. now left.
Qed.

(** X2: when one of the parameter patterns finds a placeholder in the
    content and the first matching property holds [basic] or [basic
    authentication] (in any letter case), the value returned has
    [is_compliant = false] and an issue that names the parameter and the
    value it resolved to. *)
Theorem basic_parameter_is_flagged
    (fromstring : string -> ET.parse_outcome)
    (content : string) (properties : dict string)
    (pattern : Re.re) (name v : string) :
  In pattern param_auth_patterns ->
  In name (Re.findall pattern content) ->
  resolve_parameter properties (strip name) = Some v ->
  is_basic v = true ->
  let r := check_security_compliance fromstring content properties in
  is_compliant r = false
  /\ In ("Basic Authentication detected via parameter: '" ++ strip name
         ++ "' = '" ++ v ++ "'") (issues r).
Proof.
  intros Hp Hn Hr Hb. cbv zeta.
  apply flagged_check. unfold param_stage.
  apply fold_left_establishes with (b0 := pattern); [| |exact Hp].
  - intros a b Ha. apply fold_left_preserves; [|exact Ha].
    intros; now apply flagged_param_method.
  - intro a. apply fold_left_establishes with (b0 := name); [| |exact Hn].
    + intros; now apply flagged_param_method.
    + intro; now apply param_method_flags.
Qed.

(** A witness for X2: the placeholder of the sample flow, with the
    property that the scenario declares. *)
Lemma basic_parameter_is_flagged_witness :
  In (nth 0 param_auth_patterns Re.Eps) param_auth_patterns
  /\ In "AUTH_METHOD" (Re.findall (nth 0 param_auth_patterns Re.Eps)
                         sample_iflw)
  /\ resolve_parameter [("AUTH_METHOD", "Basic")] (strip "AUTH_METHOD")
     = Some "Basic"
  /\ is_basic "Basic" = true
  /\ (let r := check_security_compliance sample_fromstring sample_iflw
                 [("AUTH_METHOD", "Basic")] in
      is_compliant r = false
      /\ In ("Basic Authentication detected via parameter: '"
             ++ strip "AUTH_METHOD" ++ "' = '" ++ "Basic" ++ "'") (issues r)).
Proof.
  assert (H1 : In (nth 0 param_auth_patterns Re.Eps) param_auth_patterns)
    by (left; reflexivity).
  assert (H2 : In "AUTH_METHOD" (Re.findall (nth 0 param_auth_patterns Re.Eps)
                                   sample_iflw))
    by (vm_compute; left; reflexivity).
  assert (H3 : resolve_parameter [("AUTH_METHOD", "Basic")]
                 (strip "AUTH_METHOD") = Some "Basic") by reflexivity.
  assert (H4 : is_basic "Basic" = true) by reflexivity.
  split; [exact H1|]. split; [exact H2|]. split; [exact H3|].
  split; [exact H4|].
  exact (basic_parameter_is_flagged sample_fromstring sample_iflw
           [("AUTH_METHOD", "Basic")] (nth 0 param_auth_patterns Re.Eps)
           "AUTH_METHOD" "Basic" H1 H2 H3 H4).
Defined.

(** *** What the lists keep *)

Ltac keep :=
  simpl in *;
  repeat match goal with
         | |- context [if ?b then _ else _] => destruct b; simpl
         | |- context [match ?x with _ => _ end] => destruct x; simpl
         end;
  simpl in *; rewrite ?in_app_iff; simpl; try tauto.

Lemma detected_direct_method x r m :
  detected x r -> detected x (direct_method r m).
Proof. unfold detected, direct_method. intro H. keep. Qed.

Lemma detected_param_method x ps r m :
  detected x r -> detected x (param_method ps r m).
Proof. unfold detected, param_method. intro H. keep. Qed.

Lemma detected_flow_property x ps r kv :
  detected x r -> detected x (flow_property ps r kv).
Proof. unfold detected, flow_property. intro H. destruct kv. keep. Qed.

Lemma detected_fallback_stage x content r :
  detected x r -> detected x (fallback_stage content r).
Proof.
  unfold detected, fallback_stage. intro H.
  destruct (detected_methods r) eqn:E; [destruct H|]. now rewrite E.
Qed.

Lemma detected_property_method x r kv :
  detected x r -> detected x (property_method r kv).
Proof. unfold detected, property_method. intro H. destruct kv. keep. Qed.

Lemma detected_add_detail x r d : detected x r -> detected x (add_detail r d).
Proof. exact (fun H => H). Qed.

Lemma detailed_direct_method x r m :
  detailed x r -> detailed x (direct_method r m).
Proof. unfold detailed, direct_method. intro H. keep. Qed.

Lemma detailed_param_method x ps r m :
  detailed x r -> detailed x (param_method ps r m).
Proof. unfold detailed, param_method. intro H. keep. Qed.

Lemma detailed_flow_property x ps r kv :
  detailed x r -> detailed x (flow_property ps r kv).
Proof. unfold detailed, flow_property. intro H. destruct kv. keep. Qed.

Lemma detailed_fallback_stage x content r :
  detailed x r -> detailed x (fallback_stage content r).
Proof.
  unfold detailed, fallback_stage. intro H.
  destruct (detected_methods r) eqn:E; [|exact H]. keep.
Qed.

Lemma detailed_property_method x r kv :
  detailed x r -> detailed x (property_method r kv).
Proof. unfold detailed, property_method. intro H. destruct kv. keep. Qed.

Lemma detailed_add_detail x r d : detailed x r -> detailed x (add_detail r d).
Proof. unfold detailed. simpl. intro H. apply in_or_app. now left. Qed.

(** A method detected, or a detail recorded, by the two scans is in the
    value returned. *)
Lemma detected_check fromstring content ps x :
  detected x (param_stage content ps (direct_stage content initial_security)) ->
  detected x (check_security_compliance fromstring content ps).
Proof.
  intro H. unfold check_security_compliance.
  pose proof (stages_from (detected x)
                (detected_flow_property x) (detected_fallback_stage x)
                (detected_property_method x) (detected_add_detail x)
                fromstring content ps H) as H1.
  destruct (detection_stages fromstring content ps) as [[r msg]|r].
  - exact H1.
  - unfold detected in *. unfold final_policy.
    assert (H2 : In x (detected_methods (deduplicate r)))
      by (simpl; now apply In_list_set).
    destruct (detected_methods (deduplicate r)) eqn:E; [destruct H2|].
    now rewrite E.
Qed.

Lemma detailed_check fromstring content ps x :
  detailed x (param_stage content ps (direct_stage content initial_security)) ->
  detailed x (check_security_compliance fromstring content ps).
Proof.
  intro H. unfold check_security_compliance.
  pose proof (stages_from (detailed x)
                (detailed_flow_property x) (detailed_fallback_stage x)
                (detailed_property_method x) (detailed_add_detail x)
                fromstring content ps H) as H1.
  destruct (detection_stages fromstring content ps) as [[r msg]|r].
  - now apply detailed_add_detail.
  - unfold detailed in *. unfold final_policy.
    assert (H2 : In x (details (deduplicate r)))
      by (simpl; now apply In_list_set).
    destruct (detected_methods (deduplicate r)); [|exact H2].
    destruct (Re.search_i external_call_pattern content); [|exact H2].
    simpl. apply in_or_app. now left.
Qed.

Lemma param_stage_establishes (P : security_check -> Prop) content ps r
    pattern name :
  (forall r x, P r -> P (param_method ps r x)) ->
  (forall r, P (param_method ps r name)) ->
  In pattern param_auth_patterns ->
  In name (Re.findall pattern content) ->
  P (param_stage content ps r).
Proof.
  intros Hk He Hp Hn. unfold param_stage.
  apply fold_left_establishes with (b0 := pattern); [| |exact Hp].
  - intros a b Ha. apply fold_left_preserves; auto.
  - intro a. apply fold_left_establishes with (b0 := name); auto.
Qed.

(** X3: when a parameter pattern finds a placeholder [{{X}}] and the
    first matching property holds a non-empty value [v], the detected
    methods of the value returned contain [v (from X)], or contain [v]
    itself, in which case the code adds no entry for the parameter. *)
Theorem resolved_parameter_is_recorded
    (fromstring : string -> ET.parse_outcome)
    (content : string) (properties : dict string)
    (pattern : Re.re) (name v : string) :
  In pattern param_auth_patterns ->
  In name (Re.findall pattern content) ->
  resolve_parameter properties (strip name) = Some v ->
  truthy v = true ->
  let r := check_security_compliance fromstring content properties in
  In (v ++ " (from " ++ strip name ++ ")") (detected_methods r)
  \/ In v (detected_methods r).
Proof.
  intros Hp Hn Hr Hv. cbv zeta.
  set (P := fun r => detected (v ++ " (from " ++ strip name ++ ")") r
                     \/ detected v r).
  assert (Hkeep : forall (Q : security_check -> security_check),
             (forall x r, detected x r -> detected x (Q r)) ->
             forall r, P r -> P (Q r)).
  { intros Q HQ r [H|H]; [left|right]; now apply HQ. }
  assert (H : P (param_stage content properties
                   (direct_stage content initial_security))).
  { apply param_stage_establishes with (pattern := pattern) (name := name);
      try assumption.
    - intros r x. apply (Hkeep (fun r => param_method properties r x)).
      intros; now apply detected_param_method.
    - intro r. unfold P, detected, param_method. rewrite Hr.
      simpl resolved_truthy. rewrite Hv. cbv zeta.
      destruct (mem v (detected_methods (add_detail r _))) eqn:M.
      + right. apply existsb_exists in M as (y & Hy & E).
        apply String.eqb_eq in E; subst y.
        destruct (is_basic v); simpl in *; exact Hy.
      + left. destruct (is_basic v); simpl; apply in_or_app; right; now left. }
  destruct H as [H|H]; [left|right]; now apply detected_check.
Qed.

(** A witness for X3: a certificate behind the placeholder of the sample
    flow. *)
Lemma resolved_parameter_is_recorded_witness :
  In (nth 0 param_auth_patterns Re.Eps) param_auth_patterns
  /\ In "AUTH_METHOD" (Re.findall (nth 0 param_auth_patterns Re.Eps)
                         sample_iflw)
  /\ resolve_parameter [("AUTH_METHOD", "Client Certificate")]
       (strip "AUTH_METHOD") = Some "Client Certificate"
  /\ truthy "Client Certificate" = true
  /\ (let r := check_security_compliance sample_fromstring sample_iflw
                 [("AUTH_METHOD", "Client Certificate")] in
      In ("Client Certificate" ++ " (from " ++ strip "AUTH_METHOD" ++ ")")
         (detected_methods r)
      \/ In "Client Certificate" (detected_methods r)).
Proof.
  assert (H1 : In (nth 0 param_auth_patterns Re.Eps) param_auth_patterns)
    by (left; reflexivity).
  assert (H2 : In "AUTH_METHOD" (Re.findall (nth 0 param_auth_patterns Re.Eps)
                                   sample_iflw))
    by (vm_compute; left; reflexivity).
  assert (H3 : resolve_parameter [("AUTH_METHOD", "Client Certificate")]
                 (strip "AUTH_METHOD") = Some "Client Certificate")
    by reflexivity.
  assert (H4 : truthy "Client Certificate" = true) by reflexivity.
  split; [exact H1|]. split; [exact H2|]. split; [exact H3|].
  split; [exact H4|].
  exact (resolved_parameter_is_recorded sample_fromstring sample_iflw
           [("AUTH_METHOD", "Client Certificate")]
           (nth 0 param_auth_patterns Re.Eps)
           "AUTH_METHOD" "Client Certificate" H1 H2 H3 H4).
Defined.

(** X4: when a parameter pattern finds a placeholder [{{X}}] and no
    property resolves it (none matches, or the first match is empty), the
    details of the value returned say that [X] could not be resolved. *)
Theorem unresolved_parameter_is_a_detail
    (fromstring : string -> ET.parse_outcome)
    (content : string) (properties : dict string)
    (pattern : Re.re) (name : string) :
  In pattern param_auth_patterns ->
  In name (Re.findall pattern content) ->
  resolved_truthy (resolve_parameter properties (strip name)) = None ->
  In ("Could not resolve parameter: '" ++ strip name ++ "'")
     (details (check_security_compliance fromstring content properties)).
Proof.
  intros Hp Hn Hr.
  apply detailed_check.
  apply param_stage_establishes with (pattern := pattern) (name := name);
    try assumption.
  - intros; now apply detailed_param_method.
  - intro r. unfold detailed, param_method. rewrite Hr. simpl.
    apply in_or_app. right. now left.
Qed.

(** A witness for X4: the sample flow with no property at all. *)
Lemma unresolved_parameter_is_a_detail_witness :
  In (nth 0 param_auth_patterns Re.Eps) param_auth_patterns
  /\ In "AUTH_METHOD" (Re.findall (nth 0 param_auth_patterns Re.Eps)
                         sample_iflw)
  /\ resolved_truthy (resolve_parameter [] (strip "AUTH_METHOD")) = None
  /\ In ("Could not resolve parameter: '" ++ strip "AUTH_METHOD" ++ "'")
        (details (check_security_compliance sample_fromstring sample_iflw [])).
Proof.
  assert (H1 : In (nth 0 param_auth_patterns Re.Eps) param_auth_patterns)
    by (left; reflexivity).
  assert (H2 : In "AUTH_METHOD" (Re.findall (nth 0 param_auth_patterns Re.Eps)
                                   sample_iflw))
    by (vm_compute; left; reflexivity).
  assert (H3 : resolved_truthy (resolve_parameter [] (strip "AUTH_METHOD"))
               = None) by reflexivity.
  split; [exact H1|]. split; [exact H2|]. split; [exact H3|].
  exact (unresolved_parameter_is_a_detail sample_fromstring sample_iflw []
           (nth 0 param_auth_patterns Re.Eps) "AUTH_METHOD" H1 H2 H3).
Defined.


(** *** Repetitions *)

Lemma NoDup_list_set (l : list string) : NoDup (list_set l).
Proof.
  induction l as [|x l IH]; simpl; constructor.
  - rewrite filter_In. intros [_ H]. now rewrite String.eqb_refl in H.
  - now apply NoDup_filter.
Qed.

Lemma NoDup_snoc {A} (l : list A) (x : A) :
  NoDup l -> ~ In x l -> NoDup (l ++ [x]).
Proof.
  induction l as [|y l IH]; intros Hl Hx; simpl.
  - constructor; [intros []|constructor].
  - inversion Hl; subst. constructor.
    + rewrite in_app_iff. intros [H|[H|[]]]; [contradiction|].
      apply Hx. now left.
    + apply IH; [assumption|]. intro H. apply Hx. now right.
Qed.

Lemma mem_nil_false (x : string) (l : list string) :
  mem x l = true -> l <> [].
Proof. destruct l; [discriminate|discriminate]. Qed.

Ltac methods :=
  unfold issues_have_methods in *; simpl in *;
  repeat match goal with
         | |- context [if mem ?x ?l then _ else _] =>
             let M := fresh "M" in
             destruct (mem x l) eqn:M; [apply mem_nil_false in M|]; simpl
         | |- context [if ?b then _ else _] => destruct b; simpl
         | |- context [match ?x with _ => _ end] => destruct x; simpl
         end;
  simpl in *; try tauto;
  try (let E := fresh "E" in
       intro E; first [ now apply app_one_not_nil in E | contradiction ]).

Lemma methods_direct_method r x :
  issues_have_methods r -> issues_have_methods (direct_method r x).
Proof. intro H. unfold direct_method. methods. Qed.

Lemma methods_param_method ps r x :
  issues_have_methods r -> issues_have_methods (param_method ps r x).
Proof. intro H. unfold param_method. methods. Qed.

Lemma methods_flow_property ps r kv :
  issues_have_methods r -> issues_have_methods (flow_property ps r kv).
Proof. intro H. unfold flow_property. destruct kv. methods. Qed.

Lemma methods_property_method r kv :
  issues_have_methods r -> issues_have_methods (property_method r kv).
Proof. intro H. unfold property_method. destruct kv. methods. Qed.

Lemma methods_fallback_stage content r :
  issues_have_methods r -> issues_have_methods (fallback_stage content r).
Proof.
  intro H. unfold fallback_stage.
  destruct (detected_methods r) eqn:E; [|exact H].
  unfold issues_have_methods in *.
  destruct (any_search_i basic_auth_patterns content);
    destruct (any_search_i oauth_patterns content);
    destruct (any_search_i cert_patterns content); simpl;
    rewrite ?E; simpl; try discriminate; auto.
Qed.

Lemma methods_add_detail r x :
  issues_have_methods r -> issues_have_methods (add_detail r x).
Proof. exact (fun H => H). Qed.

Ltac external :=
  unfold no_external_detail, external_detail in *; simpl in *;
  repeat match goal with
         | |- context [if ?b then _ else _] => destruct b; simpl
         | |- context [match ?x with _ => _ end] => destruct x; simpl
         end;
  rewrite ?in_app_iff; simpl;
  try tauto;
  repeat match goal with
         | |- ~ _ => intro
         | H : _ \/ _ |- _ => destruct H
         | H : False |- _ => destruct H
         | H : String _ _ = String _ _ |- _ => discriminate H
         end; try contradiction.

Lemma external_direct_method r x :
  no_external_detail r -> no_external_detail (direct_method r x).
Proof. intro H. unfold direct_method. external. Qed.

Lemma external_param_method ps r x :
  no_external_detail r -> no_external_detail (param_method ps r x).
Proof. intro H. unfold param_method. external. Qed.

Lemma external_flow_property ps r kv :
  no_external_detail r -> no_external_detail (flow_property ps r kv).
Proof. intro H. unfold flow_property. destruct kv. external. Qed.

Lemma external_property_method r kv :
  no_external_detail r -> no_external_detail (property_method r kv).
Proof. intro H. unfold property_method. destruct kv. external. Qed.

Lemma external_fallback_stage content r :
  no_external_detail r -> no_external_detail (fallback_stage content r).
Proof.
  intro H. unfold fallback_stage.
  destruct (detected_methods r); [|exact H]. external.
Qed.

Lemma external_add_detail_xml r msg :
  no_external_detail r ->
  no_external_detail
    (add_detail r ("XML parsing error during security check: " ++ msg)).
Proof. intro H. external. Qed.

Lemma external_stages fromstring content ps :
  match detection_stages fromstring content ps with
  | inr r => no_external_detail r
  | inl _ => True
  end.
Proof.
  unfold detection_stages.
  assert (K2 : no_external_detail
                 (param_stage content ps
                    (direct_stage content initial_security))).
  { apply stage_param; [exact external_param_method|].
    apply stage_direct; [exact external_direct_method|]. intros []. }
  destruct (fromstring content) as [root|msg|msg]; [| |exact I].
  - apply stage_after_walk;
      [exact external_fallback_stage|exact external_property_method|].
    apply stage_flow_namespaces; [exact external_flow_property|exact K2].
  - apply stage_after_walk;
      [exact external_fallback_stage|exact external_property_method|].
    now apply external_add_detail_xml.
Qed.

(** X5: when the detection stages run to their end, none of the three
    lists of the value returned holds the same string twice. *)
Theorem returned_lists_have_no_repetition
    (fromstring : string -> ET.parse_outcome)
    (content : string) (properties : dict string) (st : security_check) :
  detection_stages fromstring content properties = inr st ->
  let r := check_security_compliance fromstring content properties in
  NoDup (detected_methods r) /\ NoDup (issues r) /\ NoDup (details r).
Proof.
  intros Hst. cbv zeta.
  assert (HJ : issues_have_methods st /\ no_external_detail st).
  { split.
    - pose proof (stages_keep issues_have_methods
                    methods_direct_method methods_param_method
                    methods_flow_property methods_fallback_stage
                    methods_property_method methods_add_detail
                    fromstring content properties) as H.
      rewrite Hst in H. apply H. now intros _.
    - pose proof (external_stages fromstring content properties) as H.
      now rewrite Hst in H. }
  destruct HJ as [J K].
  unfold check_security_compliance. rewrite Hst. unfold final_policy.
  destruct (detected_methods (deduplicate st)) eqn:E.
  - destruct (Re.search_i external_call_pattern content); simpl.
    + simpl in E. apply (proj1 (list_set_nil _)) in E. rewrite E, (J E). simpl.
      split; [constructor|]. split.
      * constructor; [intros []|constructor].
      * apply NoDup_snoc; [apply NoDup_list_set|].
        rewrite In_list_set. exact K.
    + repeat split; apply NoDup_list_set.
  - simpl. repeat split; apply NoDup_list_set.
Qed.

(** A witness for X5: the text that only names an endpoint. *)
Lemma returned_lists_have_no_repetition_witness :
  detection_stages rejecting_fromstring endpoint_only_content []
  = inr {| detected_methods := []; is_compliant := true; issues := [];
           details := ["XML parsing error during security check: syntax error: line 1, column 0"] |}
  /\ (let r := check_security_compliance rejecting_fromstring
                 endpoint_only_content [] in
      NoDup (detected_methods r) /\ NoDup (issues r) /\ NoDup (details r)).
Proof.
  assert (H1 : detection_stages rejecting_fromstring endpoint_only_content []
               = inr {| detected_methods := []; is_compliant := true;
                        issues := [];
                        details := ["XML parsing error during security check: syntax error: line 1, column 0"] |})
    by (vm_compute; reflexivity).
  split; [exact H1|].
  exact (returned_lists_have_no_repetition rejecting_fromstring
           endpoint_only_content [] _ H1).
Defined.

End SecurityMore.

(** ** More on the structural extraction *)

Module StructureMore.
Import Py SAPConnection Spec Vocabulary.

Lemma fold_left_ext_eq {A B} (f g : A -> B -> A) (l : list B) :
  (forall a b, f a b = g a b) ->
  forall a, fold_left f l a = fold_left g l a.
Proof.
  intro H. induction l as [|b l IH]; intro a; simpl; [reflexivity|].
  now rewrite H, IH.
Qed.

Lemma properties_agree (e : ET.Element) :
  _extract_properties e first_profile = _extract_properties e second_profile.
Proof. vm_compute. reflexivity. Qed.

Lemma process_steps_agree (process : ET.Element) :
  process_steps process first_profile = process_steps process second_profile.
Proof. vm_compute. reflexivity. Qed.

Lemma first_process_agree (processes : list ET.Element) :
  first_process_with_steps processes first_profile
  = first_process_with_steps processes second_profile.
Proof.
  induction processes as [|p l IH]; simpl; [reflexivity|].
  now rewrite process_steps_agree, IH.
Qed.

Lemma has_error_event_agree (s : ET.Element) :
  has_error_event s first_profile = has_error_event s second_profile.
Proof. vm_compute. reflexivity. Qed.

Ltac by_computation := intros; vm_compute; reflexivity.

Lemma process_tag_agree (root : ET.Element) :
  findall_or_nothing root "bpmn2:process" first_profile
  = findall_or_nothing root "bpmn:process" second_profile
  /\ findall_or_nothing root "bpmn:process" first_profile = []
  /\ findall_or_nothing root "bpmn2:process" second_profile = []
  /\ findall_or_nothing root "process" first_profile
     = findall_or_nothing root "process" second_profile.
Proof. repeat split; by_computation. Qed.

Lemma workflow_agree (root : ET.Element) (result : Result) :
  _extract_workflow root first_profile result
  = _extract_workflow root second_profile result.
Proof.
  destruct (process_tag_agree root) as (H1 & H2 & H3 & H4).
  unfold _extract_workflow. cbn [workflow_loop].
  rewrite H2, H3, H1, H4.
  destruct (findall_or_nothing root "bpmn:process" second_profile)
    as [|p l] eqn:E.
  - destruct (findall_or_nothing root "process" second_profile);
      [reflexivity|]. now rewrite first_process_agree.
  - rewrite first_process_agree.
    destruct (first_process_with_steps (p :: l) second_profile);
      cbn [set_workflow workflow].
    + destruct (workflow result ++ [p0])%list; [|reflexivity].
      destruct (findall_or_nothing root "process" second_profile);
        [reflexivity|]. now rewrite first_process_agree.
    + destruct (workflow result); [|reflexivity].
      destruct (findall_or_nothing root "process" second_profile);
        [reflexivity|]. now rewrite first_process_agree.
Qed.

Lemma classify_participant_agree (result : Result) (p : ET.Element) :
  classify_participant first_profile result p
  = classify_participant second_profile result p.
Proof. unfold classify_participant. now rewrite properties_agree. Qed.

Lemma participant_paths_agree (root : ET.Element) :
  map (fun pattern => findall_or_nothing root pattern first_profile)
      participant_patterns
  = [findall_or_nothing root ".//bpmn:participant" second_profile; [];
     findall_or_nothing root ".//participant" second_profile; []]
  /\ map (fun pattern => findall_or_nothing root pattern second_profile)
         participant_patterns
     = [[]; findall_or_nothing root ".//bpmn:participant" second_profile;
        findall_or_nothing root ".//participant" second_profile; []].
Proof. split; by_computation. Qed.

Lemma fold_patterns_map {A} (f : A -> ET.Element -> A)
    (sel : string -> list ET.Element) (patterns : list string) :
  forall a,
    fold_left (fun a p => fold_left f (sel p) a) patterns a
    = fold_left (fun a l => fold_left f l a) (map sel patterns) a.
Proof.
  induction patterns as [|p l IH]; intro a; simpl; [reflexivity|apply IH].
Qed.

Lemma participants_agree (root : ET.Element) (result : Result) :
  _extract_participants root first_profile result
  = _extract_participants root second_profile result.
Proof.
  destruct (participant_paths_agree root) as [H1 H2].
  unfold _extract_participants.
  rewrite (fold_patterns_map (classify_participant first_profile)
             (fun p => findall_or_nothing root p first_profile)),
          (fold_patterns_map (classify_participant second_profile)
             (fun p => findall_or_nothing root p second_profile)).
  rewrite H1, H2. cbn [fold_left].
  rewrite (fold_left_ext_eq _ _ _ classify_participant_agree).
  apply fold_left_ext_eq, classify_participant_agree.
Qed.

Lemma check_subprocess_agree (st : Result * bool) (s : ET.Element) :
  check_subprocess first_profile st s = check_subprocess second_profile st s.
Proof.
  unfold check_subprocess.
  now rewrite properties_agree, has_error_event_agree.
Qed.

Lemma subprocess_paths_agree (root : ET.Element) :
  map (fun pattern => findall_or_nothing root pattern first_profile)
      subprocess_patterns
  = [findall_or_nothing root ".//bpmn:subProcess" second_profile; [];
     findall_or_nothing root ".//subProcess" second_profile; []]
  /\ map (fun pattern => findall_or_nothing root pattern second_profile)
         subprocess_patterns
     = [[]; findall_or_nothing root ".//bpmn:subProcess" second_profile;
        findall_or_nothing root ".//subProcess" second_profile; []].
Proof. split; by_computation. Qed.

Lemma handler_paths_agree (root : ET.Element) (pattern : string) :
  In pattern error_handler_patterns ->
  findall_or_nothing root pattern first_profile
  = findall_or_nothing root pattern second_profile.
Proof.
  intros [<-|[<-|[<-|[<-|[]]]]]; by_computation.
Qed.

Lemma fold_left_ext_in {A B} (f g : A -> B -> A) (l : list B) :
  (forall a b, In b l -> f a b = g a b) ->
  forall a, fold_left f l a = fold_left g l a.
Proof.
  induction l as [|b l IH]; intros H a; simpl; [reflexivity|].
  rewrite H by now left. apply IH. intros; apply H. now right.
Qed.

Lemma error_handling_agree (root : ET.Element) (result : Result) :
  _extract_error_handling root first_profile result
  = _extract_error_handling root second_profile result.
Proof.
  destruct (subprocess_paths_agree root) as [H1 H2].
  unfold _extract_error_handling. cbv zeta.
  rewrite (fold_left_ext_in
             (fun st pattern =>
                fold_left (check_handler pattern)
                  (findall_or_nothing root pattern first_profile) st)
             (fun st pattern =>
                fold_left (check_handler pattern)
                  (findall_or_nothing root pattern second_profile) st))
    by (intros a b Hb; now rewrite (handler_paths_agree root b Hb)).
  rewrite (fold_patterns_map (check_subprocess first_profile)
             (fun p => findall_or_nothing root p first_profile)),
          (fold_patterns_map (check_subprocess second_profile)
             (fun p => findall_or_nothing root p second_profile)).
  rewrite H1, H2. cbn [fold_left].
  rewrite !(fold_left_ext_eq (check_subprocess first_profile)
              (check_subprocess second_profile) _ check_subprocess_agree).
  reflexivity.
Qed.

(** X6: the first two namespace dictionaries give the same extraction on
    every document: they bind the prefixes [bpmn2] and [bpmn] to the same
    namespace, and each extractor asks for both prefixes in turn. *)
Theorem first_two_profiles_agree (root : ET.Element) (result : Result) :
  extract_structure root (nth 0 namespace_sets []) result
  = extract_structure root (nth 1 namespace_sets []) result.
Proof.
  change (nth 0 namespace_sets []) with first_profile.
  change (nth 1 namespace_sets []) with second_profile.
  unfold extract_structure.
  now rewrite workflow_agree, participants_agree, error_handling_agree.
Qed.

(** *** What one call adds *)

Lemma first_process_has_steps (processes : list ET.Element)
    (namespaces : dict string) (entry : string * list string) :
  first_process_with_steps processes namespaces = Some entry ->
  snd entry <> []
  /\ exists process,
       In process processes
       /\ entry = (ET.get process "name" "Unnamed Process",
                   process_steps process namespaces).
Proof.
  induction processes as [|p l IH]; simpl; [discriminate|].
  destruct (process_steps p namespaces) as [|s steps] eqn:E.
  - intro H. destruct (IH H) as (Hs & q & Hq & He).
    split; [exact Hs|]. exists q. split; [now right|exact He].
  - intro H. inversion H; subst entry. split; [discriminate|].
    exists p. split; [now left|]. now rewrite E.
Qed.

Lemma workflow_loop_adds (root : ET.Element) (namespaces : dict string)
    (tags : list string) :
  forall result,
    workflow_loop root namespaces tags result = result
    \/ exists tag process,
         In tag tags
         /\ In process (findall_or_nothing root tag namespaces)
         /\ process_steps process namespaces <> []
         /\ workflow_loop root namespaces tags result
            = set_workflow result
                (workflow result
                 ++ [(ET.get process "name" "Unnamed Process",
                      process_steps process namespaces)])%list.
Proof.
  induction tags as [|tag tags IH]; intro result; cbn [workflow_loop].
  - now left.
  - assert (Hrest :
      workflow_loop root namespaces tags result = result
      \/ exists tag0 process,
           In tag0 (tag :: tags)
           /\ In process (findall_or_nothing root tag0 namespaces)
           /\ process_steps process namespaces <> []
           /\ workflow_loop root namespaces tags result
              = set_workflow result
                  (workflow result
                   ++ [(ET.get process "name" "Unnamed Process",
                        process_steps process namespaces)])%list).
    { destruct (IH result) as [H|(t & p & Ht & Hp & Hs & H)]; [now left|].
      right. exists t, p. repeat split; try assumption. now right. }
    destruct (findall_or_nothing root tag namespaces) as [|p0 l] eqn:E;
      [exact Hrest|].
    destruct (first_process_with_steps (p0 :: l) namespaces)
      as [entry|] eqn:F.
    + destruct (first_process_has_steps _ _ _ F) as (Hs & q & Hq & He).
      subst entry. simpl in Hs.
      cbn [set_workflow workflow].
      destruct (workflow result ++ _)%list eqn:W.
      * now apply app_eq_nil in W as [_ W].
      * right. exists tag, q. rewrite E. rewrite <- W.
        repeat split; try assumption. now left.
    + destruct (workflow result); [exact Hrest|now left].
Qed.

(** X7: one call of [_extract_workflow] leaves the result as it was or
    appends a single entry to [workflow]: the name and the steps of a
    process found under one of the three process tags, and that process
    has at least one step. *)
Theorem workflow_gains_at_most_one_process
    (root : ET.Element) (namespaces : dict string) (result : Result) :
  _extract_workflow root namespaces result = result
  \/ exists tag process,
       In tag ["bpmn2:process"; "bpmn:process"; "process"]
       /\ In process (findall_or_nothing root tag namespaces)
       /\ process_steps process namespaces <> []
       /\ _extract_workflow root namespaces result
          = set_workflow result
              (workflow result
               ++ [(ET.get process "name" "Unnamed Process",
                    process_steps process namespaces)])%list.
Proof. apply workflow_loop_adds. Qed.

(** One participant element becomes an entry of [senders] or an entry of
    [receivers] or nothing; the other keys of the result stay as they
    are. *)
Lemma participant_goes_to_one_side_aux
    (namespaces : dict string) (result : Result) (participant : ET.Element) :
  let entry :=
    Participant (ET.get participant "name" "Unnamed")
                (_extract_properties participant namespaces) in
  classify_participant namespaces result participant = result
  \/ classify_participant namespaces result participant
     = add_sender result entry
  \/ classify_participant namespaces result participant
     = add_receiver result entry.
Proof.
  cbv zeta. unfold classify_participant. cbv zeta.
  repeat match goal with
         | |- context [if ?b then _ else _] => destruct b
         | |- context [match ?x with _ => _ end] => destruct x
         end; auto.
Qed.

Lemma classify_participant_count (namespaces : dict string)
    (result : Result) (participant : ET.Element) :
  length (senders (classify_participant namespaces result participant))
  + length (receivers (classify_participant namespaces result participant))
  <= S (length (senders result) + length (receivers result)).
Proof.
  destruct (participant_goes_to_one_side_aux namespaces result participant)
    as [->|[->| ->]]; simpl; rewrite ?length_app; simpl; lia.
Qed.

Lemma participants_fold_count (namespaces : dict string)
    (found : list ET.Element) :
  forall result,
    length (senders (fold_left (classify_participant namespaces) found result))
    + length (receivers
                (fold_left (classify_participant namespaces) found result))
    <= length (senders result) + length (receivers result) + length found.
Proof.
  induction found as [|p l IH]; intro result; simpl; [lia|].
  pose proof (IH (classify_participant namespaces result p)).
  pose proof (classify_participant_count namespaces result p). lia.
Qed.

(** X8: [_extract_participants] puts each participant element it finds in
    [senders] or in [receivers] or in neither, never in both: the two
    lists together gain at most one entry for each element found. *)
Theorem participants_are_counted_once
    (root : ET.Element) (namespaces : dict string) (result : Result) :
  let r := _extract_participants root namespaces result in
  length (senders r) + length (receivers r)
  <= length (senders result) + length (receivers result)
     + length (flat_map
                 (fun pattern => findall_or_nothing root pattern namespaces)
                 participant_patterns).
Proof.
  cbv zeta. unfold _extract_participants.
  generalize participant_patterns. intro patterns. revert result.
  induction patterns as [|p l IH]; intro result; simpl; [lia|].
  rewrite length_app.
  pose proof (IH (fold_left (classify_participant namespaces)
                    (findall_or_nothing root p namespaces) result)).
  pose proof (participants_fold_count namespaces
                (findall_or_nothing root p namespaces) result).
  lia.
Qed.

Lemma summary_entries (result : Result) (b : bool) :
  error_handling (error_handling_summary result b) <> [].
Proof.
  unfold error_handling_summary.
  destruct (error_handling (set_has_proper_error_handling result b)) eqn:E.
  - destruct b; simpl in *; rewrite E; discriminate.
  - destruct b; simpl in *.
    + now rewrite E.
    + rewrite E. discriminate.
Qed.

(** X9: after [_extract_error_handling] the list [error_handling] is never
    empty, and when the flag [has_proper_error_handling] is false its last
    entry is one of the two summary entries that say so. *)
Theorem error_handling_is_never_empty
    (root : ET.Element) (namespaces : dict string) (result : Result) :
  let r := _extract_error_handling root namespaces result in
  error_handling r <> []
  /\ (has_proper_error_handling r = false ->
      exists d,
        last (error_handling r)
             {| entry_subprocess := None; entry_details := "" |}
        = {| entry_subprocess := None; entry_details := d |}
        /\ (d = "No error handling detected"
            \/ d = "Basic error handling elements found but no proper error subprocesses")).
Proof.
  cbv zeta. unfold _extract_error_handling. cbv zeta.
  set (st := fold_left _ error_handler_patterns _).
  split; [apply summary_entries|].
  rewrite StructureFacts.summary_flag. intro Hb. rewrite Hb.
  unfold error_handling_summary.
  destruct (error_handling (set_has_proper_error_handling (fst st) false))
    eqn:E.
  - exists "No error handling detected". split; [|now left].
    simpl in *. now rewrite E.
  - exists "Basic error handling elements found but no proper error subprocesses".
    split; [|now right]. simpl in *. rewrite E.
    apply last_last.
Qed.

End StructureMore.

(** ** More on the pipeline *)

Module PipelineMore.
Import Py OS SAPConnection Spec Vocabulary PyFacts OSFacts ZipFacts
  SecurityFacts.

Section Pipeline.
Variable fromstring : string -> ET.parse_outcome.
Variable zip_decode : string -> option Zip.archive.

Lemma collected_properties_nothing (t : node) (iflow_path : string) :
  collected_properties zip_decode t iflow_path = [].
Proof.
  unfold collected_properties.
  assert (Hz : zip_properties zip_decode t iflow_path = []).
  { unfold zip_properties.
    destruct (endswith iflow_path ".zip" && OS.exists_ t iflow_path);
      [|reflexivity].
    destruct (ZipFile zip_decode t iflow_path); [reflexivity|].
    apply PipelineFacts.read_property_files_nothing. }
  rewrite Hz. unfold directory_properties.
  destruct (OS.exists_ t (OS.join (OS.dirname iflow_path) "parameters.prop"));
    [|reflexivity].
  destruct (OS.read t (OS.join (OS.dirname iflow_path) "parameters.prop"));
    reflexivity.
Qed.

Lemma process_content_security (t : node) (content path : string)
    (result : Result) :
  same_security
    (loop_result (process_content fromstring zip_decode t content path result))
    (check_security_compliance fromstring content []).
Proof.
  unfold process_content, namespace_sets. cbn [namespace_loop].
  destruct (fromstring content); cbn [success loop_result];
    unfold integrate_security_check;
    rewrite collected_properties_nothing; repeat split.
Qed.

(** X10: after the loop over the definition files of an archive, the
    security keys of the result are those of the last file alone, analysed
    without any property: what an earlier file was found to violate is
    overwritten. *)
Theorem last_definition_file_decides
    (t : node) (unzip_dir : string) (files : list string)
    (last content : string) (result : Result) :
  OS.read t last = Some content ->
  same_security
    (fold_left
       (fun result iflow_file =>
          _process_iflow_definition fromstring zip_decode t iflow_file
            unzip_dir result)
       (files ++ [last]) result)
    (check_security_compliance fromstring content []).
Proof.
  intro Hread. rewrite fold_left_app. cbn [fold_left].
  unfold _process_iflow_definition at 1. rewrite Hread.
  apply process_content_security.
Qed.

End Pipeline.

(** A witness for X10: a flow with a direct Basic method, processed
    before a flow that only holds a placeholder. *)
Lemma last_definition_file_decides_witness :
  OS.read extracted_sample "scratch/second.iflw" = Some sample_iflw
  /\ same_security
       (fold_left
          (fun result iflow_file =>
             _process_iflow_definition sample_fromstring sample_zip_decode
               extracted_sample iflow_file "scratch" result)
          (["scratch/first.iflw"] ++ ["scratch/second.iflw"])
          _initialize_result_structure)
       (check_security_compliance sample_fromstring sample_iflw []).
Proof.
  split; [reflexivity|].
  apply (last_definition_file_decides sample_fromstring sample_zip_decode
           extracted_sample "scratch" ["scratch/first.iflw"]
           "scratch/second.iflw" sample_iflw _initialize_result_structure).
  reflexivity.
Defined.

(** *** The search for definition files *)

Lemma scan_bound (select : string -> string -> bool * bool)
    (files : list (string * string)) :
  (forall root file, snd (select root file) = true ->
                     fst (select root file) = true) ->
  forall n, (length (scan select files n) <= max_files_to_scan - n)%nat.
Proof.
  intro Hsel. induction files as [|[root file] files IH]; intro n;
    cbn [scan]; [cbn [length]; lia|].
  destruct (max_files_to_scan <=? n)%nat eqn:E; [cbn [length]; lia|].
  apply Nat.leb_gt in E.
  pose proof (Hsel root file) as Hs.
  destruct (select root file) as [counted taken]. cbn [fst snd] in Hs.
  pose proof (IH (S n)) as H1. pose proof (IH n) as H0.
  destruct taken.
  - rewrite (Hs eq_refl). cbn [length]. lia.
  - destruct counted; lia.
Qed.

Lemma first_pass_counts t root file :
  snd (first_pass t root file) = true -> fst (first_pass t root file) = true.
Proof.
  unfold first_pass.
  destruct (endswith file ".iflw"); [reflexivity|].
  destruct (endswith file ".xml"); [|discriminate].
  destruct (sample t (OS.join root file) 1000); reflexivity.
Qed.

Lemma second_pass_counts root file :
  snd (second_pass root file) = true -> fst (second_pass root file) = true.
Proof. unfold second_pass. destruct (endswith file ".xml"); auto. Qed.

Lemma third_pass_counts t root file :
  snd (third_pass t root file) = true -> fst (third_pass t root file) = true.
Proof.
  unfold third_pass.
  destruct (negb (endswith file ".class") && negb (endswith file ".jar"));
    [|discriminate].
  destruct (sample t (OS.join root file) 100); [|discriminate].
  destruct (contains "<" s && contains ">" s); auto.
Qed.

(** X11: [_find_iflow_definition_files] never returns more than fifty
    files, however many the directory holds. *)
Theorem definition_files_are_bounded (t : node) (unzip_dir : string) :
  (length (_find_iflow_definition_files t unzip_dir) <= 50)%nat.
Proof.
  unfold _find_iflow_definition_files. cbv zeta.
  pose proof (scan_bound (first_pass t) (OS.walk t unzip_dir)
                (first_pass_counts t) 0) as H1.
  pose proof (scan_bound second_pass (OS.walk t unzip_dir)
                second_pass_counts 0) as H2.
  pose proof (scan_bound (third_pass t) (OS.walk t unzip_dir)
                (third_pass_counts t) 0) as H3.
  unfold max_files_to_scan in *.
  destruct (scan (first_pass t) (OS.walk t unzip_dir) 0); [|simpl in *; lia].
  destruct (scan second_pass (OS.walk t unzip_dir) 0); simpl in *; lia.
Qed.

Lemma scan_members (select : string -> string -> bool * bool)
    (files : list (string * string)) :
  forall n p,
    In p (scan select files n) ->
    exists root file,
      In (root, file) files /\ p = OS.join root file
      /\ snd (select root file) = true.
Proof.
  induction files as [|[root file] files IH]; intros n p; cbn [scan];
    [intros []|].
  destruct (max_files_to_scan <=? n)%nat; [intros []|].
  destruct (select root file) as [counted taken] eqn:E.
  destruct taken.
  - intros [<-|H].
    + exists root, file. rewrite E. repeat split. now left.
    + destruct (IH _ _ H) as (r & f & Hin & Hp & Hs).
      exists r, f. repeat split; try assumption. now right.
  - intro H. destruct (IH _ _ H) as (r & f & Hin & Hp & Hs).
    exists r, f. repeat split; try assumption. now right.
Qed.

Lemma second_pass_empty (files : list (string * string)) :
  forall n, (n < max_files_to_scan)%nat ->
    scan second_pass files n = [] ->
    forall root file, In (root, file) files -> endswith file ".xml" = false.
Proof.
  induction files as [|[r f] files IH]; intros n Hn; cbn [scan];
    [intros _ ? ? []|].
  apply Nat.leb_gt in Hn. rewrite Hn. apply Nat.leb_gt in Hn.
  unfold second_pass at 1.
  destruct (endswith f ".xml") eqn:E; [discriminate|].
  intros H root file [Heq|Hin].
  - now inversion Heq; subst.
  - now apply (IH n Hn H root file).
Qed.

Lemma first_pass_empty (t : node) (files : list (string * string)) :
  (forall root file, In (root, file) files -> endswith file ".xml" = false) ->
  forall n, (n < max_files_to_scan)%nat ->
    scan (first_pass t) files n = [] ->
    forall root file, In (root, file) files -> endswith file ".iflw" = false.
Proof.
  induction files as [|[r f] files IH]; intros Hxml n Hn; cbn [scan];
    [intros _ ? ? []|].
  apply Nat.leb_gt in Hn. rewrite Hn. apply Nat.leb_gt in Hn.
  unfold first_pass at 1.
  destruct (endswith f ".iflw") eqn:E; [discriminate|].
  rewrite (Hxml r f) by now left.
  intros H root file [Heq|Hin].
  - now inversion Heq; subst.
  - apply (IH (fun r0 f0 H0 => Hxml r0 f0 (or_intror H0)) n Hn H root file Hin).
Qed.

(** X12: every path that [_find_iflow_definition_files] returns is a file
    of the walk, and a file whose name ends neither in [.iflw] nor in
    [.xml] is returned only when the directory holds no [.iflw] and no
    [.xml] file at all. *)
Theorem definition_files_come_in_tiers
    (t : node) (unzip_dir : string) (p : string) :
  In p (_find_iflow_definition_files t unzip_dir) ->
  exists root file,
    In (root, file) (OS.walk t unzip_dir) /\ p = OS.join root file
    /\ (endswith file ".iflw" = true \/ endswith file ".xml" = true
        \/ forall root' file',
             In (root', file') (OS.walk t unzip_dir) ->
             endswith file' ".iflw" = false /\ endswith file' ".xml" = false).
Proof.
  unfold _find_iflow_definition_files. cbv zeta.
  destruct (scan (first_pass t) (OS.walk t unzip_dir) 0) as [|a l] eqn:E1.
  - destruct (scan second_pass (OS.walk t unzip_dir) 0) as [|b m] eqn:E2.
    + intro H. destruct (scan_members _ _ _ _ H) as (r & f & Hin & Hp & _).
      exists r, f. repeat split; try assumption. right. right.
      assert (Hxml : forall root file,
                 In (root, file) (OS.walk t unzip_dir) ->
                 endswith file ".xml" = false).
      { assert (H0 : (0 < max_files_to_scan)%nat)
          by (unfold max_files_to_scan; lia).
        exact (second_pass_empty _ 0 H0 E2). }
      intros root' file' Hin'. split; [|now apply (Hxml root')].
      assert (H0 : (0 < max_files_to_scan)%nat)
        by (unfold max_files_to_scan; lia).
      exact (first_pass_empty t _ Hxml 0 H0 E1 root' file' Hin').
    + rewrite <- E2. intro H.
      destruct (scan_members _ _ _ _ H) as (r & f & Hin & Hp & Hs).
      exists r, f. repeat split; try assumption. right. left.
      unfold second_pass in Hs. destruct (endswith f ".xml"); auto.
  - rewrite <- E1. intro H.
    destruct (scan_members _ _ _ _ H) as (r & f & Hin & Hp & Hs).
    exists r, f. repeat split; try assumption.
    unfold first_pass in Hs.
    destruct (endswith f ".iflw"); [now left|].
    destruct (endswith f ".xml"); [right; now left|discriminate].
Qed.

(** A witness for X12: the definition file of the extracted sample. *)
Lemma definition_files_come_in_tiers_witness :
  In "scratch/second.iflw" (_find_iflow_definition_files extracted_sample "scratch")
  /\ exists root file,
       In (root, file) (OS.walk extracted_sample "scratch")
       /\ "scratch/second.iflw" = OS.join root file
       /\ (endswith file ".iflw" = true \/ endswith file ".xml" = true
           \/ forall root' file',
                In (root', file') (OS.walk extracted_sample "scratch") ->
                endswith file' ".iflw" = false
                /\ endswith file' ".xml" = false).
Proof.
  assert (H : In "scratch/second.iflw"
                 (_find_iflow_definition_files extracted_sample "scratch"))
    by (vm_compute; tauto).
  split; [exact H|].
  exact (definition_files_come_in_tiers extracted_sample "scratch"
           "scratch/second.iflw" H).
Defined.


(** *** The key [error] *)

Lemma error_workflow root namespaces result :
  error (_extract_workflow root namespaces result) = error result.
Proof.
  unfold _extract_workflow.
  generalize ["bpmn2:process"; "bpmn:process"; "process"].
  intro tags. revert result.
  induction tags as [|tag tags IH]; intro result; cbn [workflow_loop];
    [reflexivity|].
  destruct (findall_or_nothing root tag namespaces) as [|p ps];
    [apply IH|].
  destruct (first_process_with_steps (p :: ps) namespaces) as [entry|].
  - destruct (workflow (set_workflow result (workflow result ++ [entry])%list));
      [now rewrite IH|reflexivity].
  - destruct (workflow result); [apply IH|reflexivity].
Qed.

Lemma error_classify namespaces result participant :
  error (classify_participant namespaces result participant) = error result.
Proof.
  unfold classify_participant. cbv zeta.
  repeat match goal with
         | |- context [match ?x with _ => _ end] => destruct x
         end; reflexivity.
Qed.

Lemma error_participants root namespaces result :
  error (_extract_participants root namespaces result) = error result.
Proof.
  unfold _extract_participants.
  apply (fold_left_preserves (fun r => error r = error result));
    [|reflexivity].
  intros a pattern Ha.
  apply (fold_left_preserves (fun r => error r = error result));
    [|exact Ha].
  intros b participant Hb. now rewrite error_classify.
Qed.

Lemma error_check_subprocess namespaces st subprocess :
  error (fst (check_subprocess namespaces st subprocess)) = error (fst st).
Proof.
  unfold check_subprocess. cbv zeta.
  destruct (has_error_event subprocess namespaces);
    destruct (error_activity_type (_extract_properties subprocess namespaces));
    reflexivity.
Qed.

Lemma error_summary result flag :
  error (error_handling_summary result flag) = error result.
Proof.
  unfold error_handling_summary. cbv zeta.
  destruct (error_handling (set_has_proper_error_handling result flag));
    destruct flag; reflexivity.
Qed.

Lemma error_error_handling root namespaces result :
  error (_extract_error_handling root namespaces result) = error result.
Proof.
  unfold _extract_error_handling. cbv zeta. rewrite error_summary.
  apply (fold_left_preserves (fun st => error (fst st) = error result)).
  { intros a pattern Ha.
    apply (fold_left_preserves (fun st => error (fst st) = error result));
      [|exact Ha].
    intros b handler Hb. exact Hb. }
  apply (fold_left_preserves (fun st => error (fst st) = error result));
    [|reflexivity].
  intros a pattern Ha.
  apply (fold_left_preserves (fun st => error (fst st) = error result));
    [|exact Ha].
  intros b subprocess Hb. now rewrite error_check_subprocess.
Qed.

Lemma error_add_connection result m :
  error (add_connection result m) = error result.
Proof.
  destruct m as [conn_type adapter_type]. unfold add_connection.
  destruct (String.eqb (lower conn_type) "sender"); reflexivity.
Qed.

Lemma error_regex content result :
  error (_extract_with_regex content result) = error result.
Proof.
  unfold _extract_with_regex. cbv zeta.
  assert (H : error (fold_left add_connection
                       (Re.findall2 connection_pattern content) result)
              = error result).
  { apply (fold_left_preserves (fun r => error r = error result));
      [|reflexivity].
    intros a m Ha. now rewrite error_add_connection. }
  destruct (contains "<error-handling" content);
    destruct (contains "<dead-letter-queue" content);
    destruct (Re.search error_subprocess_pattern content);
    exact H.
Qed.

Lemma endswith_one_suffix (s a b : string) :
  String.length a = String.length b ->
  endswith s a = true -> endswith s b = true -> a = b.
Proof.
  unfold endswith. intros Hl Ha Hb.
  apply andb_true_iff in Ha as [_ Ha]. apply andb_true_iff in Hb as [_ Hb].
  apply String.eqb_eq in Ha, Hb. rewrite <- Hl in Hb. congruence.
Qed.

Lemma definition_suffix_is_no_archive (p : string) :
  endswith p ".xml" = true \/ endswith p ".iflw" = true ->
  endswith p ".zip" = false.
Proof.
  intros [H|H]; destruct (endswith p ".zip") eqn:E; try reflexivity.
  - pose proof (endswith_one_suffix p ".xml" ".zip" eq_refl H E). discriminate.
  - exfalso. unfold endswith in H, E.
    apply andb_true_iff in H as [Hl H]. apply andb_true_iff in E as [Hl' E].
    apply String.eqb_eq in H, E. apply Nat.leb_le in Hl, Hl'.
    cbn [String.length] in *.
    assert (L : forall n m s, substring n m s <> EmptyString ->
                n < String.length s).
    { clear. induction n as [|n IH]; intros m s Hs.
      - destruct s; [destruct m; now elim Hs|cbn; lia].
      - destruct s; [now elim Hs|]. cbn in Hs |- *.
        specialize (IH m s Hs). lia. }
    assert (S1 : forall n s c t, substring n 5 s = String c t ->
                 substring (S n) 4 s = t).
    { clear. induction n as [|n IH]; intros s c t Hs.
      - destruct s as [|x s]; [discriminate|]. cbn in Hs. inversion Hs.
        destruct s; reflexivity.
      - destruct s as [|x s]; [discriminate|]. cbn in Hs |- *.
        now apply (IH s c t). }
    replace (String.length p - 4) with (S (String.length p - 5)) in E by lia.
    rewrite (S1 _ _ _ _ H) in E. discriminate.
Qed.

Section Routes.
Variable fromstring : string -> ET.parse_outcome.
Variable zip_decode : string -> option Zip.archive.

Lemma error_process_content t content path result :
  error (loop_result
           (process_content fromstring zip_decode t content path result))
  = error result.
Proof.
  unfold process_content, namespace_sets. cbn [namespace_loop].
  destruct (fromstring content); cbn [success loop_result];
    unfold integrate_security_check, set_security; cbn [error].
  - unfold extract_structure.
    now rewrite error_error_handling, error_participants, error_workflow.
  - apply error_regex.
  - apply error_regex.
Qed.

Lemma error_xml_file t file_path result :
  error (_process_xml_file fromstring zip_decode t file_path result)
  = error result.
Proof.
  unfold _process_xml_file.
  destruct (OS.read t file_path); [apply error_process_content|reflexivity].
Qed.

Lemma error_unknown_file (w : World) (file_path : string) (result : Result) :
  error result = None ->
  error (snd (_process_unknown_file fromstring zip_decode w file_path result))
  <> None ->
  snd (_process_unknown_file fromstring zip_decode w file_path result)
  = snd (_process_zip_file fromstring zip_decode w file_path result).
Proof.
  intros H0. unfold _process_unknown_file.
  destruct (sample (fs w) file_path 1000) as [header|].
  2: { cbn [snd error add_processing_error]. intro H. now elim H. }
  destruct (startswith header "PK"); [reflexivity|].
  destruct (contains "<?xml" header || contains "<bpmn" header
            || contains "<ifl:" header).
  { cbn [snd]. rewrite error_xml_file. intro H. now elim H. }
  destruct (OS.read (fs w) file_path) as [content|].
  2: { cbn [snd error add_processing_error]. intro H. now elim H. }
  destruct (startswith (strip content) "<"
            && (contains "<?xml" content || contains "<bpmn" content));
    cbn [snd]; rewrite ?error_xml_file, ?error_regex; intro H; now elim H.
Qed.

(** X13: the key [error] of the report is written on the archive route
    only.  For the path that [get_iflow_content] processes: when the
    report carries [error], it is the result that [_process_zip_file]
    leaves for that path; and when the path ends in [.xml] or [.iflw],
    [error] is unset, a file that cannot be opened being reported in
    [processing_errors] alone. *)
Theorem error_key_only_from_archives
    (current_iflow_path : option string) (w : World)
    (iflow_path : option string) (file_path : string) (r : Result) :
  processed_path iflow_path current_iflow_path = Some file_path ->
  snd (get_iflow_content fromstring zip_decode current_iflow_path w
         iflow_path) = Report r ->
  (error r <> None ->
   r = snd (_process_zip_file fromstring zip_decode w file_path
              _initialize_result_structure))
  /\ (endswith file_path ".xml" = true \/ endswith file_path ".iflw" = true ->
      error r = None
      /\ (OS.read (fs w) file_path = None ->
          exists msg,
            processing_errors r
            = ["Error processing XML file " ++ file_path ++ ": " ++ msg])).
Proof.
  unfold get_iflow_content, processed_path. intros -> .
  destruct (negb (OS.exists_ (fs w) file_path)); [discriminate|].
  cbv zeta.
  destruct (endswith file_path ".zip") eqn:Ez.
  { intro H. split.
    - intros _.
      destruct (_process_zip_file fromstring zip_decode w file_path
                  _initialize_result_structure) as [w1 r1].
      cbn [snd] in H |- *. now inversion H.
    - intro Hs. rewrite (definition_suffix_is_no_archive _ Hs) in Ez.
      discriminate. }
  destruct (endswith file_path ".xml" || endswith file_path ".iflw") eqn:Ex.
  { cbn [snd]. intro H. inversion H; subst r. split.
    - rewrite error_xml_file. intro E. now elim E.
    - intros _. split; [apply error_xml_file|].
      intro Hread. unfold _process_xml_file. rewrite Hread.
      now eexists. }
  intro H. split.
  - intro Herr.
    destruct (_process_unknown_file fromstring zip_decode w file_path
                _initialize_result_structure) as [w1 r1] eqn:Eu.
    cbn [snd] in H. inversion H; subst r1.
    pose proof (error_unknown_file w file_path _initialize_result_structure
                  eq_refl) as Hu.
    rewrite Eu in Hu. cbn [snd] in Hu. now apply Hu.
  - intros [Hs|Hs]; rewrite Hs in Ex; [discriminate|].
    rewrite orb_true_r in Ex. discriminate.
Qed.

(** *** Files outside the extraction directory *)

(** X14: [_process_zip_file] changes no file outside its extraction
    directory: such a file holds the same data afterwards, also when the
    directory existed before the call, when members cannot be extracted
    and when [shutil.rmtree] raises. *)
Theorem archive_processing_stays_in_scratch_directory
    (w : World) (file_path : string) (result : Result) (q bytes : string) :
  ~ is_prefix (components (scratch_directory w file_path)) (components q) ->
  OS.read (fs w) q = Some bytes ->
  OS.read (fs (fst (_process_zip_file fromstring zip_decode w file_path
                      result))) q = Some bytes.
Proof.
  intros Hq Hread.
  destruct (scratch_directory_named w file_path) as [Htruthy Hne].
  unfold _process_zip_file.
  pose proof (unzip_and_process_keeps fromstring zip_decode (fs w) file_path
                (scratch_directory w file_path) result) as [K D].
  destruct (unzip_and_process fromstring zip_decode (fs w) file_path
              (scratch_directory w file_path) result) as [t2 outcome].
  cbn [fst] in K, D. cbv zeta. cbn [fst].
  assert (L : lookup (fs w) (components q) = Some (File bytes)).
  { unfold OS.read in Hread.
    destruct (lookup (fs w) (components q)) as [[d|es]|];
      try discriminate. now inversion Hread. }
  pose proof (K _ _ Hq L) as L2.
  unfold cleanup. cbn [fs with_fs].
  destruct (exists_ t2 (scratch_directory w file_path)).
  - unfold rmtree. cbn [fs with_fs rmtree_raises].
    destruct (rmtree_raises w).
    + cbn [fs with_fs]. unfold OS.read. now rewrite L2.
    + destruct (remove_dir t2 (components (scratch_directory w file_path)))
        as [t'|] eqn:Hr; cbn [fs with_fs]; unfold OS.read.
      * now rewrite (remove_dir_keeps_file _ _ _ _ _ Hr Hq L2).
      * now rewrite L2.
  - cbn [fs with_fs]. unfold OS.read. now rewrite L2.
Qed.

(** *** Archives without a definition file *)

Lemma filter_nothing {A} (f : A -> bool) (l : list A) :
  (forall x, In x l -> f x = false) -> filter f l = [].
Proof.
  induction l as [|x l IH]; intro H; [reflexivity|].
  cbn [filter]. rewrite (H x) by now left.
  apply IH. intros y Hy. apply H. now right.
Qed.

Lemma dict_get_set_same {V} (d : dict V) (k : string) (v : V) :
  dict_get (dict_set d k v) k = Some v.
Proof. rewrite dict_get_set. now rewrite String.eqb_refl. Qed.

Lemma mkdirs_fresh c :
  forall t t', lookup t c = None -> mkdirs t c = Some t' ->
               lookup t' c = Some (Dir []).
Proof.
  induction c as [|x c IH]; intros t t' Hl Hm; [discriminate|].
  destruct t as [d|es]; [discriminate|].
  cbn [mkdirs] in Hm. cbn [lookup] in Hl.
  destruct (mkdirs (child es x) c) as [n'|] eqn:E; [|discriminate].
  inversion Hm; subst t'. cbn [lookup]. rewrite dict_get_set_same.
  unfold child in E.
  destruct (dict_get es x) as [n|].
  - now apply (IH n).
  - destruct c as [|y c]; cbn [mkdirs] in E.
    + now inversion E.
    + apply (IH (Dir [])); [reflexivity|exact E].
Qed.

(** X15: an archive none of whose member names contains one of the known
    patterns is not analysed at all: with a fresh extraction directory
    the report keeps the initial verdict [security_compliant = False]
    with no issue, no method and no detail. *)
Theorem archive_without_selected_member_is_not_analysed
    (current_iflow_path : option string) (w : World)
    (file_path bytes : string) (a : Zip.archive) :
  endswith file_path ".zip" = true ->
  OS.read (fs w) file_path = Some bytes ->
  zip_decode bytes = Some a ->
  (forall name, In name (Zip.namelist a) ->
                any_in known_patterns name = false) ->
  OS.exists_ (fs w) (scratch_directory w file_path) = false ->
  exists r,
    snd (get_iflow_content fromstring zip_decode current_iflow_path w
           (Some file_path)) = Report r
    /\ security_compliant r = false
    /\ security r = [] /\ security_issues r = [] /\ security_details r = []
    /\ workflow r = [] /\ senders r = [] /\ receivers r = []
    /\ error_handling r = [] /\ processing_errors r = [].
Proof.
  intros Hzip Hread Hdec Hnames Hfresh.
  pose proof (endswith_truthy file_path ".zip" eq_refl Hzip) as Htruthy.
  destruct (scratch_directory_named w file_path) as [Hst Hne].
  assert (Hnone : lookup (fs w) (components (scratch_directory w file_path))
                  = None).
  { unfold exists_ in Hfresh. rewrite Hst in Hfresh. cbn [andb] in Hfresh.
    destruct (lookup (fs w) (components (scratch_directory w file_path)));
      [discriminate|reflexivity]. }
  unfold get_iflow_content. cbn [resolved_truthy]. rewrite Htruthy.
  assert (Hex : OS.exists_ (fs w) file_path = true).
  { unfold OS.exists_, OS.read in *. rewrite Htruthy.
    destruct (lookup (fs w) (components file_path)); [reflexivity|discriminate]. }
  rewrite Hex, Hzip. cbn [negb]. cbv iota.
  unfold _process_zip_file, unzip_and_process, makedirs.
  destruct (mkdirs (fs w) (components (scratch_directory w file_path)))
    as [t1|] eqn:E.
  - assert (Hr1 : OS.read t1 file_path = Some bytes).
    { unfold OS.read in *.
      destruct (lookup (fs w) (components file_path)) as [[d|es]|] eqn:L;
        try discriminate.
      now rewrite (mkdirs_keeps_file _ _ _ _ _ E L). }
    unfold ZipFile. rewrite Hr1, Hdec.
    rewrite (filter_nothing (fun file => any_in known_patterns file) _ Hnames).
    cbn [fold_left].
    assert (Hw : _find_iflow_definition_files t1
                   (scratch_directory w file_path) = []).
    { unfold _find_iflow_definition_files, walk.
      rewrite (mkdirs_fresh _ _ _ Hnone E). reflexivity. }
    rewrite Hw. cbn [fold_left snd].
    eexists. split; [reflexivity|]. repeat split.
  - cbn [snd]. eexists. split; [reflexivity|]. repeat split.
Qed.

End Routes.

(** Witnesses. *)

Lemma error_key_only_from_archives_witness :
  processed_path (Some "downloads/truncated.zip") None
  = Some "downloads/truncated.zip"
  /\ snd (get_iflow_content sample_fromstring sample_zip_decode None
            (sample_world false) (Some "downloads/truncated.zip"))
     = Report truncated_report
  /\ (error truncated_report <> None ->
      truncated_report
      = snd (_process_zip_file sample_fromstring sample_zip_decode
               (sample_world false) "downloads/truncated.zip"
               _initialize_result_structure))
  /\ (endswith "downloads/truncated.zip" ".xml" = true
      \/ endswith "downloads/truncated.zip" ".iflw" = true ->
      error truncated_report = None
      /\ (OS.read (fs (sample_world false)) "downloads/truncated.zip" = None ->
          exists msg,
            processing_errors truncated_report
            = ["Error processing XML file " ++ "downloads/truncated.zip"
               ++ ": " ++ msg])).
Proof.
  assert (H : snd (get_iflow_content sample_fromstring sample_zip_decode None
                     (sample_world false) (Some "downloads/truncated.zip"))
              = Report truncated_report) by reflexivity.
  split; [reflexivity|]. split; [exact H|].
  exact (error_key_only_from_archives sample_fromstring sample_zip_decode
           None (sample_world false) (Some "downloads/truncated.zip")
           "downloads/truncated.zip" truncated_report eq_refl H).
Defined.

Lemma archive_processing_stays_in_scratch_directory_witness :
  ~ is_prefix
      (components (scratch_directory (sample_world true) "downloads/flow.zip"))
      (components "downloads/truncated.zip")
  /\ OS.read (fs (sample_world true)) "downloads/truncated.zip" = Some "PK"
  /\ OS.read
       (fs (fst (_process_zip_file sample_fromstring sample_zip_decode
                   (sample_world true) "downloads/flow.zip"
                   _initialize_result_structure)))
       "downloads/truncated.zip" = Some "PK".
Proof.
  assert (H : ~ is_prefix
                (components
                   (scratch_directory (sample_world true) "downloads/flow.zip"))
                (components "downloads/truncated.zip")).
  { intros [r Hr]. vm_compute in Hr. discriminate. }
  split; [exact H|]. split; [reflexivity|].
  apply (archive_processing_stays_in_scratch_directory sample_fromstring
           sample_zip_decode (sample_world true) "downloads/flow.zip"
           _initialize_result_structure "downloads/truncated.zip" "PK");
    [exact H|reflexivity].
Defined.

Lemma archive_without_selected_member_is_not_analysed_witness :
  endswith "downloads/plain.zip" ".zip" = true
  /\ OS.read (fs plain_world) "downloads/plain.zip" = Some "PK:plain"
  /\ plain_zip_decode "PK:plain" = Some plain_archive
  /\ (forall name, In name (Zip.namelist plain_archive) ->
                   any_in known_patterns name = false)
  /\ OS.exists_ (fs plain_world)
       (scratch_directory plain_world "downloads/plain.zip") = false
  /\ exists r,
       snd (get_iflow_content sample_fromstring plain_zip_decode None
              plain_world (Some "downloads/plain.zip")) = Report r
       /\ security_compliant r = false
       /\ security r = [] /\ security_issues r = [] /\ security_details r = []
       /\ workflow r = [] /\ senders r = [] /\ receivers r = []
       /\ error_handling r = [] /\ processing_errors r = [].
Proof.
  assert (Hnames : forall name, In name (Zip.namelist plain_archive) ->
                                any_in known_patterns name = false).
  { intros name [<-|[<-|[]]]; reflexivity. }
  split; [reflexivity|]. split; [reflexivity|]. split; [reflexivity|].
  split; [exact Hnames|]. split; [reflexivity|].
  apply (archive_without_selected_member_is_not_analysed sample_fromstring
           plain_zip_decode None plain_world "downloads/plain.zip" "PK:plain"
           plain_archive);
    [reflexivity|reflexivity|reflexivity|exact Hnames|reflexivity].
Defined.

End PipelineMore.

(** ** The further extractors *)

Module ExtractorFacts.
Import Py SAPConnection Extractors Vocabulary SecurityFacts.

(** *** Key steps *)

Lemma pattern_tasks_steps root namespaces pattern (st : list key_step * bool) :
  pattern_tasks root namespaces st pattern =
  ((fst st ++ steps_of_set root namespaces [pattern])%list,
   match steps_of_set root namespaces [pattern] with
   | [] => snd st
   | _ => true
   end).
Proof.
  unfold pattern_tasks, steps_of_set, findall_or_nothing. cbn [flat_map].
  rewrite app_nil_r.
  destruct (ET.findall root pattern namespaces) as [tasks|].
  2: { destruct st. cbn [map fst snd]. now rewrite app_nil_r. }
  revert st. induction tasks as [|task tasks IH]; intro st.
  - destruct st. cbn [fold_left map fst snd]. now rewrite app_nil_r.
  - cbn [fold_left map]. rewrite IH. cbn [fst snd].
    rewrite <- app_assoc. cbn [app].
    destruct (map (key_step_of namespaces pattern) tasks); reflexivity.
Qed.

Lemma pattern_set_steps root namespaces pattern_set :
  forall st : list key_step * bool,
    fold_left (pattern_tasks root namespaces) pattern_set st =
    ((fst st ++ steps_of_set root namespaces pattern_set)%list,
     match steps_of_set root namespaces pattern_set with
     | [] => snd st
     | _ => true
     end).
Proof.
  induction pattern_set as [|pattern rest IH]; intro st.
  - destruct st. cbn [fold_left steps_of_set flat_map fst snd].
    now rewrite app_nil_r.
  - cbn [fold_left]. rewrite IH, pattern_tasks_steps. cbn [fst snd].
    rewrite <- app_assoc.
    assert (E : steps_of_set root namespaces (pattern :: rest)
                = (steps_of_set root namespaces [pattern]
                   ++ steps_of_set root namespaces rest)%list).
    { unfold steps_of_set. cbn [flat_map]. now rewrite app_nil_r. }
    rewrite E. f_equal.
    destruct (steps_of_set root namespaces [pattern]);
      destruct (steps_of_set root namespaces rest); reflexivity.
Qed.

Lemma key_steps_loop_steps root namespaces pattern_sets :
  forall key_steps,
    (Forall (fun pattern_set => steps_of_set root namespaces pattern_set = [])
       pattern_sets
     /\ key_steps_loop root namespaces pattern_sets key_steps = key_steps)
    \/ exists before pattern_set after,
         pattern_sets = (before ++ pattern_set :: after)%list
         /\ Forall (fun s => steps_of_set root namespaces s = []) before
         /\ steps_of_set root namespaces pattern_set <> []
         /\ key_steps_loop root namespaces pattern_sets key_steps
            = (key_steps ++ steps_of_set root namespaces pattern_set)%list.
Proof.
  induction pattern_sets as [|pattern_set rest IH]; intro key_steps.
  - left. split; [constructor|reflexivity].
  - cbn [key_steps_loop]. rewrite pattern_set_steps. cbn [fst snd].
    destruct (steps_of_set root namespaces pattern_set) as [|s l] eqn:E.
    + rewrite app_nil_r.
      destruct (IH key_steps) as [[Hall Heq]|(b & ps & a & Hl & Hb & Hne & Heq)].
      * left. split; [now constructor|exact Heq].
      * right. exists (pattern_set :: b), ps, a.
        split; [now rewrite Hl|]. split; [now constructor|]. now split.
    + right. exists [], pattern_set, rest. rewrite E.
      split; [reflexivity|]. split; [constructor|]. split; [discriminate|].
      reflexivity.
Qed.

(** X16: [_extract_key_steps] takes its steps from one pattern set only,
    the first in the order of the source under which any task is found;
    the tasks that a later set would find are left out, and when no set
    finds a task the list is returned as it was. *)
Theorem key_steps_come_from_the_first_pattern_set
    (root : ET.Element) (namespaces : dict string)
    (key_steps : list key_step) :
  (Forall (fun pattern_set => steps_of_set root namespaces pattern_set = [])
     task_patterns
   /\ _extract_key_steps root namespaces key_steps = key_steps)
  \/ exists before pattern_set after,
       task_patterns = (before ++ pattern_set :: after)%list
       /\ Forall (fun s => steps_of_set root namespaces s = []) before
       /\ steps_of_set root namespaces pattern_set <> []
       /\ _extract_key_steps root namespaces key_steps
          = (key_steps ++ steps_of_set root namespaces pattern_set)%list.
Proof. apply key_steps_loop_steps. Qed.

Lemma fallback_type_is_a_tag (pattern : string) :
  In pattern (concat task_patterns) ->
  last_of (split "/" (last_of (split ":" pattern))) <> "Unknown".
Proof.
  intro H. cbn [concat task_patterns app] in H.
  repeat (destruct H as [<-|H]; [vm_compute; discriminate|]).
  destruct H.
Qed.

Lemma key_step_type (namespaces : dict string) (pattern : string)
    (task : ET.Element) :
  In pattern (concat task_patterns) ->
  step_type (key_step_of namespaces pattern task) <> "Unknown".
Proof.
  intro H. unfold key_step_of. cbv zeta. cbn [step_type].
  destruct (String.eqb
              match first_property ["activitytype"; "activity_type"; "type"]
                      (_extract_properties task namespaces) with
              | Some value => value
              | None => "Unknown"
              end "Unknown") eqn:E.
  - now apply fallback_type_is_a_tag.
  - now apply String.eqb_neq.
Qed.

(** *** Adapters *)

Lemma mem_In (x : string) (l : list string) : mem x l = true <-> In x l.
Proof.
  unfold mem. rewrite existsb_exists. split.
  - intros (y & Hy & E). apply String.eqb_eq in E. now subst.
  - intro H. exists x. split; [exact H|apply String.eqb_refl].
Qed.

Lemma add_adapter_keeps (namespaces : dict string)
    (adapters_used : list string) (message_flow : ET.Element) :
  NoDup adapters_used /\ Forall (fun a => truthy a = true) adapters_used ->
  NoDup (add_adapter namespaces adapters_used message_flow)
  /\ Forall (fun a => truthy a = true)
       (add_adapter namespaces adapters_used message_flow).
Proof.
  intros [Hn Ht]. unfold add_adapter. cbv zeta.
  destruct (match component_type_property
                    (_extract_properties message_flow namespaces) with
            | Some value => Some value
            | None => dict_get (ET.attrib message_flow) "type"
            end) as [c|]; [|now split].
  destruct (truthy c) eqn:Ec; [|now split].
  destruct (mem c adapters_used) eqn:Em; [now split|]. cbn [andb negb].
  split.
  - apply SecurityMore.NoDup_snoc; [exact Hn|].
    intro H. apply mem_In in H. congruence.
  - apply Forall_app. split; [exact Ht|]. now constructor.
Qed.

(** X18: [_extract_adapters] lists an adapter type once: started on a
    list without repetition and without empty names, it returns such a
    list, however many message flows carry the same type and whichever
    patterns find them. *)
Theorem adapters_are_listed_once
    (root : ET.Element) (namespaces : dict string)
    (adapters_used : list string) :
  NoDup adapters_used ->
  Forall (fun a => truthy a = true) adapters_used ->
  NoDup (_extract_adapters root namespaces adapters_used)
  /\ Forall (fun a => truthy a = true)
       (_extract_adapters root namespaces adapters_used).
Proof.
  intros Hn Ht. unfold _extract_adapters.
  apply (fold_left_preserves
           (fun l => NoDup l /\ Forall (fun a => truthy a = true) l));
    [|now split].
  intros l pattern Hl.
  apply (fold_left_preserves
           (fun l => NoDup l /\ Forall (fun a => truthy a = true) l));
    [|exact Hl].
  intros l' message_flow Hl'. now apply add_adapter_keeps.
Qed.

(** *** The type of a key step *)

Lemma first_property_found (keys : list string)
    (props : list (string * string)) (value : string) :
  first_property keys props = Some value ->
  exists before key after,
    props = (before ++ (key, value) :: after)%list
    /\ In (lower key) keys
    /\ forall kv, In kv before -> ~ In (lower (fst kv)) keys.
Proof.
  induction props as [|[k v] props IH]; cbn [first_property]; [discriminate|].
  destruct (mem (lower k) keys) eqn:E.
  - intro H. inversion H; subst. exists [], k, props.
    split; [reflexivity|]. split; [now apply mem_In|intros kv []].
  - intro H. destruct (IH H) as (b & key & a & -> & Hk & Hb).
    exists ((k, v) :: b), key, a. split; [reflexivity|].
    split; [exact Hk|].
    intros kv [<-|Hin]; [|now apply Hb].
    cbn [fst]. intro Hm. apply mem_In in Hm. congruence.
Qed.

Lemma first_property_none (keys : list string)
    (props : list (string * string)) :
  first_property keys props = None ->
  forall kv, In kv props -> ~ In (lower (fst kv)) keys.
Proof.
  induction props as [|[k v] props IH]; cbn [first_property]; [intros _ ? []|].
  destruct (mem (lower k) keys) eqn:E; [discriminate|].
  intros H kv [<-|Hin]; [|now apply IH].
  cbn [fst]. intro Hm. apply mem_In in Hm. congruence.
Qed.

Lemma key_step_typed (namespaces : dict string) (pattern tag : string)
    (task : ET.Element) :
  last_of (split "/" (last_of (split ":" pattern))) = tag ->
  typed_by (step_properties (key_step_of namespaces pattern task)) tag
    (step_type (key_step_of namespaces pattern task)).
Proof.
  intro Htag. unfold key_step_of. cbv zeta. cbn [step_type step_properties].
  rewrite Htag.
  destruct (first_property ["activitytype"; "activity_type"; "type"]
              (_extract_properties task namespaces)) as [value|] eqn:E.
  - destruct (first_property_found _ _ _ E) as (b & key & a & Hp & Hk & Hb).
    left. exists b, key, value, a. split; [exact Hp|].
    split; [exact Hk|]. split; [exact Hb|].
    destruct (String.eqb value "Unknown") eqn:Ev.
    + right. split; [now apply String.eqb_eq|reflexivity].
    + left. split; [now apply String.eqb_neq|reflexivity].
  - right. split; [exact (first_property_none _ _ E)|reflexivity].
Qed.

Lemma findall_descendant_tag (root : ET.Element) (namespaces : dict string)
    (pattern : string) (task : ET.Element) :
  In task (findall_or_nothing root pattern namespaces) ->
  forall name,
    ET.path_axis pattern = (ET.Descendant, name) ->
    exists t, ET.resolve_tag name namespaces = Some t
              /\ In task (ET.descendants root) /\ ET.tag task = t.
Proof.
  intros H name Hp. revert H.
  unfold findall_or_nothing, ET.findall. rewrite Hp.
  destruct (ET.resolve_tag name namespaces) as [t|]; [|intros []].
  intro H. apply filter_In in H as [Hin Ht]. apply String.eqb_eq in Ht.
  now exists t.
Qed.

Lemma prefixed_tag (namespaces : dict string) (pfx tag t : string) :
  match dict_get namespaces pfx with
  | Some uri => Some ("{" ++ uri ++ "}" ++ tag)
  | None => None
  end = Some t ->
  exists pre, t = pre ++ tag.
Proof.
  destruct (dict_get namespaces pfx) as [uri|]; [|discriminate].
  intro H. inversion H. exists ("{" ++ uri ++ "}").
  now rewrite !LinesFacts.append_assoc.
Qed.

(** What a pattern of [task_patterns] finds: descendants of the root
    whose tag ends in the local name of the pattern. *)
Lemma task_pattern_finds (root : ET.Element) (namespaces : dict string)
    (pattern : string) (task : ET.Element) :
  In pattern (concat task_patterns) ->
  In task (findall_or_nothing root pattern namespaces) ->
  exists tag,
    In tag ["serviceTask"; "callActivity"]
    /\ last_of (split "/" (last_of (split ":" pattern))) = tag
    /\ In task (ET.descendants root)
    /\ exists pre, ET.tag task = pre ++ tag.
Proof.
  intros Hp. cbn [concat task_patterns app] in Hp.
  assert (S : In "serviceTask" ["serviceTask"; "callActivity"]) by now left.
  assert (C : In "callActivity" ["serviceTask"; "callActivity"])
    by (right; now left).
  destruct Hp as [<-|[<-|[<-|[<-|[<-|[<-|[<-|[<-|[]]]]]]]]]; intro H;
    destruct (findall_descendant_tag root namespaces _ task H _ eq_refl)
      as (t & Hr & Hin & Ht).
  - exists "serviceTask". repeat split; try assumption; try reflexivity.
    rewrite Ht. exact (prefixed_tag namespaces "bpmn2" _ _ Hr).
  - exists "callActivity". repeat split; try assumption; try reflexivity.
    rewrite Ht. exact (prefixed_tag namespaces "bpmn2" _ _ Hr).
  - exists "serviceTask". repeat split; try assumption; try reflexivity.
    rewrite Ht. exact (prefixed_tag namespaces "bpmn" _ _ Hr).
  - exists "callActivity". repeat split; try assumption; try reflexivity.
    rewrite Ht. exact (prefixed_tag namespaces "bpmn" _ _ Hr).
  - exists "serviceTask". repeat split; try assumption; try reflexivity.
    rewrite Ht. inversion Hr. now exists EmptyString.
  - exists "callActivity". repeat split; try assumption; try reflexivity.
    rewrite Ht. inversion Hr. now exists EmptyString.
  - discriminate Hr.
  - discriminate Hr.
Qed.

(** X17: a key step that [_extract_key_steps] adds is typed by its
    properties or by its tag, never as [Unknown]: it carries the name and
    the properties of a service task or call activity below the root, and
    its type is the value of the first property keyed [activitytype],
    [activity_type] or [type] up to case, or, when there is no such
    property or the value reads [Unknown], the tag name. *)
Theorem key_step_type_is_never_unknown
    (root : ET.Element) (namespaces : dict string)
    (key_steps : list key_step) (s : key_step) :
  In s (_extract_key_steps root namespaces key_steps) ->
  In s key_steps
  \/ (step_type s <> "Unknown"
      /\ exists task tag,
           In task (ET.descendants root)
           /\ In tag ["serviceTask"; "callActivity"]
           /\ (exists pre, ET.tag task = pre ++ tag)
           /\ step_name s = ET.get task "name" "Unnamed Task"
           /\ step_properties s = _extract_properties task namespaces
           /\ typed_by (step_properties s) tag (step_type s)).
Proof.
  intro H.
  destruct (key_steps_loop_steps root namespaces task_patterns key_steps)
    as [[_ Heq]|(b & ps & a & Hl & _ & _ & Heq)];
    unfold _extract_key_steps in H; rewrite Heq in H; [now left|].
  apply in_app_or in H as [H|H]; [now left|]. right.
  unfold steps_of_set in H. apply in_flat_map in H as (pattern & Hp & H).
  apply in_map_iff in H as (task & <- & Hfound).
  assert (Hpat : In pattern (concat task_patterns)).
  { rewrite Hl, concat_app. apply in_or_app. right.
    cbn [concat]. apply in_or_app. now left. }
  split; [now apply key_step_type|].
  destruct (task_pattern_finds root namespaces pattern task Hpat Hfound)
    as (tag & Htag & Hfall & Hin & Hsuffix).
  exists task, tag. split; [exact Hin|]. split; [exact Htag|].
  split; [exact Hsuffix|]. split; [reflexivity|]. split; [reflexivity|].
  now apply key_step_typed.
Qed.

(** *** Patterns with [local-name()] *)

(** X19: the patterns that test [local-name()], which every extractor
    lists last as its namespace-independent fallback, never find an
    element: ElementPath rejects the predicate, the exception is caught
    around the search, and elements in a namespace that the dictionaries
    do not bind stay invisible. *)
Theorem local_name_patterns_find_nothing
    (root : ET.Element) (namespaces : dict string) (pattern : string) :
  In pattern local_name_patterns ->
  ET.findall root pattern namespaces = None
  /\ findall_or_nothing root pattern namespaces = [].
Proof.
  intro H. vm_compute in H.
  repeat (destruct H as [<-|H]; [split; reflexivity|]).
  destruct H.
Qed.

Lemma participant_search (root : ET.Element) (namespaces : dict string)
    (pattern : string) :
  In namespaces namespace_sets -> In pattern participant_patterns ->
  findall_or_nothing root pattern namespaces = []
  \/ exists t, In t participant_tags
       /\ findall_or_nothing root pattern namespaces
          = filter (fun c => String.eqb (ET.tag c) t) (ET.descendants root).
Proof.
  intros Hn Hp.
  assert (T1 : In ("{" ++ BPMN_MODEL ++ "}participant") participant_tags)
    by now left.
  assert (T2 : In "participant" participant_tags) by (right; now left).
  cbn [namespace_sets In] in Hn. cbn [participant_patterns In] in Hp.
  destruct Hn as [<-|[<-|[<-|[]]]];
    destruct Hp as [<-|[<-|[<-|[<-|[]]]]];
    first [ left; reflexivity
          | right; eexists; split; [exact T1|reflexivity]
          | right; eexists; split; [exact T2|reflexivity] ].
Qed.

Lemma fold_left_fixed {A B} (f : A -> B -> A) (l : list B) (a : A) :
  (forall b, In b l -> f a b = a) -> fold_left f l a = a.
Proof.
  induction l as [|b l IH]; intro H; [reflexivity|].
  cbn [fold_left]. rewrite (H b) by now left.
  apply IH. intros b' Hb. apply H. now right.
Qed.

(** X24: a participant in a namespace that the dictionaries do not bind
    is invisible to [_extract_participants]: when no element below the
    root carries the tag [participant] plainly or in the BPMN model
    namespace, the result is returned as it was, whatever the local names
    of the elements are. *)
Theorem foreign_participants_are_invisible
    (root : ET.Element) (namespaces : dict string) (result : Result) :
  In namespaces namespace_sets ->
  (forall e t, In e (ET.descendants root) -> In t participant_tags ->
               ET.tag e <> t) ->
  _extract_participants root namespaces result = result.
Proof.
  intros Hn Htags. unfold _extract_participants.
  apply fold_left_fixed. intros pattern Hp.
  destruct (participant_search root namespaces pattern Hn Hp)
    as [->|(t & Ht & ->)]; [reflexivity|].
  rewrite PipelineMore.filter_nothing; [reflexivity|].
  intros e He. apply String.eqb_neq. now apply Htags.
Qed.

(** *** Properties listed twice *)

Lemma children_are_descendants (e c : ET.Element) :
  In c (ET.children e) -> In c (ET.descendants e).
Proof.
  destruct e as [t a x cs]. cbn [ET.children ET.descendants].
  induction cs as [|d cs IH]; [intros []|].
  intros [->|H].
  - now left.
  - right. apply in_or_app. right. now apply IH.
Qed.

Lemma flat_map_occurrence {A B} (f : A -> list B) (l : list A) (x : A)
    (y : B) :
  In x l -> f x = [y] ->
  exists l1 l2, flat_map f l = (l1 ++ y :: l2)%list.
Proof.
  intros Hin Hf. apply in_split in Hin as (a & b & ->).
  rewrite flat_map_app. cbn [flat_map]. rewrite Hf.
  exists (flat_map f a), (flat_map f b). reflexivity.
Qed.

(** X20: [_extract_properties] returns the pair of a plain [property]
    child twice: the paths [./property] and [.//property] both find the
    child, and the pairs of every path are appended. *)
Theorem plain_property_children_are_listed_twice
    (element : ET.Element) (namespaces : dict string) (prop : ET.Element)
    (k v : string) :
  In prop (ET.children element) ->
  ET.tag prop = "property" ->
  property_pair namespaces prop = [(k, v)] ->
  exists l1 l2 l3,
    _extract_properties element namespaces
    = (l1 ++ (k, v) :: l2 ++ (k, v) :: l3)%list.
Proof.
  intros Hin Htag Hpair.
  assert (Hc : ET.findall element "./property" namespaces
               = Some (filter (fun c => String.eqb (ET.tag c) "property")
                              (ET.children element))) by reflexivity.
  assert (Hd : ET.findall element ".//property" namespaces
               = Some (filter (fun c => String.eqb (ET.tag c) "property")
                              (ET.descendants element))) by reflexivity.
  assert (H1 : In prop (filter (fun c => String.eqb (ET.tag c) "property")
                               (ET.children element))).
  { apply filter_In. split; [exact Hin|]. rewrite Htag. reflexivity. }
  assert (H2 : In prop (filter (fun c => String.eqb (ET.tag c) "property")
                               (ET.descendants element))).
  { apply filter_In. split; [now apply children_are_descendants|].
    rewrite Htag. reflexivity. }
  destruct (flat_map_occurrence (property_pair namespaces) _ prop (k, v)
              H1 Hpair) as (a1 & b1 & E1).
  destruct (flat_map_occurrence (property_pair namespaces) _ prop (k, v)
              H2 Hpair) as (a2 & b2 & E2).
  assert (Hh : exists l0 l4,
             hierarchical_properties element namespaces
             = (l0 ++ (a1 ++ (k, v) :: b1) ++ (a2 ++ (k, v) :: b2) ++ l4)%list).
  { unfold hierarchical_properties, property_paths. cbn [flat_map].
    rewrite Hc, Hd, E1, E2. eexists _, _. reflexivity. }
  destruct Hh as (l0 & l4 & Hh).
  unfold _extract_properties. rewrite Hh.
  destruct (l0 ++ (a1 ++ (k, v) :: b1) ++ (a2 ++ (k, v) :: b2) ++ l4)%list
    eqn:E.
  { destruct l0; [destruct a1|]; discriminate. }
  rewrite <- E.
  exists (l0 ++ a1)%list, (b1 ++ a2)%list, (b2 ++ l4)%list.
  repeat (rewrite <- app_assoc; cbn [app]). reflexivity.
Qed.

(** Witnesses. *)

Lemma key_step_type_is_never_unknown_witness :
  In {| step_name := "call"; step_type := "ExternalCall";
        step_properties := [("activityType", "ExternalCall");
                            ("activityType", "ExternalCall")] |}
     (_extract_key_steps typed_document [] [])
  /\ (In {| step_name := "call"; step_type := "ExternalCall";
            step_properties := [("activityType", "ExternalCall");
                                ("activityType", "ExternalCall")] |} []
      \/ (step_type
            {| step_name := "call"; step_type := "ExternalCall";
               step_properties := [("activityType", "ExternalCall");
                                   ("activityType", "ExternalCall")] |}
          <> "Unknown"
          /\ exists task tag,
               In task (ET.descendants typed_document)
               /\ In tag ["serviceTask"; "callActivity"]
               /\ (exists pre, ET.tag task = pre ++ tag)
               /\ step_name
                    {| step_name := "call"; step_type := "ExternalCall";
                       step_properties := [("activityType", "ExternalCall");
                                           ("activityType", "ExternalCall")] |}
                  = ET.get task "name" "Unnamed Task"
               /\ step_properties
                    {| step_name := "call"; step_type := "ExternalCall";
                       step_properties := [("activityType", "ExternalCall");
                                           ("activityType", "ExternalCall")] |}
                  = _extract_properties task []
               /\ typed_by
                    (step_properties
                       {| step_name := "call"; step_type := "ExternalCall";
                          step_properties :=
                            [("activityType", "ExternalCall");
                             ("activityType", "ExternalCall")] |})
                    tag
                    (step_type
                       {| step_name := "call"; step_type := "ExternalCall";
                          step_properties :=
                            [("activityType", "ExternalCall");
                             ("activityType", "ExternalCall")] |}))).
Proof.
  assert (H : In {| step_name := "call"; step_type := "ExternalCall";
                    step_properties := [("activityType", "ExternalCall");
                                        ("activityType", "ExternalCall")] |}
                 (_extract_key_steps typed_document [] []))
    by (vm_compute; tauto).
  split; [exact H|].
  exact (key_step_type_is_never_unknown typed_document [] [] _ H).
Defined.

Lemma adapters_are_listed_once_witness :
  NoDup ["SFTP"]
  /\ Forall (fun a => truthy a = true) ["SFTP"]
  /\ NoDup (_extract_adapters plain_document [] ["SFTP"])
  /\ Forall (fun a => truthy a = true)
       (_extract_adapters plain_document [] ["SFTP"]).
Proof.
  assert (Hn : NoDup ["SFTP"]).
  { constructor; [intros []|constructor]. }
  assert (Ht : Forall (fun a => truthy a = true) ["SFTP"]).
  { constructor; [reflexivity|constructor]. }
  split; [exact Hn|]. split; [exact Ht|].
  exact (adapters_are_listed_once plain_document [] ["SFTP"] Hn Ht).
Defined.

Lemma local_name_patterns_find_nothing_witness :
  In (local_name_path ".//" "participant") local_name_patterns
  /\ ET.findall plain_document (local_name_path ".//" "participant") [] = None
  /\ findall_or_nothing plain_document (local_name_path ".//" "participant") []
     = [].
Proof.
  assert (H : In (local_name_path ".//" "participant") local_name_patterns)
    by (vm_compute; tauto).
  split; [exact H|].
  exact (local_name_patterns_find_nothing plain_document []
           (local_name_path ".//" "participant") H).
Defined.

Lemma foreign_participants_are_invisible_witness :
  In [("bpmn2", BPMN_MODEL); ("ifl", IFL_XSD); ("bpmndi", BPMN_DI)]
     namespace_sets
  /\ (forall e t, In e (ET.descendants foreign_document) ->
                  In t participant_tags -> ET.tag e <> t)
  /\ _extract_participants foreign_document
       [("bpmn2", BPMN_MODEL); ("ifl", IFL_XSD); ("bpmndi", BPMN_DI)]
       _initialize_result_structure
     = _initialize_result_structure.
Proof.
  assert (Hn : In [("bpmn2", BPMN_MODEL); ("ifl", IFL_XSD); ("bpmndi", BPMN_DI)]
                  namespace_sets) by now left.
  assert (Ht : forall e t, In e (ET.descendants foreign_document) ->
                           In t participant_tags -> ET.tag e <> t).
  { intros e t [<-|[]] [<-|[<-|[]]]; vm_compute; discriminate. }
  split; [exact Hn|]. split; [exact Ht|].
  exact (foreign_participants_are_invisible foreign_document _
           _initialize_result_structure Hn Ht).
Defined.

Lemma plain_property_children_are_listed_twice_witness :
  In (plain_property "address" "/orders") (ET.children plain_flow)
  /\ ET.tag (plain_property "address" "/orders") = "property"
  /\ property_pair [] (plain_property "address" "/orders")
     = [("address", "/orders")]
  /\ exists l1 l2 l3,
       _extract_properties plain_flow []
       = (l1 ++ ("address", "/orders") :: l2
             ++ ("address", "/orders") :: l3)%list.
Proof.
  assert (H : In (plain_property "address" "/orders") (ET.children plain_flow))
    by (right; left; reflexivity).
  split; [exact H|]. split; [reflexivity|]. split; [reflexivity|].
  exact (plain_property_children_are_listed_twice plain_flow []
           (plain_property "address" "/orders") "address" "/orders" H
           eq_refl eq_refl).
Defined.

End ExtractorFacts.

(** ** The stand-alone validator *)

Module ValidatorFacts.
Import Py Validator SecurityFacts.

Lemma extends_refl r : extends r r.
Proof.
  repeat split; auto; exists []; now rewrite app_nil_r.
Qed.

Lemma extends_trans r1 r2 r3 : extends r1 r2 -> extends r2 r3 -> extends r1 r3.
Proof.
  intros (C1 & [a1 A1] & [b1 B1] & [c1 D1]) (C2 & [a2 A2] & [b2 B2] & [c2 D2]).
  repeat split.
  - auto.
  - exists (a1 ++ a2)%list. now rewrite A2, A1, app_assoc.
  - exists (b1 ++ b2)%list. now rewrite B2, B1, app_assoc.
  - exists (c1 ++ c2)%list. now rewrite D2, D1, app_assoc.
Qed.

Lemma extends_add_method r x : extends r (add_method r x).
Proof.
  repeat split; cbn; auto; try (exists []; now rewrite app_nil_r).
  now exists [x].
Qed.

Lemma extends_add_issue r x : extends r (add_issue r x).
Proof.
  repeat split; cbn; auto; try (exists []; now rewrite app_nil_r).
  now exists [x].
Qed.

Lemma extends_add_detail r x : extends r (add_detail r x).
Proof.
  repeat split; cbn; auto; try (exists []; now rewrite app_nil_r).
  now exists [x].
Qed.

Lemma extends_set_noncompliant r : extends r (set_noncompliant r).
Proof.
  repeat split; cbn; auto; exists []; now rewrite app_nil_r.
Qed.

Ltac grow :=
  repeat first
    [ apply extends_refl
    | apply extends_add_method
    | apply extends_add_issue
    | apply extends_add_detail
    | apply extends_set_noncompliant
    | eapply extends_trans; [|apply extends_add_issue]
    | eapply extends_trans; [|apply extends_set_noncompliant]
    | eapply extends_trans; [|apply extends_add_method]
    | eapply extends_trans; [|apply extends_add_detail] ].

Lemma extends_direct_match r x : extends r (direct_match r x).
Proof.
  unfold direct_match. cbv zeta.
  destruct (truthy (strip x) && negb (mem (strip x) (auth_methods r)));
    [|grow].
  destruct (is_basic (strip x)); grow.
Qed.

Lemma extends_param_match ps r x : extends r (param_match ps r x).
Proof.
  unfold param_match. cbv zeta.
  destruct (if_truthy (resolve ps (strip x))) as [v|]; [|grow].
  destruct (mem _ _); destruct (is_basic v); grow.
Qed.

Lemma extends_check_flow ps r flow : extends r (check_flow ps r flow).
Proof.
  unfold check_flow. cbv zeta.
  destruct (if_truthy (flow_auth_value flow)) as [v|]; [|grow].
  destruct (startswith v "{{" && endswith v "}}").
  - destruct (if_truthy _) as [w|]; [|grow].
    destruct (mem _ _); destruct (is_basic w); grow.
  - destruct (mem _ _); destruct (is_basic v); grow.
Qed.

Lemma extends_safety_check content r : extends r (safety_check content r).
Proof.
  unfold safety_check. cbv zeta.
  destruct (_ && _); [|grow].
  destruct (_ || _); grow.
Qed.

Lemma extends_fold {B} (f : results -> B -> results) (l : list B) :
  (forall r x, extends r (f r x)) -> forall r, extends r (fold_left f l r).
Proof.
  intro Hf. induction l as [|x l IH]; intro r; cbn [fold_left].
  - apply extends_refl.
  - eapply extends_trans; [apply Hf|apply IH].
Qed.

Lemma extends_check_single_file fromstring content ps r :
  extends r (check_single_file fromstring content ps r).
Proof.
  unfold check_single_file. cbv zeta.
  eapply extends_trans; [|apply extends_safety_check].
  eapply extends_trans; [apply (extends_fold direct_match), extends_direct_match|].
  eapply extends_trans;
    [apply (extends_fold (param_match ps)), extends_param_match|].
  destruct (fromstring content); try apply extends_refl.
  apply (extends_fold (check_flow ps)), extends_check_flow.
Qed.

(** X21: the validator never withdraws a finding: over the files of an
    archive, which share [results], a verdict that is negative stays
    negative whatever the later files hold, and the issues, methods and
    details recorded so far keep their places in the lists. *)
Theorem negative_verdict_persists
    (fromstring : string -> ET.parse_outcome) (properties : dict string)
    (contents : list string) (r : results) :
  extends r
    (fold_left
       (fun r content => check_single_file fromstring content properties r)
       contents r).
Proof.
  apply (extends_fold
           (fun r content => check_single_file fromstring content properties r)).
  intros r0 content. apply extends_check_single_file.
Qed.

(** *** The verdict and the issues *)

Lemma verdict_flag r x :
  verdict_tracks_issues (add_issue (set_noncompliant r) x).
Proof.
  unfold verdict_tracks_issues. cbn. split; [discriminate|].
  intro H. now apply SecurityMore.app_one_not_nil in H.
Qed.

Lemma verdict_add_method r x :
  verdict_tracks_issues r -> verdict_tracks_issues (add_method r x).
Proof. exact (fun H => H). Qed.

Lemma verdict_add_detail r x :
  verdict_tracks_issues r -> verdict_tracks_issues (add_detail r x).
Proof. exact (fun H => H). Qed.

Lemma verdict_direct_match r x :
  verdict_tracks_issues r -> verdict_tracks_issues (direct_match r x).
Proof.
  intro H. unfold direct_match. cbv zeta.
  destruct (truthy (strip x) && negb (mem (strip x) (auth_methods r)));
    [|exact H].
  destruct (is_basic (strip x)); [apply verdict_flag|exact H].
Qed.

Lemma verdict_param_match ps r x :
  verdict_tracks_issues r -> verdict_tracks_issues (param_match ps r x).
Proof.
  intro H. unfold param_match. cbv zeta.
  destruct (if_truthy (resolve ps (strip x))) as [v|]; [|exact H].
  destruct (is_basic v); [apply verdict_flag|].
  destruct (mem _ _); exact H.
Qed.

Lemma verdict_check_flow ps r flow :
  verdict_tracks_issues r -> verdict_tracks_issues (check_flow ps r flow).
Proof.
  intro H. unfold check_flow. cbv zeta.
  destruct (if_truthy (flow_auth_value flow)) as [v|]; [|exact H].
  destruct (startswith v "{{" && endswith v "}}").
  - destruct (if_truthy _) as [w|]; [|exact H].
    destruct (is_basic w); [apply verdict_flag|].
    destruct (mem _ _); exact H.
  - destruct (is_basic v); [apply verdict_flag|].
    destruct (mem _ _); exact H.
Qed.

Lemma verdict_safety_check content r :
  verdict_tracks_issues r -> verdict_tracks_issues (safety_check content r).
Proof.
  intro H. unfold safety_check. cbv zeta.
  destruct (_ && _); [|exact H].
  destruct (_ || _); [apply verdict_flag|exact H].
Qed.

(** X22: [check_single_file] keeps the verdict and the issues of
    [results] in step: when the dictionary it is handed is compliant
    exactly if it holds no issue, so is the dictionary it leaves. *)
Theorem validator_verdict_tracks_issues
    (fromstring : string -> ET.parse_outcome) (content : string)
    (properties : dict string) (r : results) :
  verdict_tracks_issues r ->
  verdict_tracks_issues (check_single_file fromstring content properties r).
Proof.
  intro H. unfold check_single_file. cbv zeta.
  apply verdict_safety_check.
  assert (H2 : verdict_tracks_issues
                 (fold_left (param_match properties)
                    (Re.findall param_auth_pattern content)
                    (fold_left direct_match
                       (Re.findall direct_auth_pattern content) r))).
  { apply (fold_left_preserves verdict_tracks_issues).
    - intros a b. apply verdict_param_match.
    - apply (fold_left_preserves verdict_tracks_issues); [|exact H].
      intros a b. apply verdict_direct_match. }
  destruct (fromstring content); try exact H2.
  apply (fold_left_preserves verdict_tracks_issues); [|exact H2].
  intros a b. apply verdict_check_flow.
Qed.

(** *** Direct Basic authentication *)

Lemma is_basic_nonempty (x : string) : is_basic x = true -> truthy x = true.
Proof. destruct x; [discriminate|reflexivity]. Qed.

Lemma flagged_direct_match r x :
  basic_methods_flagged r -> basic_methods_flagged (direct_match r x).
Proof.
  intros H. unfold direct_match. cbv zeta.
  destruct (truthy (strip x) && negb (mem (strip x) (auth_methods r)));
    [|exact H].
  destruct (is_basic (strip x)) eqn:Eb; intros a Ha Hb; cbn in Ha |- *;
    apply in_app_or in Ha as [Ha|[<-|[]]].
  - destruct (H a Ha Hb) as [_ Hi]. split; [reflexivity|].
    apply in_or_app. now left.
  - split; [reflexivity|]. apply in_or_app. right. now left.
  - exact (H a Ha Hb).
  - congruence.
Qed.

Lemma direct_match_flags r x :
  basic_methods_flagged r -> is_basic (strip x) = true ->
  is_compliant (direct_match r x) = false
  /\ In (direct_issue (strip x)) (issues (direct_match r x)).
Proof.
  intros H Hb. unfold direct_match. cbv zeta.
  rewrite (is_basic_nonempty _ Hb), Hb. cbn [andb].
  destruct (mem (strip x) (auth_methods r)) eqn:Em; cbn [negb].
  - apply ExtractorFacts.mem_In in Em. exact (H _ Em Hb).
  - cbn. split; [reflexivity|]. apply in_or_app. right. now left.
Qed.

Lemma direct_matches_flag (l : list string) (x : string) :
  In x l -> is_basic (strip x) = true ->
  forall r, basic_methods_flagged r ->
    is_compliant (fold_left direct_match l r) = false
    /\ In (direct_issue (strip x)) (issues (fold_left direct_match l r)).
Proof.
  intros Hin Hb. induction l as [|y l IH]; [destruct Hin|].
  intros r Hr. cbn [fold_left]. destruct Hin as [->|Hin].
  - destruct (direct_match_flags r x Hr Hb) as [Hc Hi].
    destruct (extends_fold direct_match l extends_direct_match
                (direct_match r x)) as (C & _ & [i Hiss] & _).
    split; [now apply C|]. rewrite Hiss. apply in_or_app. now left.
  - apply IH; [exact Hin|]. now apply flagged_direct_match.
Qed.

(** X23: the validator flags a direct Basic method: when the direct
    pattern finds in the content a value that reads [basic] or [basic
    authentication] up to case and surrounding white space, the check of
    that file, started on the initial dictionary, ends with a negative
    verdict and the issue that names the value. *)
Theorem validator_flags_direct_basic
    (fromstring : string -> ET.parse_outcome) (content : string)
    (properties : dict string) (m : string) :
  In m (Re.findall direct_auth_pattern content) ->
  is_basic (strip m) = true ->
  is_compliant
    (check_single_file fromstring content properties initial_results) = false
  /\ In (direct_issue (strip m))
        (issues
           (check_single_file fromstring content properties initial_results)).
Proof.
  intros Hin Hb.
  assert (H0 : basic_methods_flagged initial_results) by (intros a []).
  destruct (direct_matches_flag _ m Hin Hb initial_results H0) as [Hc Hi].
  assert (E : extends
                (fold_left direct_match
                   (Re.findall direct_auth_pattern content) initial_results)
                (check_single_file fromstring content properties
                   initial_results)).
  { unfold check_single_file. cbv zeta.
    eapply extends_trans; [|apply extends_safety_check].
    eapply extends_trans;
      [apply (extends_fold (param_match properties)), extends_param_match|].
    destruct (fromstring content); try apply extends_refl.
    apply (extends_fold (check_flow properties)), extends_check_flow. }
  destruct E as (C & _ & [i Hiss] & _).
  split; [now apply C|]. rewrite Hiss. apply in_or_app. now left.
Qed.

Lemma validator_flags_direct_basic_witness :
  In "Basic" (Re.findall direct_auth_pattern basic_file)
  /\ is_basic (strip "Basic") = true
  /\ is_compliant (check_single_file no_parser basic_file [] initial_results)
     = false
  /\ In (direct_issue (strip "Basic"))
        (issues (check_single_file no_parser basic_file [] initial_results)).
Proof.
  assert (H : In "Basic" (Re.findall direct_auth_pattern basic_file))
    by (vm_compute; tauto).
  split; [exact H|]. split; [reflexivity|].
  exact (validator_flags_direct_basic no_parser basic_file [] "Basic" H
           eq_refl).
Defined.

Lemma validator_verdict_tracks_issues_witness :
  verdict_tracks_issues initial_results
  /\ verdict_tracks_issues
       (check_single_file no_parser basic_file [] initial_results).
Proof.
  assert (H : verdict_tracks_issues initial_results).
  { split; reflexivity. }
  split; [exact H|].
  exact (validator_verdict_tracks_issues no_parser basic_file [] _ H).
Defined.

End ValidatorFacts.
